(** * LockPort: PIN-gated access control for removable storage

    A shallow embedding of the credential store ([lockport/pin_store.py]),
    the device state ledger ([lockport/device_state.py]), the toggle adapter
    ([lockport/device_locker.py]), the service orchestrator
    ([lockport/service.py]), the event handlers of the device window
    ([lockport/device_window.py]), the monitor thread
    ([lockport/usb_monitor.py]) and the administration commands
    ([lockport_cli.py]), followed by the properties proved of them.

    Conventions of the embedding:
    - a Python [str] is a [string] whose characters are the code points
      U+0000..U+00FF, one [ascii] per code point;
    - wall-clock readings ([time.time()]) and durations are integers of one
      common unit (seconds); only their order and sums are used.  The clock is
      a field of the state: it is read by [time.time()] and moved by the
      environment between calls;
    - a JSON file holds the document that [json.dumps] was given, and
      [json.loads] gives it back; a number of a document is an integer in
      the range of [float];
    - what a subprocess writes is text that decodes in the encoding of the
      locale, except in [Undecoded], which has the exception that
      [subprocess.run(..., text=True)] raises where it does not;
    - whatever the operating system decides (subprocess outcomes, entropy,
      whether a write reaches the disk, the data-protection facility) is read
      from the environment part of the state. *)

From Stdlib Require Import ZArith String Ascii List Bool Lia.
From Stdlib Require Import Strings.Byte.
From stdpp Require Import base option gmap strings list fin_maps sorting.

Local Open Scope string_scope.
Local Open Scope Z_scope.

(** ** Python strings *)

Module PyStr.

Definition ord (c : ascii) : Z := Z.of_N (N_of_ascii c).

Definition chr (z : Z) : ascii := ascii_of_N (Z.to_N z).

Definition len (s : string) : Z := Z.of_nat (String.length s).

Fixpoint all_chars (p : ascii -> bool) (s : string) : bool :=
  match s with
  | EmptyString => true
  | String c rest => p c && all_chars p rest
  end.

(** [str.isdigit] on one character: the decimal digits and, in this range
    of code points, the superscripts two, three and one. *)
Definition char_isdigit (c : ascii) : bool :=
  let n := ord c in
  ((48 <=? n) && (n <=? 57)) || (n =? 178) || (n =? 179) || (n =? 185).

(** [s.isdigit()]: false on the empty string. *)
Definition isdigit (s : string) : bool :=
  match s with
  | EmptyString => false
  | _ => all_chars char_isdigit s
  end.

(** Characters removed by [str.strip()]. *)
Definition char_isspace (c : ascii) : bool :=
  let n := ord c in
  ((9 <=? n) && (n <=? 13)) || ((28 <=? n) && (n <=? 32))
  || (n =? 133) || (n =? 160).

Fixpoint lstrip (s : string) : string :=
  match s with
  | EmptyString => EmptyString
  | String c rest => if char_isspace c then lstrip rest else s
  end.

Fixpoint rstrip (s : string) : string :=
  match s with
  | EmptyString => EmptyString
  | String c rest =>
      match rstrip rest with
      | EmptyString => if char_isspace c then EmptyString else String c EmptyString
      | r => String c r
      end
  end.

Definition strip (s : string) : string := rstrip (lstrip s).

Definition char_lower (c : ascii) : ascii :=
  let n := ord c in
  if ((65 <=? n) && (n <=? 90))
     || ((192 <=? n) && (n <=? 222) && negb (n =? 215))
  then chr (n + 32) else c.

Fixpoint lower (s : string) : string :=
  match s with
  | EmptyString => EmptyString
  | String c rest => String (char_lower c) (lower rest)
  end.

(** [needle in text] *)
Fixpoint contains (needle text : string) : bool :=
  String.prefix needle text
  || match text with
     | EmptyString => false
     | String _ rest => contains needle rest
     end.

(** Truth value of a string and of an optional string. *)
Definition truthy (s : string) : bool :=
  match s with EmptyString => false | _ => true end.

(** [x or d] for [x : str | None]. *)
Definition or_else (x : option string) (d : string) : string :=
  match x with
  | Some s => if truthy s then s else d
  | None => d
  end.

(** [s.encode("utf-8")] *)
Definition encode_char (c : ascii) : list byte :=
  let n := ord c in
  if n <? 128 then [byte_of_ascii c]
  else [byte_of_ascii (chr (192 + n / 64)); byte_of_ascii (chr (128 + n mod 64))].

Fixpoint encode (s : string) : list byte :=
  match s with
  | EmptyString => []
  | String c rest => encode_char c ++ encode rest
  end.

(** [b.decode("utf-8")], defined on the encodings of this range of code
    points; [None] stands for the exception on anything else. *)
Fixpoint decode (b : list byte) : option string :=
  match b with
  | [] => Some EmptyString
  | x :: rest =>
      let n := ord (ascii_of_byte x) in
      if n <? 128 then String (ascii_of_byte x) <$> decode rest
      else if (n =? 194) || (n =? 195) then
        match rest with
        | y :: rest' =>
            let m := ord (ascii_of_byte y) in
            if (128 <=? m) && (m <? 192)
            then String (chr ((n - 192) * 64 + (m - 128))) <$> decode rest'
            else None
        | [] => None
        end
      else None
  end.

End PyStr.

(** ** Configuration ([lockport/config.py]) *)

Record LockPortConfig := {
  pin_attempt_limit : Z;
  pin_lockout_seconds : Z;
  pin_hash_iterations : Z;
  ui_timeout_seconds : Z
}.

Definition DEFAULT_CONFIG : LockPortConfig := {|
  pin_attempt_limit := 5;
  pin_lockout_seconds := 300;
  pin_hash_iterations := 100000;
  ui_timeout_seconds := 120
|}.

#[global] Instance byte_eq_decision : EqDecision byte := Byte.byte_eq_dec.

(** ** Platform primitives

    The key derivation and the base64 codec of the Python standard library,
    and the optional Windows data-protection module ([win32crypt], [None]
    where pywin32 is not installed).  [CryptProtectData] and
    [CryptUnprotectData] answer [None] where the real calls raise. *)

(** What [CryptProtectData] returns.  The annotation in [_cache_last_pin]
    expects a pair of a description and the encrypted bytes; pywin32 returns
    the encrypted bytes alone. *)
Inductive Protected :=
| ProtectedBytes (data : list byte)
| ProtectedPair (description : string) (data : list byte).

(** [CryptUnprotectData] answers the second component of the pair that the
    call returns. *)
Record Win32Crypt := {
  CryptProtectData : list byte -> option Protected;
  CryptUnprotectData : list byte -> option (list byte)
}.

Class Platform := {
  pbkdf2_hmac_sha256 : list byte -> list byte -> Z -> list byte;
  b64encode : list byte -> string;
  b64decode : string -> option (list byte);
  win32crypt : option Win32Crypt
}.

(** ** A state-and-exception monad for the stateful code *)

Inductive Exn :=
| PinLockedError (msg : string)
| PinValidationError (msg : string)
| ValueError (msg : string)
| BinasciiError
| FileNotFoundError
| AttributeError
| UnicodeDecodeError
| OSError.

Inductive Result (A : Type) :=
| Ok (a : A)
| Raise (e : Exn).
Arguments Ok {A} a.
Arguments Raise {A} e.

Definition M (S A : Type) : Type := S -> Result A * S.

Definition ret {S A} (a : A) : M S A := fun s => (Ok a, s).

Definition raise {S A} (e : Exn) : M S A := fun s => (Raise e, s).

Definition bind {S A B} (m : M S A) (k : A -> M S B) : M S B :=
  fun s =>
    match m s with
    | (Ok a, s') => k a s'
    | (Raise e, s') => (Raise e, s')
    end.

(** [try: m except <handled>: h] *)
Definition try_except {S A} (m : M S A) (handled : Exn -> bool) (h : Exn -> M S A)
  : M S A :=
  fun s =>
    match m s with
    | (Ok a, s') => (Ok a, s')
    | (Raise e, s') => if handled e then h e s' else (Raise e, s')
    end.

Definition gets {S A} (f : S -> A) : M S A := fun s => (Ok (f s), s).

(** The value of a computation that returned. *)
Definition ret_value {A} (r : Result A) : option A :=
  match r with
  | Ok a => Some a
  | Raise _ => None
  end.

Definition modify {S} (f : S -> S) : M S unit := fun s => (Ok tt, f s).

Notation "'let*' x ':=' m 'in' k" := (bind m (fun x => k))
  (at level 10, x name, m at level 100, k at level 200).
Notation "m ';;' k" := (bind m (fun _ => k))
  (at level 100, k at level 200, right associativity).

(** ** Credential store ([lockport/pin_store.py]) *)

Module PinStore.

Record PinStoreRecord := {
  hash_value : string;
  salt : string;
  iterations : Z
}.

(** The JSON document of the store file.  The three counters are read with
    [dict.get], so a document may lack them. *)
Record Payload := {
  pin : PinStoreRecord;
  failed_attempts : option Z;
  lock_until : option Z;
  updated_at : option Z
}.

(** The JSON document of the PIN cache file. *)
Record CacheEntry := {
  ts : Z;
  blob : string
}.

Inductive File := StoreFile | CacheFile.

Inductive IoOp :=
| IoExists (f : File)
| IoRead (f : File)
| IoWrite (f : File)
| IoUnlink (f : File).

(** The two files of a [PinManager], the clock, the entropy source (the
    [draws]-th call of [secrets.token_bytes] answers [entropy draws]) and
    the file operations performed so far, latest first. *)
Record World := {
  store_file : option Payload;
  cache_file : option CacheEntry;
  clock : Z;
  entropy : nat -> list byte;
  draws : nat;
  io_log : list IoOp
}.

Definition set_store_file (v : option Payload) (w : World) : World :=
  {| store_file := v; cache_file := cache_file w; clock := clock w;
     entropy := entropy w; draws := draws w; io_log := io_log w |}.

Definition set_cache_file (v : option CacheEntry) (w : World) : World :=
  {| store_file := store_file w; cache_file := v; clock := clock w;
     entropy := entropy w; draws := draws w; io_log := io_log w |}.

Definition set_clock (t : Z) (w : World) : World :=
  {| store_file := store_file w; cache_file := cache_file w; clock := t;
     entropy := entropy w; draws := draws w; io_log := io_log w |}.

Definition set_draws (n : nat) (w : World) : World :=
  {| store_file := store_file w; cache_file := cache_file w; clock := clock w;
     entropy := entropy w; draws := n; io_log := io_log w |}.

Definition log_io (op : IoOp) (w : World) : World :=
  {| store_file := store_file w; cache_file := cache_file w; clock := clock w;
     entropy := entropy w; draws := draws w; io_log := op :: io_log w |}.

(** [time.time()] *)
Definition time_time : M World Z := gets clock.

(** [secrets.token_bytes(n)] *)
Definition token_bytes (n : Z) : M World (list byte) :=
  fun w => (Ok (entropy w (draws w)), set_draws (S (draws w)) w).

Definition store_exists : M World bool :=
  fun w => (Ok (bool_decide (is_Some (store_file w))), log_io (IoExists StoreFile) w).

Definition store_read_text : M World Payload :=
  fun w =>
    match store_file w with
    | Some p => (Ok p, log_io (IoRead StoreFile) w)
    | None => (Raise FileNotFoundError, log_io (IoRead StoreFile) w)
    end.

Definition store_write_text (p : Payload) : M World unit :=
  modify (fun w => log_io (IoWrite StoreFile) (set_store_file (Some p) w)).

Definition cache_exists : M World bool :=
  fun w => (Ok (bool_decide (is_Some (cache_file w))), log_io (IoExists CacheFile) w).

Definition cache_read_text : M World CacheEntry :=
  fun w =>
    match cache_file w with
    | Some c => (Ok c, log_io (IoRead CacheFile) w)
    | None => (Raise FileNotFoundError, log_io (IoRead CacheFile) w)
    end.

Definition cache_write_text (c : CacheEntry) : M World unit :=
  modify (fun w => log_io (IoWrite CacheFile) (set_cache_file (Some c) w)).

Definition cache_unlink : M World unit :=
  modify (fun w => log_io (IoUnlink CacheFile) (set_cache_file None w)).

Definition with_counters (fa lu ua : option Z) (d : Payload) : Payload :=
  {| pin := pin d; failed_attempts := fa; lock_until := lu; updated_at := ua |}.

Definition with_pin (r : PinStoreRecord) (d : Payload) : Payload :=
  {| pin := r; failed_attempts := failed_attempts d;
     lock_until := lock_until d; updated_at := updated_at d |}.

(** [secrets.compare_digest] decides equality of the two digests. *)
Definition compare_digest (a b : list byte) : bool := bool_decide (a = b).

Definition is_pin_error (e : Exn) : bool :=
  match e with
  | PinValidationError _ | PinLockedError _ => true
  | _ => false
  end.

Section WithPlatform.
Context {platform : Platform}.
Variable config : LockPortConfig.

(** [PinStoreRecord.from_pin] *)
Definition from_pin (pin : string) (iterations : Z) : M World PinStoreRecord :=
  let* salt := token_bytes 16 in
  let hash_bytes := pbkdf2_hmac_sha256 (PyStr.encode pin) salt iterations in
  ret {| hash_value := b64encode hash_bytes;
         salt := b64encode salt;
         iterations := iterations |}.

(** [PinStoreRecord.verify]; [None] when a stored field is not base64. *)
Definition verify (r : PinStoreRecord) (pin : string) : option bool :=
  salt_bytes ← b64decode (salt r);
  expected_hash ← b64decode (hash_value r);
  let test_hash :=
    pbkdf2_hmac_sha256 (PyStr.encode pin) salt_bytes (iterations r) in
  Some (compare_digest expected_hash test_hash).

Definition _write (payload : Payload) : M World unit :=
  store_write_text payload.

Definition _initialize_store : M World unit :=
  let* record := from_pin "0000" (pin_hash_iterations config) in
  let* now := time_time in
  _write {| pin := record; failed_attempts := Some 0;
            lock_until := Some 0; updated_at := Some now |}.

Definition _read : M World Payload :=
  let* present := store_exists in
  if present then store_read_text
  else _initialize_store ;; store_read_text.

(** [PinManager.__init__] *)
Definition __init__ : M World unit :=
  let* present := store_exists in
  if present then ret tt else _initialize_store.

(** [result_protect[1]] as the argument of [base64.b64encode]: the second
    component of a pair.  Of bytes the item is an [int] (or the index is
    out of range), and [b64encode] raises [TypeError] ([IndexError]):
    [None]. *)
Definition second_item (result_protect : Protected) : option (list byte) :=
  match result_protect with
  | ProtectedPair _ data => Some data
  | ProtectedBytes _ => None
  end.

(** Whatever is raised on the way is caught and logged at debug level. *)
Definition _cache_last_pin (pin : string) : M World unit :=
  match win32crypt with
  | None => ret tt
  | Some api =>
      match CryptProtectData api (PyStr.encode pin) ≫= second_item with
      | Some encrypted =>
          let* now := time_time in
          cache_write_text {| ts := now; blob := b64encode encrypted |}
      | None => ret tt
      end
  end.

Definition _clear_cached_pin : M World unit :=
  let* present := cache_exists in
  if present then cache_unlink else ret tt.

Definition verify_pin (candidate : string) : M World bool :=
  let* data := _read in
  let* now := time_time in
  if default 0 (lock_until data) >? now
  then raise (PinLockedError "PIN entry temporarily locked")
  else
    match verify (pin data) candidate with
    | None => raise BinasciiError
    | Some true =>
        _write (with_counters (Some 0) (Some 0) (Some now) data) ;;
        _cache_last_pin candidate ;;
        ret true
    | Some false =>
        let attempts := default 0 (failed_attempts data) + 1 in
        let data' :=
          if attempts >=? pin_attempt_limit config
          then with_counters (Some 0) (Some (now + pin_lockout_seconds config))
                 (updated_at data) data
          else with_counters (Some attempts) (lock_until data)
                 (updated_at data) data in
        _write data' ;;
        raise (PinValidationError "Invalid PIN")
    end.

Definition set_pin (new_pin : string) (current_pin : option string)
  : M World unit :=
  if negb (PyStr.isdigit new_pin)
     || negb ((4 <=? PyStr.len new_pin) && (PyStr.len new_pin <=? 8))
  then raise (ValueError "PIN must be 4-8 numeric digits")
  else
    match current_pin with
    | Some cur =>
        try_except (verify_pin cur ;; ret tt) is_pin_error
          (fun _ => raise (PinValidationError "Current PIN validation failed"))
    | None => ret tt
    end ;;
    let* record := from_pin new_pin (pin_hash_iterations config) in
    let* payload := _read in
    let* now := time_time in
    _write (with_counters (Some 0) (Some 0) (Some now) (with_pin record payload)) ;;
    _clear_cached_pin.

Definition reset_lockout : M World unit :=
  let* payload := _read in
  _write (with_counters (Some 0) (Some 0) (updated_at payload) payload).

Record Status := {
  st_failed_attempts : Z;
  st_lock_until : Z;
  st_locked : bool;
  st_updated_at : option Z
}.

Definition get_status : M World Status :=
  let* data := _read in
  let* now := time_time in
  ret {| st_failed_attempts := default 0 (failed_attempts data);
         st_lock_until := default 0 (lock_until data);
         st_locked := default 0 (lock_until data) >? now;
         st_updated_at := updated_at data |}.

Definition get_cached_pin (max_age_seconds : Z) : M World (option string) :=
  match win32crypt with
  | None => ret None
  | Some api =>
      try_except
        (let* raw := cache_read_text in
         let* now := time_time in
         if now - ts raw >? max_age_seconds then ret None
         else
           ret (encrypted ← b64decode (blob raw);
                plain ← CryptUnprotectData api encrypted;
                PyStr.decode plain))
        (fun _ => true) (fun _ => ret None)
  end.

(** *** Vocabulary of the properties below *)

(** The base64 codec decodes what it encoded. *)
Definition codec_sound : Prop :=
  forall b, b64decode (b64encode b) = Some b.

(** Idealisation of the key derivation: two passwords with the same
    derived key, for the same salt and iteration count, are equal. *)
Definition kdf_injective : Prop :=
  forall a b salt n,
    pbkdf2_hmac_sha256 a salt n = pbkdf2_hmac_sha256 b salt n -> a = b.

(** The record that [from_pin] builds from a given salt. *)
Definition record_of (pin : string) (salt_bytes : list byte) (iterations : Z)
  : PinStoreRecord :=
  {| hash_value := b64encode (pbkdf2_hmac_sha256 (PyStr.encode pin) salt_bytes iterations);
     salt := b64encode salt_bytes;
     iterations := iterations |}.

(** The document that [_initialize_store] writes in world [w]. *)
Definition fresh_payload (w : World) : Payload :=
  {| pin := {| hash_value :=
                 b64encode (pbkdf2_hmac_sha256 (PyStr.encode "0000")
                              (entropy w (draws w)) (pin_hash_iterations config));
               salt := b64encode (entropy w (draws w));
               iterations := pin_hash_iterations config |};
     failed_attempts := Some 0;
     lock_until := Some 0;
     updated_at := Some (clock w) |}.

(** The document that [verify_pin] writes when it refuses a candidate
    at time [now]. *)
Definition after_mismatch (now : Z) (p : Payload) : Payload :=
  let attempts := default 0 (failed_attempts p) + 1 in
  if attempts >=? pin_attempt_limit config
  then with_counters (Some 0) (Some (now + pin_lockout_seconds config))
         (updated_at p) p
  else with_counters (Some attempts) (lock_until p) (updated_at p) p.

(** A caller that makes the given verification attempts in turn, each at
    its own reading of the clock. *)
Fixpoint verify_each (tries : list (Z * string)) (w : World)
  : list (Result bool) * World :=
  match tries with
  | [] => ([], w)
  | (now, candidate) :: rest =>
      let '(r, w1) := verify_pin candidate (set_clock now w) in
      let '(rs, w2) := verify_each rest w1 in
      (r :: rs, w2)
  end.

(** The [time.time()] reading of the last of the attempts. *)
Definition last_time (tries : list (Z * string)) : Z :=
  List.last (fst <$> tries) 0.

End WithPlatform.

End PinStore.

(** ** Toggle adapter ([lockport/device_locker.py]) *)

Module DeviceLocker.

Record DeviceActionResult := {
  instance_id : string;
  success : bool;
  message : string
}.

Definition missing_keywords : list string :=
  ["devicenotfound"; "not connected"; "device is not connected"].

Definition is_device_missing (r : DeviceActionResult) : bool :=
  let text := PyStr.lower (message r) in
  existsb (fun keyword => PyStr.contains keyword text) missing_keywords.

Inductive Program := PowerShell | PnpUtil.
Inductive Verb := DisableDevice | EnableDevice.

Record CompletedProcess := {
  returncode : Z;
  stdout : string;
  stderr : string
}.

(** What [subprocess.run] does where the output of the process decodes:
    it returns, or raises [OSError] with the given text.  Output that does
    not decode is the matter of [Undecoded] below. *)
Inductive RunOutcome :=
| Completed (c : CompletedProcess)
| RunOSError (text : string).

Record Call := {
  call_program : Program;
  call_verb : Verb;
  call_instance : string
}.

(** The operating system as the locker sees it: the outcome of the n-th
    subprocess is [answers n]; [calls] lists the subprocesses run so far,
    latest first. *)
Record OS := {
  answers : nat -> RunOutcome;
  calls : list Call
}.

Definition subprocess_run (c : Call) : M OS RunOutcome :=
  fun os =>
    (Ok (answers os (length (calls os))),
     {| answers := answers os; calls := c :: calls os |}).

(** [completed.stdout.strip() or completed.stderr.strip()] *)
Definition output_message (c : CompletedProcess) : string :=
  if PyStr.truthy (PyStr.strip (stdout c)) then PyStr.strip (stdout c)
  else PyStr.strip (stderr c).

Definition _run_command (instance_id : string) (verb : Verb)
  : M OS DeviceActionResult :=
  let* outcome := subprocess_run
      {| call_program := PowerShell; call_verb := verb; call_instance := instance_id |} in
  match outcome with
  | RunOSError err =>
      ret {| instance_id := instance_id; success := false; message := err |}
  | Completed completed =>
      ret {| instance_id := instance_id;
             success := (returncode completed =? 0)
                        && PyStr.contains "Success" (stdout completed);
             message := output_message completed |}
  end.

Definition _pnputil_action (instance_id : string) (verb : Verb)
  : M OS DeviceActionResult :=
  let* outcome := subprocess_run
      {| call_program := PnpUtil; call_verb := verb; call_instance := instance_id |} in
  match outcome with
  | RunOSError err =>
      ret {| instance_id := instance_id; success := false; message := err |}
  | Completed completed =>
      ret {| instance_id := instance_id;
             success := (returncode completed =? 0);
             message := output_message completed |}
  end.

Definition toggle (verb : Verb) (instance_id : string) : M OS DeviceActionResult :=
  if negb (PyStr.truthy instance_id)
  then ret {| instance_id := instance_id; success := false;
              message := "Empty instance id" |}
  else
    let* result := _run_command instance_id verb in
    if negb (success result) then _pnputil_action instance_id verb
    else ret result.

Definition disable : string -> M OS DeviceActionResult := toggle DisableDevice.

Definition enable : string -> M OS DeviceActionResult := toggle EnableDevice.

(** *** Vocabulary of the properties below *)

(** The PowerShell script ran and reported success. *)
Definition shell_succeeded (outcome : RunOutcome) : bool :=
  match outcome with
  | Completed completed =>
      (returncode completed =? 0) && PyStr.contains "Success" (stdout completed)
  | RunOSError _ => false
  end.

(** The result that [_pnputil_action] makes of the outcome of pnputil. *)
Definition pnputil_result (instance_id : string) (outcome : RunOutcome)
  : DeviceActionResult :=
  match outcome with
  | Completed completed =>
      {| instance_id := instance_id;
         success := (returncode completed =? 0);
         message := output_message completed |}
  | RunOSError err =>
      {| instance_id := instance_id; success := false; message := err |}
  end.

End DeviceLocker.

(** ** JSON documents

    A decoded JSON value.  An object is the list of its members in the order
    of the text; [json.loads] leaves one member for each key. *)

#[local] Unset Elimination Schemes.
Inductive json :=
| JNull
| JBool (b : bool)
| JNum (z : Z)
| JStr (s : string)
| JArr (items : list json)
| JObj (members : list (string * json)).
#[local] Set Elimination Schemes.

Module Json.

(** Truth value of a decoded JSON value. *)
Definition truthy (v : json) : bool :=
  match v with
  | JNull => false
  | JBool b => b
  | JNum z => negb (z =? 0)
  | JStr s => PyStr.truthy s
  | JArr items => match items with [] => false | _ => true end
  | JObj members => match members with [] => false | _ => true end
  end.

(** [d.get(key, default)] on the members of an object. *)
Fixpoint get (key : string) (members : list (string * json)) (default : json) : json :=
  match members with
  | [] => default
  | (k, v) :: rest => if String.eqb k key then v else get key rest default
  end.

(** [x or d] *)
Definition or_else (x d : json) : json := if truthy x then x else d.

End Json.

(** The conversions [str(v)] and [float(s)] of Python on values that the
    ledger file may hold: [py_repr] renders a value that is not a string,
    [py_float] reads a number from a string ([None] for [ValueError]). *)
Class Conversions := {
  py_repr : json -> string;
  py_float : string -> option Z
}.

(** ** Device state ledger ([lockport/device_state.py]) *)

Module DeviceStateStore.

Record DeviceState := {
  instance_id : string;
  drive : string;
  volume : string;
  status : string;
  updated_at : Z
}.

#[global] Instance DeviceState_eq_dec : EqDecision DeviceState.
Proof. solve_decision. Defined.

(** [DeviceState.to_dict] *)
Definition to_dict (s : DeviceState) : json :=
  JObj [("instance_id", JStr (instance_id s));
        ("drive", JStr (drive s));
        ("volume", JStr (volume s));
        ("status", JStr (status s));
        ("updated_at", JNum (updated_at s))].

(** The backing file: absent; present, but [read_text] raises [OSError]
    or the text is not JSON ([Unreadable]); present, but its bytes are no
    text in the encoding of the locale, so that [read_text] raises
    [UnicodeDecodeError] ([Undecodable]); or holding a document. *)
Inductive FileState :=
| Absent
| Unreadable
| Undecodable
| Document (data : json).

(** A store instance with the file it is bound to.  The cache is a finite
    map: the insertion order of the Python dict is not kept.  [writable]
    tells whether the file can be opened for writing; where it cannot,
    [write_text] raises [OSError] before it has touched the file.  A write
    that fails after the file was opened, and so truncated, is outside the
    model. *)
Record t := {
  _cache : gmap string DeviceState;
  path : FileState;
  writable : bool
}.

Definition set_cache (c : gmap string DeviceState) (s : t) : t :=
  {| _cache := c; path := path s; writable := writable s |}.

Definition set_path (f : FileState) (s : t) : t :=
  {| _cache := _cache s; path := f; writable := writable s |}.

Section WithConversions.
Context {conversions : Conversions}.

(** [str(v)] *)
Definition py_str (v : json) : string :=
  match v with
  | JStr s => s
  | _ => py_repr v
  end.

(** [float(raw) if isinstance(raw, (int, float, str)) else 0.0]; [None]
    stands for [ValueError].  A number is in the range of [float], so
    [float] returns it. *)
Definition parse_updated_at (raw : json) : option Z :=
  match raw with
  | JNum z => Some z
  | JBool b => Some (if b then 1 else 0)
  | JStr s => py_float s
  | _ => Some 0
  end.

(** One turn of the loop of [_load]: [Raise AttributeError] where the
    member's value is not an object, and the entry is skipped where
    [float] raises [ValueError]. *)
Definition load_entry (raw_key : string) (value : json)
  : M (gmap string DeviceState) unit :=
  match value with
  | JObj members =>
      match parse_updated_at (Json.get "updated_at" members (JNum 0)) with
      | Some updated_at =>
          modify (fun cache =>
            <[raw_key :=
                {| instance_id := py_str (Json.get "instance_id" members (JStr raw_key));
                   drive := py_str (Json.or_else (Json.get "drive" members (JStr "")) (JStr ""));
                   volume := py_str (Json.or_else (Json.get "volume" members (JStr "")) (JStr ""));
                   status := py_str (Json.or_else (Json.get "status" members (JStr "unknown"))
                                       (JStr "unknown"));
                   updated_at := updated_at |}]> cache)
      | None => ret tt
      end
  | _ => raise AttributeError
  end.

Fixpoint load_entries (members : list (string * json))
  : M (gmap string DeviceState) unit :=
  match members with
  | [] => ret tt
  | (raw_key, value) :: rest => load_entry raw_key value ;; load_entries rest
  end.

Definition on_cache {A} (m : M (gmap string DeviceState) A) : M t A :=
  fun s => let '(r, c) := m (_cache s) in (r, set_cache c s).

(** Of what reading the file raises, [OSError] and [JSONDecodeError]
    are caught. *)
Definition _load : M t unit :=
  fun s =>
    match path s with
    | Absent => (Ok tt, s)
    | Unreadable => (Ok tt, s)
    | Undecodable => (Raise UnicodeDecodeError, s)
    | Document (JObj members) => on_cache (load_entries members) s
    | Document _ => (Ok tt, s)
    end.

(** [DeviceStateStore.__init__] over a given file. *)
Definition __init__ (file : FileState) (can_write : bool) : Result unit * t :=
  _load {| _cache := ∅; path := file; writable := can_write |}.

Definition reload : M t unit :=
  modify (set_cache ∅) ;; _load.

Definition _persist : M t unit :=
  fun s =>
    let serializable := JObj (map_to_list (to_dict <$> _cache s)) in
    if writable s then (Ok tt, set_path (Document serializable) s)
    else (Raise OSError, s).

Definition upsert (now : Z) (instance_id : string) (drive volume : option string)
    (status : string) : M t unit :=
  modify (fun s =>
    set_cache (<[instance_id :=
                   {| instance_id := instance_id;
                      drive := PyStr.or_else drive "";
                      volume := PyStr.or_else volume "";
                      status := status;
                      updated_at := now |}]> (_cache s)) s) ;;
  _persist.

Definition list_states (s : t) : list DeviceState :=
  snd <$> map_to_list (_cache s).

Definition as_dict (s : t) : gmap string DeviceState := _cache s.

Definition get (instance_id : string) (s : t) : option DeviceState :=
  _cache s !! instance_id.

(** *** Vocabulary of the properties below *)

(** The record that [upsert] stores. *)
Definition upserted (now : Z) (instance_id : string) (drive volume : option string)
    (status : string) : DeviceState :=
  {| instance_id := instance_id;
     drive := PyStr.or_else drive "";
     volume := PyStr.or_else volume "";
     status := status;
     updated_at := now |}.

(** A record as [_load] rebuilds it from its own [to_dict]: an empty
    status comes back as "unknown". *)
Definition reloaded (s : DeviceState) : DeviceState :=
  {| instance_id := instance_id s;
     drive := drive s;
     volume := volume s;
     status := if PyStr.truthy (status s) then status s else "unknown";
     updated_at := updated_at s |}.

End WithConversions.

End DeviceStateStore.

(** Run a computation of a component on the component held in a field. *)
Definition zoom {S T A} (proj : T -> S) (inj : S -> T -> T) (m : M S A) : M T A :=
  fun t => let '(r, s) := m (proj t) in (r, inj s t).

(** [try: m finally: fin] *)
Definition try_finally {S A} (m : M S A) (fin : M S unit) : M S A :=
  fun s =>
    let '(r, s') := m s in
    match fin s' with
    | (Ok _, s'') => (r, s'')
    | (Raise e, s'') => (Raise e, s'')
    end.

Definition is_oserror (e : Exn) : bool :=
  match e with OSError => true | _ => false end.

(** ** Events of the monitor ([lockport/usb_monitor.py]) *)

Module UsbMonitor.

Record USBEvent := {
  instance_id : string;
  drive_letter : option string;
  volume_name : option string;
  event_type : string;
  synthetic : bool
}.

End UsbMonitor.

(** ** Service orchestrator ([lockport/service.py]) *)

Module Service.
Import UsbMonitor.

Inductive LogRecord :=
| WarnSkippingNoInstanceId (event : USBEvent)
| InfoSkippingRelock (id : string) (elapsed : Z)
| InfoSyntheticPreserved (id : string)
| InfoAlreadyProcessing (id : string)
| InfoLocking (id : string)
| ErrorFailedToDisable (id message : string)
| InfoRemoved (id : string)
| WarnFailedToDisableRemoved (id message : string)
| ErrorFailedToPersist
| WarnQueueFull (event : USBEvent).

(** The fields of a [LockPortService] that event processing uses, with the
    operating system behind [device_locker] and the clock; [logger] lists
    the records written so far, latest first. *)
Record t := {
  device_locker : DeviceLocker.OS;
  _active_devices : gset string;
  _device_state_store : DeviceStateStore.t;
  clock : Z;
  logger : list LogRecord
}.

Definition set_device_locker (os : DeviceLocker.OS) (s : t) : t :=
  {| device_locker := os; _active_devices := _active_devices s;
     _device_state_store := _device_state_store s; clock := clock s;
     logger := logger s |}.

Definition set_active_devices (a : gset string) (s : t) : t :=
  {| device_locker := device_locker s; _active_devices := a;
     _device_state_store := _device_state_store s; clock := clock s;
     logger := logger s |}.

Definition set_device_state_store (d : DeviceStateStore.t) (s : t) : t :=
  {| device_locker := device_locker s; _active_devices := _active_devices s;
     _device_state_store := d; clock := clock s; logger := logger s |}.

Definition set_clock (now : Z) (s : t) : t :=
  {| device_locker := device_locker s; _active_devices := _active_devices s;
     _device_state_store := _device_state_store s; clock := now;
     logger := logger s |}.

Definition log (r : LogRecord) : M t unit :=
  modify (fun s =>
    {| device_locker := device_locker s; _active_devices := _active_devices s;
       _device_state_store := _device_state_store s; clock := clock s;
       logger := r :: logger s |}).

Definition time_time : M t Z := gets clock.

Definition on_locker {A} : M DeviceLocker.OS A -> M t A :=
  zoom device_locker set_device_locker.

Definition on_store {A} : M DeviceStateStore.t A -> M t A :=
  zoom _device_state_store set_device_state_store.

Definition RECENT_UNLOCK_SECONDS : Z := 10.

Definition _record_device_state (instance_id : string) (drive volume : option string)
    (status : string) : M t unit :=
  try_except
    (let* now := time_time in
     on_store (DeviceStateStore.upsert now instance_id drive volume status))
    is_oserror
    (fun _ => log ErrorFailedToPersist).

Definition _process_usb_event (event : USBEvent) : M t unit :=
  log (InfoLocking (instance_id event)) ;;
  let* lock_result := on_locker (DeviceLocker.disable (instance_id event)) in
  _record_device_state (instance_id event) (drive_letter event) (volume_name event)
    "locked" ;;
  if negb (DeviceLocker.success lock_result)
  then log (ErrorFailedToDisable (instance_id event) (DeviceLocker.message lock_result))
  else ret tt.

(** [with self._active_lock: self._active_devices.discard(id)], the first
    statement of [_handle_usb_removal] and the [finally] clause of
    [_process_event]. *)
Definition discard_active (event : USBEvent) : M t unit :=
  modify (fun s => set_active_devices (_active_devices s ∖ {[instance_id event]}) s).

(** [_handle_usb_removal] after its first statement. *)
Definition lock_removed_port (event : USBEvent) : M t unit :=
  log (InfoRemoved (instance_id event)) ;;
  let* result := on_locker (DeviceLocker.disable (instance_id event)) in
  (if negb (DeviceLocker.success result)
   then log (WarnFailedToDisableRemoved (instance_id event) (DeviceLocker.message result))
   else ret tt) ;;
  _record_device_state (instance_id event) (drive_letter event) (volume_name event)
    "removed".

Definition _handle_usb_removal (event : USBEvent) : M t unit :=
  discard_active event ;; lock_removed_port event.

(** The segments of [_process_event] for an event that is not a removal.
    [recently_unlocked] is the look-up of the recorded state with its two
    early returns; it answers whether the method returned. *)
Definition recently_unlocked (event : USBEvent) : M t bool :=
  let* state := gets (fun s => DeviceStateStore.get (instance_id event)
                                 (_device_state_store s)) in
  match state with
  | Some state =>
      if String.eqb (DeviceStateStore.status state) "unlocked" then
        let* now := time_time in
        let elapsed := now - DeviceStateStore.updated_at state in
        if elapsed <? RECENT_UNLOCK_SECONDS
        then log (InfoSkippingRelock (instance_id event) elapsed) ;; ret true
        else if synthetic event
        then log (InfoSyntheticPreserved (instance_id event)) ;; ret true
        else ret false
      else ret false
  | None => ret false
  end.

(** [with self._active_lock: ...]: the test and the insertion are one
    step.  Answers whether the id was inserted. *)
Definition enter_active (event : USBEvent) : M t bool :=
  let* active := gets _active_devices in
  if bool_decide (instance_id event ∈ active)
  then log (InfoAlreadyProcessing (instance_id event)) ;; ret false
  else modify (fun s => set_active_devices (_active_devices s ∪ {[instance_id event]}) s) ;;
       ret true.

Definition _process_event (event : USBEvent) : M t unit :=
  if negb (PyStr.truthy (instance_id event))
  then log (WarnSkippingNoInstanceId event)
  else if String.eqb (event_type event) "removal"
  then _handle_usb_removal event
  else
    let* returned := recently_unlocked event in
    if returned then ret tt
    else
      let* inserted := enter_active event in
      if inserted
      then try_finally (_process_usb_event event) (discard_active event)
      else ret tt.

(** *** Vocabulary of the properties below *)

(** One handling of an event left the toggle adapter, the ledger, the
    active set and the clock as they were. *)
Definition same_devices (s s' : t) : Prop :=
  device_locker s' = device_locker s
  /\ _device_state_store s' = _device_state_store s
  /\ _active_devices s' = _active_devices s
  /\ clock s' = clock s.

(** The answer of [recently_unlocked] in state [s]. *)
Definition returns_early (event : USBEvent) (s : t) : bool :=
  match DeviceStateStore.get (instance_id event) (_device_state_store s) with
  | Some state =>
      String.eqb (DeviceStateStore.status state) "unlocked"
      && ((clock s - DeviceStateStore.updated_at state <? RECENT_UNLOCK_SECONDS)
          || synthetic event)
  | None => false
  end.

(** Events handled one after the other by one worker. *)
Fixpoint process_all (events : list (Z * USBEvent)) : M t unit :=
  match events with
  | [] => ret tt
  | (now, event) :: rest =>
      modify (set_clock now) ;; _process_event event ;; process_all rest
  end.

(** The log has no record of an event dropped because its device was
    being processed already. *)
Definition never_busy (s : t) : Prop :=
  forall id, ~ In (InfoAlreadyProcessing id) (logger s).

End Service.

(** ** The worker pool of the service

    The threads of [LockPortService] as an interleaving of their atomic
    segments.  A worker blocked in [_event_queue.get] is [Idle]; between the
    look-up of the recorded state and the critical section on
    [_active_devices] it is [Checked]; from the insertion of the id until
    [_process_usb_event] returns it is [Toggling]; before the [finally]
    clause has run it is [Finishing]; a worker inside [_handle_usb_removal]
    after the discard is [RemovalToggling]; a worker that took the
    [__stop__] sentinel is [Stopped]. *)

Module Workers.
Import UsbMonitor.

Inductive Worker :=
| Idle
| Checked (event : USBEvent)
| Toggling (event : USBEvent)
| Finishing (event : USBEvent)
| RemovalToggling (event : USBEvent)
| Stopped.

Record Pool := {
  service : Service.t;
  _event_queue : list USBEvent;
  _workers : list Worker
}.

Definition set_service (s : Service.t) (p : Pool) : Pool :=
  {| service := s; _event_queue := _event_queue p; _workers := _workers p |}.

Definition set_event_queue (q : list USBEvent) (p : Pool) : Pool :=
  {| service := service p; _event_queue := q; _workers := _workers p |}.

Definition set_worker (k : nat) (w : Worker) (p : Pool) : Pool :=
  {| service := service p; _event_queue := _event_queue p;
     _workers := <[k := w]> (_workers p) |}.

(** Run a segment on the shared service object. *)
Definition exec {A} (m : M Service.t A) (p : Pool) : Result A * Pool :=
  let '(r, s) := m (service p) in (r, set_service s p).

Definition maxsize : nat := 64.

(** [LockPortService._handle_usb_event], the callback of the monitor
    thread: [put_nowait], and a warning where the queue is full. *)
Definition _handle_usb_event (event : USBEvent) (p : Pool) : Pool :=
  if bool_decide (length (_event_queue p) < maxsize)%nat
  then set_event_queue (_event_queue p ++ [event]) p
  else snd (exec (Service.log (Service.WarnQueueFull event)) p).

(** The next segment of worker [k]; [None] where the worker does not
    exist, has stopped, or waits on an empty queue. *)
Definition advance (k : nat) (p : Pool) : option Pool :=
  match _workers p !! k with
  | None => None
  | Some Stopped => None
  | Some Idle =>
      match _event_queue p with
      | [] => None
      | event :: rest =>
          let p := set_event_queue rest p in
          if String.eqb (event_type event) "__stop__"
          then Some (set_worker k Stopped p)
          else if negb (PyStr.truthy (instance_id event))
          then Some (snd (exec (Service.log (Service.WarnSkippingNoInstanceId event)) p))
          else if String.eqb (event_type event) "removal"
          then Some (set_worker k (RemovalToggling event)
                       (snd (exec (Service.discard_active event) p)))
          else
            match exec (Service.recently_unlocked event) p with
            | (Ok false, p') => Some (set_worker k (Checked event) p')
            | (_, p') => Some p'
            end
      end
  | Some (Checked event) =>
      match exec (Service.enter_active event) p with
      | (Ok true, p') => Some (set_worker k (Toggling event) p')
      | (_, p') => Some (set_worker k Idle p')
      end
  | Some (Toggling event) =>
      Some (set_worker k (Finishing event)
              (snd (exec (Service._process_usb_event event) p)))
  | Some (Finishing event) =>
      Some (set_worker k Idle (snd (exec (Service.discard_active event) p)))
  | Some (RemovalToggling event) =>
      Some (set_worker k Idle (snd (exec (Service.lock_removed_port event) p)))
  end.

(** What can happen next: the monitor delivers an event, the clock moves,
    or a worker runs its next segment. *)
Inductive Label :=
| Notify (event : USBEvent)
| Tick (now : Z)
| Advance (k : nat).

Definition step (l : Label) (p : Pool) : option Pool :=
  match l with
  | Notify event => Some (_handle_usb_event event p)
  | Tick now => Some (set_service (Service.set_clock now (service p)) p)
  | Advance k => advance k p
  end.

Fixpoint run (trace : list Label) (p : Pool) : option Pool :=
  match trace with
  | [] => Some p
  | l :: rest =>
      match step l p with
      | Some p' => run rest p'
      | None => None
      end
  end.

(** A service that has just started its workers. *)
Definition started (s : Service.t) (worker_count : nat) : Pool :=
  {| service := Service.set_active_devices ∅ s;
     _event_queue := [];
     _workers := replicate worker_count Idle |}.

(** *** Vocabulary of the properties below *)

(** The event whose [_process_usb_event] call, or the [finally] clause
    after it, worker [w] is in. *)
Definition holds (w : Worker) : option USBEvent :=
  match w with
  | Toggling event | Finishing event => Some event
  | _ => None
  end.

(** Worker [w] is in such a call for device [id]. *)
Definition holder (id : string) (w : Worker) : bool :=
  match holds w with
  | Some event => String.eqb (instance_id event) id
  | None => false
  end.

(** Device [id] is in the active set exactly while one worker is in a
    [_process_usb_event] call for it, and no two workers are. *)
Definition exclusive (id : string) (workers : list Worker) (active : gset string)
  : Prop :=
  (forall k1 k2 w1 w2,
      workers !! k1 = Some w1 -> workers !! k2 = Some w2 ->
      holder id w1 = true -> holder id w2 = true -> k1 = k2)
  /\ (id ∈ active <-> exists k w, workers !! k = Some w /\ holder id w = true).

Definition is_removal_of (id : string) (event : USBEvent) : bool :=
  String.eqb (event_type event) "removal" && String.eqb (instance_id event) id.

(** The invariant of the pool for device [id]: exclusion holds and no
    removal of the device waits in the queue. *)
Definition guarded (id : string) (p : Pool) : Prop :=
  exclusive id (_workers p) (Service._active_devices (service p))
  /\ Forall (fun event => is_removal_of id event = false) (_event_queue p).

(** The monitor delivers no removal of device [id] in this trace. *)
Definition no_removal_of (id : string) (trace : list Label) : Prop :=
  Forall (fun l => match l with
                   | Notify event => is_removal_of id event = false
                   | _ => True
                   end) trace.

(** With step [l] a worker takes up a removal of device [id] while the id
    is in the active set: the worker is idle and the removal is at the head
    of the queue. *)
Definition overtakes (id : string) (l : Label) (p : Pool) : bool :=
  match l with
  | Advance k =>
      match _workers p !! k, _event_queue p with
      | Some Idle, event :: _ =>
          is_removal_of id event && PyStr.truthy id
          && bool_decide (id ∈ Service._active_devices (service p))
      | _, _ => false
      end
  | _ => false
  end.

(** No step of the run [trace] from pool [p] does so. *)
Fixpoint never_overtaken (id : string) (trace : list Label) (p : Pool) : Prop :=
  match trace with
  | [] => True
  | l :: rest =>
      overtakes id l p = false
      /\ match step l p with
         | Some p' => never_overtaken id rest p'
         | None => True
         end
  end.

(** Every id of the active set is accounted for by a worker that is in a
    [_process_usb_event] call for it, or in the [finally] clause after. *)
Definition accounted (p : Pool) : Prop :=
  forall id,
    id ∈ Service._active_devices (service p) ->
    exists k w, _workers p !! k = Some w /\ holder id w = true.

End Workers.

(** ** Event handling over subprocess output that may not decode

    [subprocess.run(..., text=True)] decodes what the process wrote in the
    encoding of the locale and raises [UnicodeDecodeError], which is no
    [OSError], where the bytes are no text in it.  (Where the pipes are read
    by threads, as on Windows, the decoding fails in the thread and the
    output is left [None]; the first use of it in [_run_command] or
    [_pnputil_action] then raises [TypeError] or [AttributeError], again no
    [OSError] and at the same place for the callers.  The embedding has the
    one exception for these.)  [DeviceLocker] and [Service] above take every
    output to decode.  Here the operating system also decides, for each
    subprocess that completes, whether its output decodes; the methods
    through which the exception travels are stated again over this
    environment, the others are those of [Service]. *)

Module Undecoded.
Import UsbMonitor.

(** A service, and which subprocesses write what does not decode: the
    n-th one does where [garbled n]. *)
Record t := {
  service : Service.t;
  garbled : nat -> bool
}.

Definition set_service (s : Service.t) (h : t) : t :=
  {| service := s; garbled := garbled h |}.

Definition on_service {A} : M Service.t A -> M t A := zoom service set_service.

(** [subprocess.run(..., capture_output=True, text=True, check=False)] *)
Definition subprocess_run (c : DeviceLocker.Call) : M t DeviceLocker.RunOutcome :=
  let* undecodable :=
    gets (fun h =>
            garbled h (length (DeviceLocker.calls (Service.device_locker (service h))))) in
  let* outcome := on_service (Service.on_locker (DeviceLocker.subprocess_run c)) in
  match outcome with
  | DeviceLocker.Completed _ =>
      if undecodable then raise UnicodeDecodeError else ret outcome
  | DeviceLocker.RunOSError _ => ret outcome
  end.

(** [DeviceLocker._run_command]: of what [subprocess.run] raises, [OSError]
    is caught. *)
Definition _run_command (instance_id : string) (verb : DeviceLocker.Verb)
  : M t DeviceLocker.DeviceActionResult :=
  let* outcome := subprocess_run
      {| DeviceLocker.call_program := DeviceLocker.PowerShell;
         DeviceLocker.call_verb := verb;
         DeviceLocker.call_instance := instance_id |} in
  match outcome with
  | DeviceLocker.RunOSError err =>
      ret {| DeviceLocker.instance_id := instance_id;
             DeviceLocker.success := false;
             DeviceLocker.message := err |}
  | DeviceLocker.Completed completed =>
      ret {| DeviceLocker.instance_id := instance_id;
             DeviceLocker.success :=
               (DeviceLocker.returncode completed =? 0)
               && PyStr.contains "Success" (DeviceLocker.stdout completed);
             DeviceLocker.message := DeviceLocker.output_message completed |}
  end.

(** [DeviceLocker._pnputil_action] *)
Definition _pnputil_action (instance_id : string) (verb : DeviceLocker.Verb)
  : M t DeviceLocker.DeviceActionResult :=
  let* outcome := subprocess_run
      {| DeviceLocker.call_program := DeviceLocker.PnpUtil;
         DeviceLocker.call_verb := verb;
         DeviceLocker.call_instance := instance_id |} in
  match outcome with
  | DeviceLocker.RunOSError err =>
      ret {| DeviceLocker.instance_id := instance_id;
             DeviceLocker.success := false;
             DeviceLocker.message := err |}
  | DeviceLocker.Completed completed =>
      ret {| DeviceLocker.instance_id := instance_id;
             DeviceLocker.success := (DeviceLocker.returncode completed =? 0);
             DeviceLocker.message := DeviceLocker.output_message completed |}
  end.

(** [DeviceLocker.disable] *)
Definition disable (instance_id : string) : M t DeviceLocker.DeviceActionResult :=
  if negb (PyStr.truthy instance_id)
  then ret {| DeviceLocker.instance_id := instance_id;
              DeviceLocker.success := false;
              DeviceLocker.message := "Empty instance id" |}
  else
    let* result := _run_command instance_id DeviceLocker.DisableDevice in
    if negb (DeviceLocker.success result)
    then _pnputil_action instance_id DeviceLocker.DisableDevice
    else ret result.

(** [LockPortService._process_usb_event] *)
Definition _process_usb_event (event : USBEvent) : M t unit :=
  on_service (Service.log (Service.InfoLocking (instance_id event))) ;;
  let* lock_result := disable (instance_id event) in
  on_service
    (Service._record_device_state (instance_id event) (drive_letter event)
       (volume_name event) "locked") ;;
  if negb (DeviceLocker.success lock_result)
  then on_service
         (Service.log (Service.ErrorFailedToDisable (instance_id event)
                         (DeviceLocker.message lock_result)))
  else ret tt.

(** [LockPortService._handle_usb_removal] *)
Definition _handle_usb_removal (event : USBEvent) : M t unit :=
  on_service (Service.discard_active event) ;;
  on_service (Service.log (Service.InfoRemoved (instance_id event))) ;;
  let* result := disable (instance_id event) in
  (if negb (DeviceLocker.success result)
   then on_service
          (Service.log (Service.WarnFailedToDisableRemoved (instance_id event)
                          (DeviceLocker.message result)))
   else ret tt) ;;
  on_service
    (Service._record_device_state (instance_id event) (drive_letter event)
       (volume_name event) "removed").

(** [LockPortService._process_event] *)
Definition _process_event (event : USBEvent) : M t unit :=
  if negb (PyStr.truthy (instance_id event))
  then on_service (Service.log (Service.WarnSkippingNoInstanceId event))
  else if String.eqb (event_type event) "removal"
  then _handle_usb_removal event
  else
    let* returned := on_service (Service.recently_unlocked event) in
    if returned then ret tt
    else
      let* inserted := on_service (Service.enter_active event) in
      if inserted
      then try_finally (_process_usb_event event)
             (on_service (Service.discard_active event))
      else ret tt.

(** [LockPortService._worker_loop] of a worker that is handed the events
    of [queue] in turn, each at its own reading of the clock.  An exception
    out of [_process_event] passes the [finally] clause and leaves the
    loop: the thread ends, and the events still waiting are not handled by
    it. *)
Fixpoint _worker_loop (queue : list (Z * USBEvent)) : M t unit :=
  match queue with
  | [] => ret tt
  | (now, event) :: rest =>
      on_service (modify (Service.set_clock now)) ;;
      if String.eqb (event_type event) "__stop__" then ret tt
      else _process_event event ;; _worker_loop rest
  end.

(** *** Vocabulary of the properties below *)

(** The output of every subprocess decodes. *)
Definition decodable (h : t) : Prop := forall n, garbled h n = false.

(** A computation that leaves the active set as it was and adds to the
    log no record of an event dropped because its device was being
    processed, whether it returns or raises. *)
Definition quiet {A} (m : M t A) : Prop :=
  forall h,
    Service._active_devices (service (snd (m h))) = Service._active_devices (service h)
    /\ (Service.never_busy (service h) -> Service.never_busy (service (snd (m h)))).

(** The number of the subprocess that is run next. *)
Definition next_call (h : t) : nat :=
  length (DeviceLocker.calls (Service.device_locker (service h))).

(** The operating system after the PowerShell call of [disable]. *)
Definition called (id : string) (os : DeviceLocker.OS) : DeviceLocker.OS :=
  {| DeviceLocker.answers := DeviceLocker.answers os;
     DeviceLocker.calls :=
       {| DeviceLocker.call_program := DeviceLocker.PowerShell;
          DeviceLocker.call_verb := DeviceLocker.DisableDevice;
          DeviceLocker.call_instance := id |} :: DeviceLocker.calls os |}.

End Undecoded.

(** ** Device window ([lockport/device_window.py])

    The handlers that [launch_device_window] binds to the monitor queue and
    to the two buttons, over the variables of its closure. *)

Module DeviceWindow.
Import UsbMonitor.

(** Texts put in [status_var] and in the event log. *)
Inductive Message :=
| SelectDeviceRowFirst
| MetadataUnavailable
| IgnoringDeviceWithoutId
| AlreadyUnlocked (name : string) (elapsed : Z)
| IgnoredArrival (name : string) (elapsed : Z)
| ExistingDeviceDetected (name status : string)
| SyncedExistingDevice (name status : string)
| DetectedLocking (name : string)
| ArrivalDetected (name : string)
| FailedToLockArrival (name message : string)
| LockedEnterPin (name : string)
| AwaitingPinEntry (name : string)
| RemovedPortRelocked (name : string)
| RemovalDetected (name : string)
| DeviceLocked (id : string)
| ManuallyLocked (id : string)
| FailedToLock (message : string)
| FailedToLockDevice (id message : string)
| EnterAdminPin
| PinLocked (text : string)
| InvalidPin
| DeviceUnlocked (id : string)
| ManuallyUnlocked (id : string)
| DisconnectedBeforeUnlock
| DisconnectedBeforeUnlockCompleted
| FailedToUnlock (message : string)
| FailedToUnlockDevice (id message : string).

Record t := {
  pin_manager : PinStore.World;
  store : DeviceStateStore.t;
  locker : DeviceLocker.OS;
  latest_states : gmap string DeviceStateStore.DeviceState;
  processing_devices : gset string;
  tree_focus : string;
  pin_var : string;
  status_var : Message;
  log_text : list Message
}.

Definition set_pin_manager (v : PinStore.World) (u : t) : t :=
  {| pin_manager := v; store := store u; locker := locker u;
     latest_states := latest_states u; processing_devices := processing_devices u;
     tree_focus := tree_focus u; pin_var := pin_var u; status_var := status_var u;
     log_text := log_text u |}.

Definition set_store (v : DeviceStateStore.t) (u : t) : t :=
  {| pin_manager := pin_manager u; store := v; locker := locker u;
     latest_states := latest_states u; processing_devices := processing_devices u;
     tree_focus := tree_focus u; pin_var := pin_var u; status_var := status_var u;
     log_text := log_text u |}.

Definition set_locker (v : DeviceLocker.OS) (u : t) : t :=
  {| pin_manager := pin_manager u; store := store u; locker := v;
     latest_states := latest_states u; processing_devices := processing_devices u;
     tree_focus := tree_focus u; pin_var := pin_var u; status_var := status_var u;
     log_text := log_text u |}.

Definition set_view (states : gmap string DeviceStateStore.DeviceState)
    (focus : string) (u : t) : t :=
  {| pin_manager := pin_manager u; store := store u; locker := locker u;
     latest_states := states; processing_devices := processing_devices u;
     tree_focus := focus; pin_var := pin_var u; status_var := status_var u;
     log_text := log_text u |}.

Definition set_processing_devices (v : gset string) (u : t) : t :=
  {| pin_manager := pin_manager u; store := store u; locker := locker u;
     latest_states := latest_states u; processing_devices := v;
     tree_focus := tree_focus u; pin_var := pin_var u; status_var := status_var u;
     log_text := log_text u |}.

Definition set_pin_var (v : string) (u : t) : t :=
  {| pin_manager := pin_manager u; store := store u; locker := locker u;
     latest_states := latest_states u; processing_devices := processing_devices u;
     tree_focus := tree_focus u; pin_var := v; status_var := status_var u;
     log_text := log_text u |}.

Definition set_status_var (v : Message) (u : t) : t :=
  {| pin_manager := pin_manager u; store := store u; locker := locker u;
     latest_states := latest_states u; processing_devices := processing_devices u;
     tree_focus := tree_focus u; pin_var := pin_var u; status_var := v;
     log_text := log_text u |}.

Definition append_log (m : Message) : M t unit :=
  modify (fun u =>
    {| pin_manager := pin_manager u; store := store u; locker := locker u;
       latest_states := latest_states u; processing_devices := processing_devices u;
       tree_focus := tree_focus u; pin_var := pin_var u; status_var := status_var u;
       log_text := m :: log_text u |}).

Definition status_set (m : Message) : M t unit := modify (set_status_var m).

Definition on_pins {A} : M PinStore.World A -> M t A :=
  zoom pin_manager set_pin_manager.

Definition on_store {A} : M DeviceStateStore.t A -> M t A :=
  zoom store set_store.

Definition on_locker {A} : M DeviceLocker.OS A -> M t A :=
  zoom locker set_locker.

Definition time_time : M t Z := gets (fun u => PinStore.clock (pin_manager u)).

Definition RECENT_UNLOCK_SECONDS : Z := 10.

Definition device_label (event : USBEvent) : string :=
  (PyStr.or_else (volume_name event) "Unnamed USB" ++ " ("
     ++ PyStr.or_else (drive_letter event) "Unknown port" ++ ")")%string.

(** Latest update first. *)
Definition newer_first (a b : DeviceStateStore.DeviceState) : Prop :=
  DeviceStateStore.updated_at b <= DeviceStateStore.updated_at a.

#[global] Instance newer_first_dec a b : Decision (newer_first a b).
Proof. unfold newer_first. apply _. Defined.

(** [refresh], as far as the closure variables go: [latest_states] is
    rebuilt from the store and the focus is kept where its row still
    exists. *)
Definition refresh : M t unit :=
  modify (fun u =>
    let states := merge_sort newer_first (DeviceStateStore.list_states (store u)) in
    let latest :=
      foldl (fun m state => <[DeviceStateStore.instance_id state := state]> m) ∅ states in
    let selected := tree_focus u in
    set_view latest
      (if PyStr.truthy selected && bool_decide (is_Some (latest !! selected))
       then selected else "") u).

Definition refresh_now : M t unit := refresh.

Definition _require_selection : M t (option DeviceStateStore.DeviceState) :=
  let* instance_id := gets tree_focus in
  if negb (PyStr.truthy instance_id)
  then status_set SelectDeviceRowFirst ;; ret None
  else
    let* state := gets (fun u => latest_states u !! instance_id) in
    match state with
    | None => status_set MetadataUnavailable ;; ret None
    | Some state => ret (Some state)
    end.

Definition _update_state (instance_id status : string) : M t unit :=
  let* state := gets (fun u => latest_states u !! instance_id) in
  let* now := time_time in
  on_store (DeviceStateStore.upsert now instance_id
              (DeviceStateStore.drive <$> state)
              (DeviceStateStore.volume <$> state) status) ;;
  refresh_now.

Definition discard_processing (id : string) : M t unit :=
  modify (fun u => set_processing_devices (processing_devices u ∖ {[id]}) u).

Definition _handle_arrival (event : USBEvent) : M t unit :=
  let* processing := gets processing_devices in
  if bool_decide (instance_id event ∈ processing) then ret tt
  else
    modify (fun u => set_processing_devices (processing_devices u ∪ {[instance_id event]}) u) ;;
    let display_name := device_label event in
    let* existing_state := gets (fun u => DeviceStateStore.get (instance_id event) (store u)) in
    let* returned :=
      match existing_state with
      | Some existing =>
          if String.eqb (DeviceStateStore.status existing) "unlocked" then
            let* now := time_time in
            let elapsed := now - DeviceStateStore.updated_at existing in
            if elapsed <? RECENT_UNLOCK_SECONDS then
              status_set (AlreadyUnlocked display_name elapsed) ;;
              append_log (IgnoredArrival display_name elapsed) ;;
              refresh_now ;;
              discard_processing (instance_id event) ;;
              ret true
            else ret false
          else ret false
      | None => ret false
      end in
    if returned then ret tt
    else if synthetic event then
      let current_status :=
        match existing_state with
        | Some existing => DeviceStateStore.status existing
        | None => "unknown"
        end in
      status_set (ExistingDeviceDetected display_name current_status) ;;
      append_log (SyncedExistingDevice display_name current_status) ;;
      refresh_now ;;
      discard_processing (instance_id event)
    else
      status_set (DetectedLocking display_name) ;;
      append_log (ArrivalDetected display_name) ;;
      let* lock_result := on_locker (DeviceLocker.disable (instance_id event)) in
      let* now := time_time in
      on_store (DeviceStateStore.upsert now (instance_id event) (drive_letter event)
                  (volume_name event) "locked") ;;
      refresh_now ;;
      if negb (DeviceLocker.success lock_result) then
        status_set (FailedToLockArrival display_name (DeviceLocker.message lock_result)) ;;
        append_log (FailedToLockArrival display_name (DeviceLocker.message lock_result)) ;;
        discard_processing (instance_id event)
      else
        status_set (LockedEnterPin display_name) ;;
        append_log (AwaitingPinEntry display_name) ;;
        discard_processing (instance_id event).

Definition _handle_removal (event : USBEvent) : M t unit :=
  discard_processing (instance_id event) ;;
  on_locker (DeviceLocker.disable (instance_id event)) ;;
  let* now := time_time in
  on_store (DeviceStateStore.upsert now (instance_id event) (drive_letter event)
              (volume_name event) "removed") ;;
  refresh_now ;;
  status_set (RemovedPortRelocked (device_label event)) ;;
  append_log (RemovalDetected (device_label event)).

Definition _handle_usb_event (event : USBEvent) : M t unit :=
  if negb (PyStr.truthy (instance_id event))
  then status_set IgnoringDeviceWithoutId
  else if String.eqb (event_type event) "arrival"
  then _handle_arrival event
  else _handle_removal event.

(** [s[:18]] *)
Definition short_id (s : string) : string := String.substring 0 18 s.

(** One handling left the toggle adapter, the ledger and the credential
    store as they were. *)
Definition same_devices (u u' : t) : Prop :=
  locker u' = locker u /\ store u' = store u /\ pin_manager u' = pin_manager u.

(** Whether [_handle_arrival] takes the event for an echo of an unlock. *)
Definition echo_of_unlock (event : USBEvent) (u : t) : bool :=
  match DeviceStateStore.get (instance_id event) (store u) with
  | Some existing =>
      String.eqb (DeviceStateStore.status existing) "unlocked"
      && (PinStore.clock (pin_manager u) - DeviceStateStore.updated_at existing
          <? RECENT_UNLOCK_SECONDS)
  | None => false
  end.

(** The status that [_handle_arrival] reports for a device found at start. *)
Definition current_status (event : USBEvent) (u : t) : string :=
  match DeviceStateStore.get (instance_id event) (store u) with
  | Some existing => DeviceStateStore.status existing
  | None => "unknown"
  end.

(** The record that [_update_state] stores. *)
Definition updated (instance_id status : string) (u : t) : DeviceStateStore.DeviceState :=
  DeviceStateStore.upserted (PinStore.clock (pin_manager u)) instance_id
    (DeviceStateStore.drive <$> latest_states u !! instance_id)
    (DeviceStateStore.volume <$> latest_states u !! instance_id) status.

Definition handle_lock : M t unit :=
  let* state := _require_selection in
  match state with
  | None => ret tt
  | Some state =>
      let id := DeviceStateStore.instance_id state in
      let* result := on_locker (DeviceLocker.disable id) in
      if DeviceLocker.success result then
        _update_state id "locked" ;;
        status_set (DeviceLocked (short_id id)) ;;
        append_log (ManuallyLocked (short_id id))
      else
        status_set (FailedToLock (DeviceLocker.message result)) ;;
        append_log (FailedToLockDevice (short_id id) (DeviceLocker.message result))
  end.

Section WithPlatform.
Context {platform : Platform}.
Variable config : LockPortConfig.

(** The [try] statement around [pin_manager.verify_pin]; answers whether
    the PIN was accepted. *)
Definition check_pin (pin : string) : M t bool :=
  try_except
    (on_pins (PinStore.verify_pin config pin) ;; ret true)
    PinStore.is_pin_error
    (fun e =>
       match e with
       | PinLockedError text => status_set (PinLocked text)
       | _ => status_set InvalidPin
       end ;;
       ret false).

(** The PIN that [handle_unlock] goes on with: the text of the entry
    field, stripped, or the cached PIN where the field is empty. *)
Definition entered_pin : M t string :=
  let* typed := gets (fun u => PyStr.strip (pin_var u)) in
  if negb (PyStr.truthy typed) then
    let* cached_pin := on_pins (PinStore.get_cached_pin 120) in
    match cached_pin with
    | Some cached =>
        if PyStr.truthy cached
        then modify (set_pin_var cached) ;; ret cached
        else ret typed
    | None => ret typed
    end
  else ret typed.

(** [handle_unlock] after the PIN was accepted. *)
Definition unlock_selected (state : DeviceStateStore.DeviceState) : M t unit :=
  let id := DeviceStateStore.instance_id state in
  let* result := on_locker (DeviceLocker.enable id) in
  if DeviceLocker.success result then
    _update_state id "unlocked" ;;
    modify (set_pin_var "") ;;
    status_set (DeviceUnlocked (short_id id)) ;;
    append_log (ManuallyUnlocked (short_id id))
  else if DeviceLocker.is_device_missing result then
    _update_state id "removed" ;;
    status_set DisconnectedBeforeUnlock ;;
    append_log DisconnectedBeforeUnlockCompleted
  else
    status_set (FailedToUnlock (DeviceLocker.message result)) ;;
    append_log (FailedToUnlockDevice (short_id id) (DeviceLocker.message result)).

Definition handle_unlock : M t unit :=
  let* state := _require_selection in
  match state with
  | None => ret tt
  | Some state =>
      let* pin := entered_pin in
      if negb (PyStr.truthy pin) then status_set EnterAdminPin
      else
        let* accepted := check_pin pin in
        if negb accepted then ret tt
        else unlock_selected state
  end.

End WithPlatform.

(** [sync_external_store]: the timer that picks up what another process
    wrote to the ledger file. *)
Definition sync_external_store {conversions : Conversions} : M t unit :=
  on_store DeviceStateStore.reload ;; refresh_now.

(** Every record of the ledger is filed under its own instance id. *)
Definition keyed (cache : gmap string DeviceStateStore.DeviceState) : Prop :=
  forall key state, cache !! key = Some state -> DeviceStateStore.instance_id state = key.

End DeviceWindow.

(** ** The monitor thread (class [USBMonitor] of [lockport/usb_monitor.py])

    [str.upper], which the monitor applies to drive letters, is a parameter:
    its values leave this range of code points. *)

Class Casing := {
  py_upper : string -> string
}.

Module USBMonitor.
Import UsbMonitor.

(** A [Win32_VolumeChangeEvent] as the watcher yields it; a field is [None]
    where the object lacks the attribute. *)
Record VolumeChangeEvent := {
  EventType : option Z;
  DriveName : option string;
  Label : option string
}.

Record LogicalDisk := {
  DeviceID : option string;
  VolumeName : option string;
  Path_ : string
}.

Record DiskDrive := {
  PNPDeviceID : option string
}.

(** What WMI answers at one moment: the logical disks with a given
    [DeviceID], the removable logical disks ([DriveType=2]), and the two
    association queries, a partition being given by its [Path_].  [None]
    where the query raises. *)
Record Connection := {
  Win32_LogicalDisk : string -> option (list LogicalDisk);
  removable_disks : option (list LogicalDisk);
  LogicalDiskToPartition : string -> option (list string);
  DiskDriveToDiskPartition : string -> option (list DiskDrive)
}.

(** [_resolve_instance_id]; [None] where a query raises. *)
Definition _resolve_instance_id (conn : Connection) (drive_letter : option string)
  : option string :=
  match drive_letter with
  | None => Some ""
  | Some letter =>
      if negb (PyStr.truthy letter) then Some ""
      else
        logical_disk ← Win32_LogicalDisk conn letter;
        match logical_disk with
        | [] => Some ""
        | disk :: _ =>
            associations ← LogicalDiskToPartition conn (Path_ disk);
            match associations with
            | [] => Some ""
            | partition :: _ =>
                physical_disks ← DiskDriveToDiskPartition conn partition;
                match physical_disks with
                | [] => Some ""
                | physical :: _ => Some (default "" (PNPDeviceID physical))
                end
            end
        end
  end.

(** A monitor: the drive map and the object that the callback acts on. *)
Record t (S : Type) := {
  _drive_map : gmap string string;
  listener : S
}.
Arguments _drive_map {S} _.
Arguments listener {S} _.

(** How a call of [_run_loop] or [_emit_existing_devices] ends. *)
Inductive Outcome := Returned | Raised.

(** What the watcher does in one turn of the loop; an event comes with
    the answers of WMI at that moment. *)
Inductive Watch :=
| TimedOut
| WatcherFailure
| Yielded (conn : Connection) (event : VolumeChangeEvent).

Section WithCallback.
Context {casing : Casing} {S : Type}.
Variable callback : USBEvent -> S -> S.

(** [self.callback(usb_event)] *)
Definition emit (usb_event : USBEvent) (m : t S) : t S :=
  {| _drive_map := _drive_map m; listener := callback usb_event (listener m) |}.

(** [drive_letter.upper() if drive_letter else None] *)
Definition drive_key (drive_letter : option string) : option string :=
  match drive_letter with
  | Some letter => if PyStr.truthy letter then Some (py_upper letter) else None
  | None => None
  end.

(** The [try] block of [_run_loop], for one event of the watcher.  An
    exception in it is logged and the event is lost. *)
Definition on_volume_event (conn : Connection) (event : VolumeChangeEvent) (m : t S)
  : t S :=
  let event_type := EventType event in
  if negb (bool_decide (event_type = Some 2) || bool_decide (event_type = Some 3))
  then m
  else
    let drive_letter := DriveName event in
    let volume_name := Label event in
    match _resolve_instance_id conn drive_letter with
    | None => m
    | Some instance_id =>
        let key := drive_key drive_letter in
        let event_name :=
          if bool_decide (event_type = Some 2) then "arrival" else "removal" in
        let '(instance_id, drive_map) :=
          if String.eqb event_name "arrival" then
            (instance_id,
             match key with
             | Some key =>
                 if PyStr.truthy instance_id
                 then <[key := instance_id]> (_drive_map m)
                 else _drive_map m
             | None => _drive_map m
             end)
          else
            match key with
            | Some key =>
                (if negb (PyStr.truthy instance_id)
                 then default "" (_drive_map m !! key)
                 else instance_id,
                 delete key (_drive_map m))
            | None => (instance_id, _drive_map m)
            end in
        emit {| instance_id := PyStr.or_else (Some instance_id) "";
                drive_letter := drive_letter;
                volume_name := volume_name;
                event_type := event_name;
                synthetic := false |}
          {| _drive_map := drive_map; listener := listener m |}
    end.

Definition iteration (m : t S) (w : Watch) : t S :=
  match w with
  | TimedOut | WatcherFailure => m
  | Yielded conn event => on_volume_event conn event m
  end.

(** The loop of [_emit_existing_devices]: an exception of
    [_resolve_instance_id] ends it. *)
Fixpoint emit_each (conn : Connection) (current : list LogicalDisk) (m : t S)
  : Outcome * t S :=
  match current with
  | [] => (Returned, m)
  | disk :: rest =>
      match _resolve_instance_id conn (DeviceID disk) with
      | None => (Raised, m)
      | Some instance_id =>
          if negb (PyStr.truthy instance_id) then emit_each conn rest m
          else
            emit_each conn rest
              (emit {| instance_id := instance_id;
                       drive_letter := DeviceID disk;
                       volume_name := VolumeName disk;
                       event_type := "arrival";
                       synthetic := true |} m)
      end
  end.

Definition _emit_existing_devices (conn : Connection) (m : t S) : Outcome * t S :=
  match removable_disks conn with
  | None => (Returned, m)
  | Some current => emit_each conn current m
  end.

(** [_run_loop] until the stop event is set: [conn] is WMI as it answers
    at the start, [feed] what the watcher does in each turn. *)
Definition _run_loop (conn : Connection) (feed : list Watch) (m : t S)
  : Outcome * t S :=
  match _emit_existing_devices conn m with
  | (Returned, m') => (Returned, foldl iteration m' feed)
  | (Raised, m') => (Raised, m')
  end.

End WithCallback.

(** *** Vocabulary of the properties below *)

(** A callback that lists the events it is given, in order. *)
Definition record (event : USBEvent) (seen : list USBEvent) : list USBEvent :=
  seen ++ [event].

(** A monitor that has just been constructed. *)
Definition fresh {S} (listener : S) : t S :=
  {| _drive_map := ∅; listener := listener |}.

(** The turn of the loop is about the drive with this key. *)
Definition about {casing : Casing} (key : string) (w : Watch) : Prop :=
  match w with
  | Yielded _ event => drive_key (DriveName event) = Some key
  | _ => False
  end.

(** An event as the monitor makes them: an arrival or a removal, and
    where it is synthetic, an arrival with an instance id. *)
Definition well_formed (event : USBEvent) : Prop :=
  (event_type event = "arrival" \/ event_type event = "removal")
  /\ (synthetic event = true ->
      event_type event = "arrival" /\ instance_id event <> "").

End USBMonitor.

(** ** Administration commands ([lockport_cli.py]) *)

Module LockportCli.

(** The lines that the commands print. *)
Inductive Line :=
| FailedAttempts (n : Z)
| LockedUntil (t : Z)
| LockoutInactive
| LockoutCountersCleared
| PinEntriesDoNotMatch
| FailedToSetPin (text : string)
| PinUpdatedSuccessfully.

(** The terminal of a command and its [PinManager]: the n-th call of
    [getpass] answers [keyboard n]; [prompts] and [printed] list the
    prompts shown and the lines printed, latest first. *)
Record Console := {
  pin_manager : PinStore.World;
  keyboard : nat -> string;
  prompts : list string;
  printed : list Line
}.

Definition set_pin_manager (v : PinStore.World) (c : Console) : Console :=
  {| pin_manager := v; keyboard := keyboard c; prompts := prompts c;
     printed := printed c |}.

Definition print (l : Line) : M Console unit :=
  modify (fun c =>
    {| pin_manager := pin_manager c; keyboard := keyboard c; prompts := prompts c;
       printed := l :: printed c |}).

Definition getpass (prompt : string) : M Console string :=
  fun c =>
    (Ok (keyboard c (length (prompts c))),
     {| pin_manager := pin_manager c; keyboard := keyboard c;
        prompts := prompt :: prompts c; printed := printed c |}).

Definition on_pins {A} : M PinStore.World A -> M Console A :=
  zoom pin_manager set_pin_manager.

Definition is_pin_validation_error (e : Exn) : bool :=
  match e with PinValidationError _ => true | _ => false end.

(** [str(exc)] *)
Definition exn_text (e : Exn) : string :=
  match e with
  | PinLockedError msg | PinValidationError msg | ValueError msg => msg
  | _ => ""
  end.

Section WithPlatform.
Context {platform : Platform}.
Variable config : LockPortConfig.

Definition cmd_status : M Console Z :=
  let* status := on_pins (PinStore.get_status config) in
  print (FailedAttempts (PinStore.st_failed_attempts status)) ;;
  (if PinStore.st_locked status
   then print (LockedUntil (PinStore.st_lock_until status))
   else print LockoutInactive) ;;
  ret 0.

Definition cmd_reset_lockout : M Console Z :=
  on_pins (PinStore.reset_lockout config) ;;
  print LockoutCountersCleared ;;
  ret 0.

(** [cmd_set_pin] with the options [--current-pin] and
    [--skip-current-check] of the command line. *)
Definition cmd_set_pin (current_pin : option string) (skip_current_check : bool)
  : M Console Z :=
  let* current_pin :=
    match current_pin with
    | None =>
        if negb skip_current_check
        then let* typed := getpass "Current PIN: " in ret (Some typed)
        else ret None
    | Some _ => ret current_pin
    end in
  let* new_pin := getpass "New PIN: " in
  let* confirm_pin := getpass "Confirm PIN: " in
  if negb (String.eqb new_pin confirm_pin)
  then print PinEntriesDoNotMatch ;; ret 1
  else
    let* failed :=
      try_except
        (on_pins (PinStore.set_pin config new_pin current_pin) ;; ret false)
        is_pin_validation_error
        (fun exc => print (FailedToSetPin (exn_text exc)) ;; ret true) in
    if failed then ret 1
    else print PinUpdatedSuccessfully ;; ret 0.

End WithPlatform.

End LockportCli.

(** ** Worked instances

    A platform, a configuration and states on which the properties below
    are exercised.  The configuration is the one of the unit tests of the
    PIN manager (two attempts, one second of lockout); the stand-in key
    derivation appends the salt to the password and the stand-in codec
    spells the bytes out. *)

Module Samples.
Import UsbMonitor.

Definition platform : Platform := {|
  pbkdf2_hmac_sha256 := fun password salt _ => (password ++ salt)%list;
  b64encode := string_of_list_byte;
  b64decode := fun s => Some (list_byte_of_string s);
  win32crypt := None
|}.

Definition conversions : Conversions := {|
  py_repr := fun _ => "";
  py_float := fun _ => None
|}.

Definition config : LockPortConfig := {|
  pin_attempt_limit := 2;
  pin_lockout_seconds := 1;
  pin_hash_iterations := 100000;
  ui_timeout_seconds := 120
|}.

(** A machine without store file, at time 1000. *)
Definition blank : PinStore.World := {|
  PinStore.store_file := None;
  PinStore.cache_file := None;
  PinStore.clock := 1000;
  PinStore.entropy := fun _ => [x73; x61; x6c; x74];
  PinStore.draws := 0;
  PinStore.io_log := []
|}.

(** The same machine after [PinManager(config)] was constructed. *)
Definition installed : PinStore.World :=
  snd (PinStore.__init__ (platform := platform) config blank).

(** The document of [installed]. *)
Definition default_payload : PinStore.Payload :=
  PinStore.fresh_payload (platform := platform) config blank.

(** An operating system on which every toggle succeeds, and one on which
    the device is never found. *)
Definition obliging : DeviceLocker.OS := {|
  DeviceLocker.answers := fun _ =>
    DeviceLocker.Completed
      {| DeviceLocker.returncode := 0; DeviceLocker.stdout := "Success";
         DeviceLocker.stderr := "" |};
  DeviceLocker.calls := []
|}.

Definition deaf : DeviceLocker.OS := {|
  DeviceLocker.answers := fun _ =>
    DeviceLocker.Completed
      {| DeviceLocker.returncode := 1; DeviceLocker.stdout := "DeviceNotFound";
         DeviceLocker.stderr := "" |};
  DeviceLocker.calls := []
|}.

Definition empty_ledger : DeviceStateStore.t := {|
  DeviceStateStore._cache := ∅;
  DeviceStateStore.path := DeviceStateStore.Absent;
  DeviceStateStore.writable := true
|}.

(** A ledger in which USB#001 was unlocked at time 995. *)
Definition unlocked_ledger : DeviceStateStore.t :=
  snd (DeviceStateStore.upsert 995 "USB#001" (Some "E:") (Some "USB") "unlocked"
         empty_ledger).

Definition idle_service (os : DeviceLocker.OS) (ledger : DeviceStateStore.t) (now : Z)
  : Service.t := {|
  Service.device_locker := os;
  Service._active_devices := ∅;
  Service._device_state_store := ledger;
  Service.clock := now;
  Service.logger := []
|}.

Definition arrival (found_at_start : bool) : USBEvent := {|
  instance_id := "USB#001";
  drive_letter := Some "E:";
  volume_name := Some "USB";
  event_type := "arrival";
  synthetic := found_at_start
|}.

Definition removal : USBEvent := {|
  instance_id := "USB#001";
  drive_letter := Some "E:";
  volume_name := Some "USB";
  event_type := "removal";
  synthetic := false
|}.

(** A removal that overtakes an arrival in flight, then a second arrival:
    worker 0 takes the arrival up to its toggle, worker 1 handles the
    removal and then takes the second arrival up to its toggle. *)
Definition overtaking : list Workers.Label :=
  [Workers.Notify (arrival false); Workers.Advance 0; Workers.Advance 0;
   Workers.Notify removal; Workers.Advance 1; Workers.Advance 1;
   Workers.Notify (arrival false); Workers.Advance 1; Workers.Advance 1].

(** The service on the operating system [deaf], where moreover nothing
    that a subprocess writes decodes. *)
Definition garbling : Undecoded.t := {|
  Undecoded.service := idle_service deaf empty_ledger 1000;
  Undecoded.garbled := fun _ => true
|}.

(** A device window with USB#001 selected and a PIN typed in. *)
Definition window (os : DeviceLocker.OS) (typed : string) : DeviceWindow.t := {|
  DeviceWindow.pin_manager := installed;
  DeviceWindow.store := unlocked_ledger;
  DeviceWindow.locker := os;
  DeviceWindow.latest_states := DeviceStateStore._cache unlocked_ledger;
  DeviceWindow.processing_devices := ∅;
  DeviceWindow.tree_focus := "USB#001";
  DeviceWindow.pin_var := typed;
  DeviceWindow.status_var := DeviceWindow.SelectDeviceRowFirst;
  DeviceWindow.log_text := []
|}.

(** The machine of [installed] after two wrong PINs, at time 1001: locked
    until 1002. *)
Definition locked_out : PinStore.World :=
  snd (PinStore.verify_each (platform := platform) config
         [(1000, "9999"); (1001, "9999")] installed).

(** A ledger whose file cannot be opened for writing. *)
Definition read_only_ledger : DeviceStateStore.t := {|
  DeviceStateStore._cache := ∅;
  DeviceStateStore.path := DeviceStateStore.Absent;
  DeviceStateStore.writable := false
|}.

(** The pool of two workers after the run [overtaking]. *)
Definition overtaken : Workers.Pool :=
  default (Workers.started (idle_service obliging empty_ledger 1000) 2)
    (Workers.run overtaking (Workers.started (idle_service obliging empty_ledger 1000) 2)).

(** An arrival handled to its end by worker 0, the removal of the device
    handled by worker 1 while no worker is busy with it, and a second
    arrival taken up to its toggle by worker 0; and the pool of two workers
    after this run. *)
Definition replugging : list Workers.Label :=
  [Workers.Notify (arrival false); Workers.Advance 0; Workers.Advance 0;
   Workers.Advance 0; Workers.Advance 0;
   Workers.Notify removal; Workers.Advance 1; Workers.Advance 1;
   Workers.Notify (arrival false); Workers.Advance 0; Workers.Advance 0].

Definition replugged : Workers.Pool :=
  default (Workers.started (idle_service obliging empty_ledger 1000) 2)
    (Workers.run replugging (Workers.started (idle_service obliging empty_ledger 1000) 2)).

(** A data-protection facility that reverses the bytes and returns them
    in a pair, and the platform above with it. *)
Definition dpapi : Win32Crypt := {|
  CryptProtectData := fun plain => Some (ProtectedPair "" (rev plain));
  CryptUnprotectData := fun encrypted => Some (rev encrypted)
|}.

Definition protected : Platform := {|
  pbkdf2_hmac_sha256 := fun password salt _ => (password ++ salt)%list;
  b64encode := string_of_list_byte;
  b64decode := fun s => Some (list_byte_of_string s);
  win32crypt := Some dpapi
|}.

(** The same facility returning the bytes alone, as pywin32 does, and the
    platform above with it. *)
Definition pywin32 : Win32Crypt := {|
  CryptProtectData := fun plain => Some (ProtectedBytes (rev plain));
  CryptUnprotectData := fun encrypted => Some (rev encrypted)
|}.

Definition protected_by_pywin32 : Platform := {|
  pbkdf2_hmac_sha256 := fun password salt _ => (password ++ salt)%list;
  b64encode := string_of_list_byte;
  b64decode := fun s => Some (list_byte_of_string s);
  win32crypt := Some pywin32
|}.

(** [str.upper] on the letters a..z; other characters are kept. *)
Definition casing : Casing := {|
  py_upper := fix upper (s : string) : string :=
    match s with
    | EmptyString => EmptyString
    | String c rest =>
        String (if (97 <=? PyStr.ord c) && (PyStr.ord c <=? 122)
                then PyStr.chr (PyStr.ord c - 32) else c) (upper rest)
    end
|}.

(** WMI while USB#001 is mounted as E:, and after it was pulled. *)
Definition mounted : USBMonitor.Connection := {|
  USBMonitor.Win32_LogicalDisk := fun letter =>
    Some (if String.eqb letter "E:"
          then [{| USBMonitor.DeviceID := Some "E:"; USBMonitor.VolumeName := Some "USB";
                   USBMonitor.Path_ := "disk" |}]
          else []);
  USBMonitor.removable_disks :=
    Some [{| USBMonitor.DeviceID := Some "E:"; USBMonitor.VolumeName := Some "USB";
             USBMonitor.Path_ := "disk" |}];
  USBMonitor.LogicalDiskToPartition := fun _ => Some ["partition"];
  USBMonitor.DiskDriveToDiskPartition := fun _ =>
    Some [{| USBMonitor.PNPDeviceID := Some "USB#001" |}]
|}.

Definition pulled : USBMonitor.Connection := {|
  USBMonitor.Win32_LogicalDisk := fun _ => Some [];
  USBMonitor.removable_disks := Some [];
  USBMonitor.LogicalDiskToPartition := fun _ => Some [];
  USBMonitor.DiskDriveToDiskPartition := fun _ => Some []
|}.

Definition volume_event (type : Z) (letter : string) : USBMonitor.VolumeChangeEvent := {|
  USBMonitor.EventType := Some type;
  USBMonitor.DriveName := Some letter;
  USBMonitor.Label := Some "USB"
|}.

(** A terminal at which the given answers are typed, one for each prompt. *)
Definition console (typed : list string) : LockportCli.Console := {|
  LockportCli.pin_manager := installed;
  LockportCli.keyboard := fun n => nth n typed "";
  LockportCli.prompts := [];
  LockportCli.printed := []
|}.

End Samples.

(** * Properties of the string operations *)

Lemma decode_encode_char c rest :
  PyStr.decode (PyStr.encode_char c ++ rest) = String c <$> PyStr.decode rest.
Proof.
  destruct c as [[] [] [] [] [] [] [] []]; reflexivity.
Qed.

Lemma decode_encode s : PyStr.decode (PyStr.encode s) = Some s.
Proof.
  induction s as [|c s IH]; [reflexivity|].
  cbn [PyStr.encode]. rewrite decode_encode_char, IH. reflexivity.
Qed.

Lemma encode_inj a b : PyStr.encode a = PyStr.encode b -> a = b.
Proof.
  intros H. apply (f_equal PyStr.decode) in H.
  rewrite !decode_encode in H. congruence.
Qed.

(** * Properties of the credential store *)

Section PinStoreFacts.
Import PinStore.
Context {platform : Platform}.
Variable config : LockPortConfig.

Lemma read_present w p :
  store_file w = Some p ->
  _read config w = (Ok p, log_io (IoRead StoreFile) (log_io (IoExists StoreFile) w)).
Proof.
  intros H. unfold _read, bind, store_exists, store_read_text. simpl.
  rewrite H. simpl. rewrite H. reflexivity.
Qed.

Lemma read_missing w :
  store_file w = None ->
  exists w', _read config w = (Ok (fresh_payload config w), w')
    /\ store_file w' = Some (fresh_payload config w) /\ clock w' = clock w.
Proof.
  intros H. unfold _read, bind, store_exists. simpl. rewrite H. simpl.
  eexists. split; [reflexivity|]. simpl. auto.
Qed.

(** Every read yields the stored document, or the fresh one where the file
    is missing; either way the file then holds what was read. *)
Lemma read_spec w :
  exists w', _read config w = (Ok (default (fresh_payload config w) (store_file w)), w')
    /\ store_file w' = Some (default (fresh_payload config w) (store_file w))
    /\ clock w' = clock w.
Proof.
  destruct (store_file w) as [p|] eqn:E.
  - rewrite (read_present w p E). eexists. split; [reflexivity|]. simpl. auto.
  - apply read_missing. exact E.
Qed.

Lemma verify_pin_locked w p candidate :
  store_file w = Some p ->
  clock w < default 0 (lock_until p) ->
  verify_pin config candidate w
  = (Raise (PinLockedError "PIN entry temporarily locked"),
     log_io (IoRead StoreFile) (log_io (IoExists StoreFile) w)).
Proof.
  intros Hp Hlock. unfold verify_pin, bind at 1. rewrite (read_present w p Hp).
  unfold bind, time_time, gets. simpl.
  destruct (Z.gtb_spec (default 0 (lock_until p)) (clock w)); [reflexivity|lia].
Qed.

Lemma verify_pin_accepts w p candidate :
  store_file w = Some p ->
  default 0 (lock_until p) <= clock w ->
  verify (pin p) candidate = Some true ->
  exists w', verify_pin config candidate w = (Ok true, w')
    /\ store_file w' = Some (with_counters (Some 0) (Some 0) (Some (clock w)) p)
    /\ clock w' = clock w.
Proof.
  intros Hp Hlock Hv. unfold verify_pin, bind at 1. rewrite (read_present w p Hp).
  unfold bind at 1, time_time, gets. cbn [clock log_io].
  destruct (Z.gtb_spec (default 0 (lock_until p)) (clock w)); [lia|].
  rewrite Hv. unfold _cache_last_pin.
  destruct win32crypt as [api|]; [destruct (CryptProtectData api _ ≫= second_item)|];
    (eexists; split; [reflexivity|]; simpl; auto).
Qed.

Lemma verify_pin_refuses w p candidate :
  store_file w = Some p ->
  default 0 (lock_until p) <= clock w ->
  verify (pin p) candidate = Some false ->
  exists w', verify_pin config candidate w = (Raise (PinValidationError "Invalid PIN"), w')
    /\ store_file w' = Some (after_mismatch config (clock w) p)
    /\ clock w' = clock w.
Proof.
  intros Hp Hlock Hv. unfold verify_pin, bind at 1. rewrite (read_present w p Hp).
  unfold bind at 1, time_time, gets. cbn [clock log_io].
  destruct (Z.gtb_spec (default 0 (lock_until p)) (clock w)); [lia|].
  rewrite Hv. unfold after_mismatch.
  eexists; split; [reflexivity|]; simpl; auto.
Qed.

(** Where [verify_pin] returns, it returns [True]. *)
Lemma verify_pin_returns_true w candidate b w' :
  verify_pin config candidate w = (Ok b, w') -> b = true.
Proof.
  unfold verify_pin, bind at 1. destruct (read_spec w) as (w1 & -> & _).
  unfold bind at 1, time_time, gets. destruct (_ >? _); [discriminate|].
  destruct (verify _ _) as [[|]|]; [|discriminate|discriminate].
  unfold bind, _write, store_write_text, modify, _cache_last_pin, ret.
  destruct win32crypt as [api|]; [destruct (CryptProtectData api _ ≫= second_item)|]; cbn; congruence.
Qed.

Lemma lockout_run tries : forall w p,
  store_file w = Some p ->
  0 <= default 0 (failed_attempts p) ->
  Z.of_nat (length tries) + default 0 (failed_attempts p) = pin_attempt_limit config ->
  tries <> [] ->
  Forall (fun try => default 0 (lock_until p) <= fst try
                     /\ verify (pin p) (snd try) = Some false) tries ->
  exists w',
    verify_each config tries w
    = (replicate (length tries) (Raise (PinValidationError "Invalid PIN")), w')
    /\ store_file w'
       = Some (with_counters (Some 0)
                 (Some (last_time tries + pin_lockout_seconds config)) (updated_at p) p).
Proof.
  induction tries as [|[now candidate] rest IH]; intros w p Hp Hfa Hlen Hne Hall; [done|].
  apply Forall_cons in Hall as [[Hnow Hbad] Hrest]. cbn [fst snd] in Hnow, Hbad.
  destruct (verify_pin_refuses (set_clock now w) p candidate Hp Hnow Hbad)
    as (w1 & Hrun & Hfile & _).
  cbn [verify_each]. rewrite Hrun. cbn [clock set_clock] in Hfile.
  destruct rest as [|next rest'].
  - eexists. split; [reflexivity|]. rewrite Hfile. unfold after_mismatch, last_time.
    cbn [length] in Hlen. cbn.
    destruct (Z.geb_spec (default 0 (failed_attempts p) + 1) (pin_attempt_limit config));
      [reflexivity|lia].
  - assert (Hstep : after_mismatch config now p
                    = with_counters (Some (default 0 (failed_attempts p) + 1))
                        (lock_until p) (updated_at p) p).
    { unfold after_mismatch. cbn [length] in Hlen.
      destruct (Z.geb_spec (default 0 (failed_attempts p) + 1) (pin_attempt_limit config));
        [lia|reflexivity]. }
    rewrite Hstep in Hfile.
    destruct (IH w1 _ Hfile) as (w2 & Hrun2 & Hfile2).
    + cbn. lia.
    + cbn [length] in *. cbn. lia.
    + done.
    + exact Hrest.
    + rewrite Hrun2. eexists. split; [reflexivity|]. rewrite Hfile2. reflexivity.
Qed.

(** C2. A run of exactly [pin_attempt_limit] refused candidates, begun with
    the failure counter at 0 and no lockout in force, leaves the record
    with [lock_until] at the time of the last attempt plus
    [pin_lockout_seconds] and [failed_attempts] at 0.  Before that deadline
    every call raises [PinLockedError] and leaves the record as it is,
    whatever the candidate; from the deadline on, the right PIN is accepted
    and [failed_attempts] is 0. *)
Theorem lockout_after_attempt_limit w p tries :
  store_file w = Some p ->
  default 0 (failed_attempts p) = 0 ->
  0 < pin_attempt_limit config ->
  Z.of_nat (length tries) = pin_attempt_limit config ->
  Forall (fun try => default 0 (lock_until p) <= fst try
                     /\ verify (pin p) (snd try) = Some false) tries ->
  exists w' p',
    verify_each config tries w
    = (replicate (length tries) (Raise (PinValidationError "Invalid PIN")), w')
    /\ store_file w' = Some p'
    /\ pin p' = pin p
    /\ lock_until p' = Some (last_time tries + pin_lockout_seconds config)
    /\ failed_attempts p' = Some 0
    /\ (forall v candidate,
          store_file v = Some p' ->
          clock v < last_time tries + pin_lockout_seconds config ->
          exists v',
            verify_pin config candidate v
            = (Raise (PinLockedError "PIN entry temporarily locked"), v')
            /\ store_file v' = Some p' /\ cache_file v' = cache_file v)
    /\ (forall v candidate,
          store_file v = Some p' ->
          last_time tries + pin_lockout_seconds config <= clock v ->
          verify (pin p) candidate = Some true ->
          exists v' p'',
            verify_pin config candidate v = (Ok true, v')
            /\ store_file v' = Some p''
            /\ failed_attempts p'' = Some 0 /\ lock_until p'' = Some 0).
Proof.
  intros Hp Hfa Hlimit Hlen Hall.
  destruct (lockout_run tries w p Hp) as (w' & Hrun & Hfile); try (rewrite Hfa; lia); auto.
  { intros ->. cbn in Hlen. lia. }
  eexists w', _. split; [exact Hrun|]. split; [exact Hfile|].
  split; [reflexivity|]. split; [reflexivity|]. split; [reflexivity|]. split.
  - intros v candidate Hv Hclock.
    eexists. split; [apply (verify_pin_locked v _ candidate Hv); exact Hclock|].
    simpl. auto.
  - intros v candidate Hv Hclock Hgood.
    destruct (verify_pin_accepts v _ candidate Hv Hclock Hgood) as (v' & Hrun' & Hfile' & _).
    eexists v', _. split; [exact Hrun'|]. split; [exact Hfile'|]. split; reflexivity.
Qed.

Lemma set_pin_malformed w new_pin current_pin :
  PyStr.isdigit new_pin = false \/ ~ (4 <= PyStr.len new_pin <= 8) ->
  set_pin config new_pin current_pin w
  = (Raise (ValueError "PIN must be 4-8 numeric digits"), w).
Proof.
  intros H. unfold set_pin.
  destruct (PyStr.isdigit new_pin); simpl; [|reflexivity].
  destruct H as [H|H]; [discriminate|].
  destruct (Z.leb_spec 4 (PyStr.len new_pin)), (Z.leb_spec (PyStr.len new_pin) 8);
    simpl; try reflexivity; lia.
Qed.

Lemma verify_record_of (Hcodec : codec_sound) pin salt_bytes n candidate :
  verify (record_of pin salt_bytes n) candidate
  = Some (bool_decide (pbkdf2_hmac_sha256 (PyStr.encode pin) salt_bytes n
                       = pbkdf2_hmac_sha256 (PyStr.encode candidate) salt_bytes n)).
Proof.
  unfold verify, record_of. cbn [salt hash_value iterations].
  rewrite !Hcodec. reflexivity.
Qed.

Lemma clear_cached_pin_spec w :
  exists w', _clear_cached_pin w = (Ok tt, w')
    /\ store_file w' = store_file w /\ clock w' = clock w.
Proof.
  unfold _clear_cached_pin, bind, cache_exists.
  destruct (bool_decide _); eexists; (split; [reflexivity|]); simpl; auto.
Qed.

(** What [set_pin] does once the candidate has the right shape and the
    current PIN, where one was given, has been accepted. *)
Lemma set_pin_installs w new_pin :
  exists w',
    (let* record := from_pin new_pin (pin_hash_iterations config) in
     let* payload := _read config in
     let* now := time_time in
     _write (with_counters (Some 0) (Some 0) (Some now) (with_pin record payload)) ;;
     _clear_cached_pin) w = (Ok tt, w')
    /\ exists p', store_file w' = Some p'
         /\ pin p' = record_of new_pin (entropy w (draws w)) (pin_hash_iterations config)
         /\ failed_attempts p' = Some 0 /\ lock_until p' = Some 0.
Proof.
  unfold bind at 1. unfold from_pin, bind at 1, token_bytes, ret.
  unfold bind at 1.
  destruct (read_spec (set_draws (S (draws w)) w)) as (w1 & -> & Hfile & Hclock).
  unfold bind at 1, time_time, gets. unfold bind, _write, store_write_text, modify.
  match goal with |- context [_clear_cached_pin ?v] =>
    destruct (clear_cached_pin_spec v) as (w2 & -> & Hfile2 & _) end.
  eexists. split; [reflexivity|]. eexists. split; [exact Hfile2|].
  simpl. auto.
Qed.

Lemma set_pin_well_formed w new_pin current_pin w' :
  PyStr.isdigit new_pin = true ->
  4 <= PyStr.len new_pin <= 8 ->
  set_pin config new_pin current_pin w = (Ok tt, w') ->
  exists p' salt_bytes,
    store_file w' = Some p'
    /\ pin p' = record_of new_pin salt_bytes (pin_hash_iterations config)
    /\ failed_attempts p' = Some 0 /\ lock_until p' = Some 0.
Proof.
  intros Hdigit [Hlo Hhi]. unfold set_pin. rewrite Hdigit.
  destruct (Z.leb_spec 4 (PyStr.len new_pin)); [|lia].
  destruct (Z.leb_spec (PyStr.len new_pin) 8); [|lia]. cbn [negb andb orb].
  unfold bind at 1.
  destruct current_pin as [cur|].
  - unfold try_except, bind at 1.
    destruct (verify_pin config cur w) as [[b|e] w1]; cbv beta iota.
    + unfold ret at 1. cbv beta iota. destruct (set_pin_installs w1 new_pin) as (w2 & -> & p' & H1 & H2 & H3 & H4).
      intros [= <-]. eauto 10.
    + destruct (is_pin_error e); discriminate.
  - unfold ret at 1. cbv beta iota.
    destruct (set_pin_installs w new_pin) as (w2 & -> & p' & H1 & H2 & H3 & H4).
    intros [= <-]. eauto 10.
Qed.

Lemma set_pin_privileged w new_pin :
  PyStr.isdigit new_pin = true ->
  4 <= PyStr.len new_pin <= 8 ->
  exists w', set_pin config new_pin None w = (Ok tt, w').
Proof.
  intros Hdigit [Hlo Hhi]. unfold set_pin. rewrite Hdigit.
  destruct (Z.leb_spec 4 (PyStr.len new_pin)); [|lia].
  destruct (Z.leb_spec (PyStr.len new_pin) 8); [|lia]. cbn [negb andb orb].
  unfold bind at 1. unfold ret at 1. cbv beta iota.
  destruct (set_pin_installs w new_pin) as (w2 & -> & _). eauto.
Qed.

(** C3. A PIN of 4 to 8 digits is installed by [set_pin], at once on the
    privileged path and whenever the call returns otherwise; afterwards
    [verify_pin] accepts that PIN, and refuses with "Invalid PIN" every
    string whose derived key differs from that of the PIN: every other
    string, digits or not, where the key derivation has no collisions.
    The base64 codec is taken to decode what it encoded. *)
Theorem set_pin_then_verify_pin w new_pin :
  codec_sound ->
  PyStr.isdigit new_pin = true ->
  4 <= PyStr.len new_pin <= 8 ->
  (exists w1, set_pin config new_pin None w = (Ok tt, w1))
  /\ forall current_pin w1,
       set_pin config new_pin current_pin w = (Ok tt, w1) ->
       forall now, 0 <= now ->
         (exists w2, verify_pin config new_pin (set_clock now w1) = (Ok true, w2))
         /\ (forall other,
               (forall salt_bytes,
                   pbkdf2_hmac_sha256 (PyStr.encode new_pin) salt_bytes
                     (pin_hash_iterations config)
                   <> pbkdf2_hmac_sha256 (PyStr.encode other) salt_bytes
                        (pin_hash_iterations config)) ->
               exists w2, verify_pin config other (set_clock now w1)
                          = (Raise (PinValidationError "Invalid PIN"), w2))
         /\ (kdf_injective ->
             forall other, other <> new_pin ->
               exists w2, verify_pin config other (set_clock now w1)
                          = (Raise (PinValidationError "Invalid PIN"), w2)).
Proof.
  intros Hcodec Hdigit Hlen. split; [apply set_pin_privileged; assumption|].
  intros current_pin w1 Hset now Hnow.
  destruct (set_pin_well_formed w new_pin current_pin w1 Hdigit Hlen Hset)
    as (p' & salt_bytes & Hfile & Hpin & Hfa & Hlock).
  assert (Hfile' : store_file (set_clock now w1) = Some p') by exact Hfile.
  assert (Hopen : default 0 (lock_until p') <= clock (set_clock now w1)).
  { rewrite Hlock. exact Hnow. }
  assert (Hrefuse : forall other,
            pbkdf2_hmac_sha256 (PyStr.encode new_pin) salt_bytes (pin_hash_iterations config)
            <> pbkdf2_hmac_sha256 (PyStr.encode other) salt_bytes
                 (pin_hash_iterations config) ->
            exists w2, verify_pin config other (set_clock now w1)
                       = (Raise (PinValidationError "Invalid PIN"), w2)).
  { intros other Hother.
    destruct (verify_pin_refuses (set_clock now w1) p' other Hfile' Hopen)
      as (w2 & Hrun & _); [|eauto].
    rewrite Hpin, (verify_record_of Hcodec). by rewrite bool_decide_false. }
  split; [|split].
  - destruct (verify_pin_accepts (set_clock now w1) p' new_pin Hfile' Hopen)
      as (w2 & Hrun & _); [|eauto].
    rewrite Hpin, (verify_record_of Hcodec). rewrite bool_decide_true; reflexivity.
  - intros other Hother. apply Hrefuse, Hother.
  - intros Hkdf other Hother. apply Hrefuse.
    intros Heq. apply Hkdf, encode_inj in Heq. congruence.
Qed.

(** C8. A candidate that is not all digits, or whose length is outside
    4..8, makes [set_pin] raise [ValueError] with the world as it was: no
    file operation, the stored record and its failure counter untouched,
    whether or not a current PIN was supplied. *)
Theorem set_pin_rejects_malformed w new_pin current_pin :
  PyStr.isdigit new_pin = false \/ ~ (4 <= PyStr.len new_pin <= 8) ->
  set_pin config new_pin current_pin w
  = (Raise (ValueError "PIN must be 4-8 numeric digits"), w)
  /\ io_log (snd (set_pin config new_pin current_pin w)) = io_log w
  /\ store_file (snd (set_pin config new_pin current_pin w)) = store_file w.
Proof.
  intros H. rewrite (set_pin_malformed w new_pin current_pin H). auto.
Qed.

Lemma init_missing w :
  store_file w = None ->
  exists w', __init__ config w = (Ok tt, w')
    /\ store_file w' = Some (fresh_payload config w).
Proof.
  intros H. unfold __init__, bind, store_exists. simpl. rewrite H. simpl.
  eexists. split; [reflexivity|]. reflexivity.
Qed.

(** C9. Where the store file is missing, the constructor and every read
    write the fresh record: it verifies "0000", with [failed_attempts] and
    [lock_until] at 0.  So [verify_pin "0000"] succeeds on a store without
    file, and after the file of any store is deleted, and the status then
    shows no lockout. *)
Theorem missing_store_is_reinitialized w :
  codec_sound ->
  store_file w = None ->
  verify (pin (fresh_payload config w)) "0000" = Some true
  /\ failed_attempts (fresh_payload config w) = Some 0
  /\ lock_until (fresh_payload config w) = Some 0
  /\ (exists w', __init__ config w = (Ok tt, w')
                 /\ store_file w' = Some (fresh_payload config w))
  /\ (exists w', _read config w = (Ok (fresh_payload config w), w')
                 /\ store_file w' = Some (fresh_payload config w))
  /\ (0 <= clock w ->
      (exists w', verify_pin config "0000" w = (Ok true, w'))
      /\ (exists w', get_status config w
                     = (Ok {| st_failed_attempts := 0; st_lock_until := 0;
                              st_locked := false;
                              st_updated_at := Some (clock w) |}, w')))
  /\ (forall v, 0 <= clock v ->
        exists v', verify_pin config "0000" (set_store_file None v) = (Ok true, v')).
Proof.
  intros Hcodec Hnone.
  assert (Hv : forall v, verify (pin (fresh_payload config v)) "0000" = Some true).
  { intros v. unfold fresh_payload. cbn [pin].
    change (verify (record_of "0000" (entropy v (draws v)) (pin_hash_iterations config))
              "0000" = Some true).
    rewrite (verify_record_of Hcodec). rewrite bool_decide_true; reflexivity. }
  assert (Hverify : forall v, store_file v = None -> 0 <= clock v ->
            exists v', verify_pin config "0000" v = (Ok true, v')).
  { intros v Hfile Hclock. unfold verify_pin, bind at 1.
    destruct (read_missing v Hfile) as (v1 & -> & Hfile1 & Hclock1).
    unfold bind at 1, time_time, gets. rewrite Hclock1.
    change (default 0 (lock_until (fresh_payload config v))) with 0.
    destruct (Z.gtb_spec 0 (clock v)); [lia|]. rewrite Hv.
    unfold bind, _write, store_write_text, modify, _cache_last_pin.
    destruct win32crypt as [api|]; [destruct (CryptProtectData api _ ≫= second_item)|];
      eexists; reflexivity. }
  split; [apply Hv|]. split; [reflexivity|]. split; [reflexivity|].
  split; [apply init_missing; exact Hnone|].
  split. { destruct (read_missing w Hnone) as (w' & H1 & H2 & _). eauto. }
  split.
  - intros Hclock. split; [apply Hverify; assumption|].
    unfold get_status, bind at 1.
    destruct (read_missing w Hnone) as (w1 & -> & _ & Hclock1).
    unfold bind, time_time, gets, ret. rewrite Hclock1.
    change (default 0 (lock_until (fresh_payload config w))) with 0.
    destruct (Z.gtb_spec 0 (clock w)); [lia|]. eexists. reflexivity.
  - intros v Hclock. apply Hverify; [reflexivity|exact Hclock].
Qed.

End PinStoreFacts.

(** * Properties of the device state ledger *)

Section LedgerFacts.
Import DeviceStateStore.
Context {conversions : Conversions}.

Lemma to_dict_inj a b : to_dict a = to_dict b -> a = b.
Proof. destruct a, b. unfold to_dict. cbn. intros [= -> -> -> -> ->]. reflexivity. Qed.

Lemma load_entry_to_dict raw_key state cache :
  load_entry raw_key (to_dict state) cache
  = (Ok tt, <[raw_key := reloaded state]> cache).
Proof.
  unfold load_entry, to_dict, reloaded, modify. cbn.
  destruct (drive state) eqn:Ed, (volume state) eqn:Ev, (status state) eqn:Es;
    reflexivity.
Qed.

Lemma load_entries_dicts members : forall cache,
  NoDup members.*1 ->
  Forall (fun member => exists state, member.2 = to_dict state) members ->
  exists cache',
    load_entries members cache = (Ok tt, cache')
    /\ (forall key state, (key, to_dict state) ∈ members ->
          cache' !! key = Some (reloaded state))
    /\ (forall key, key ∉ members.*1 -> cache' !! key = cache !! key).
Proof.
  induction members as [|[key0 value0] rest IH]; intros cache Hnodup Hall.
  - exists cache. split; [reflexivity|]. split; [|reflexivity].
    intros key state H. by apply elem_of_nil in H.
  - apply Forall_cons in Hall as [[state0 Hvalue] Hall]. cbn in Hvalue. subst value0.
    cbn [fmap list_fmap fst] in Hnodup. apply NoDup_cons in Hnodup as [Hfresh Hnodup].
    cbn [load_entries]. unfold bind at 1. rewrite load_entry_to_dict.
    destruct (IH (<[key0 := reloaded state0]> cache) Hnodup Hall)
      as (cache' & Hrun & Hin & Hout).
    exists cache'. split; [exact Hrun|]. split.
    + intros key state Hmember. apply elem_of_cons in Hmember as [Heq|Hmember].
      * pose proof (f_equal fst Heq) as Hk. pose proof (f_equal snd Heq) as Hd.
        cbn [fst snd] in Hk, Hd. subst key. apply to_dict_inj in Hd as ->.
        rewrite (Hout key0 Hfresh). apply lookup_insert_eq.
      * apply Hin. exact Hmember.
    + intros key Hkey. cbn [fmap list_fmap fst] in Hkey.
      apply not_elem_of_cons in Hkey as [Hne Hkey].
      rewrite (Hout key Hkey). apply lookup_insert_ne. congruence.
Qed.

(** A new instance over the file that [_persist] wrote holds every record
    of the old one, as [reloaded]. *)
Lemma restart_after_persist s can_write :
  writable s = true ->
  exists file,
    _persist s = (Ok tt, set_path file s)
    /\ __init__ file can_write
       = (Ok tt, {| _cache := reloaded <$> _cache s; path := file; writable := can_write |}).
Proof.
  intros Hw. unfold _persist. rewrite Hw. eexists. split; [reflexivity|].
  unfold __init__, _load. cbn [path]. unfold on_cache. cbn [_cache].
  destruct (load_entries_dicts (map_to_list (to_dict <$> _cache s)) ∅)
    as (cache' & -> & Hin & Hout).
  - apply NoDup_fst_map_to_list.
  - apply Forall_forall. intros [key value] Hmember.
    apply elem_of_map_to_list in Hmember. rewrite lookup_fmap in Hmember.
    destruct (_cache s !! key) as [state|]; [|discriminate].
    injection Hmember as <-. by exists state.
  - unfold set_cache. cbn. f_equal. f_equal. apply map_eq. intros key.
    rewrite lookup_fmap. destruct (_cache s !! key) as [state|] eqn:E; cbn.
    + apply Hin. apply elem_of_map_to_list. rewrite lookup_fmap, E. reflexivity.
    + rewrite Hout; [apply lookup_empty|].
      intros Hkey. apply list_elem_of_fmap in Hkey as ([key' value] & Hk & Hmember).
      cbn in Hk. subst key'.
      apply elem_of_map_to_list in Hmember. rewrite lookup_fmap, E in Hmember.
      discriminate.
Qed.

Lemma upsert_writable s now id drive volume status :
  writable s = true ->
  exists s', upsert now id drive volume status s = (Ok tt, s')
    /\ _cache s' = <[id := {| instance_id := id; drive := PyStr.or_else drive "";
                              volume := PyStr.or_else volume ""; status := status;
                              updated_at := now |}]> (_cache s)
    /\ writable s' = true
    /\ _persist (set_cache (_cache s') s) = (Ok tt, s').
Proof.
  intros Hw. unfold upsert, bind, modify, _persist. cbn. rewrite Hw.
  eexists. split; [reflexivity|]. cbn. rewrite Hw. auto.
Qed.

Lemma upsert_cache s now id drive volume status :
  _cache (snd (upsert now id drive volume status s))
  = <[id := {| instance_id := id; drive := PyStr.or_else drive "";
               volume := PyStr.or_else volume ""; status := status;
               updated_at := now |}]> (_cache s).
Proof.
  unfold upsert, bind, modify, _persist. cbn. destruct (writable s); reflexivity.
Qed.

(** What [upsert] leaves in memory and, where the write succeeds, on disk:
    a new instance over the file gives the record back. *)
Lemma upsert_persisted s now id drive volume status can_write :
  writable s = true ->
  status <> "" ->
  exists s',
    upsert now id drive volume status s = (Ok tt, s')
    /\ get id s' = Some (upserted now id drive volume status)
    /\ exists s2,
         __init__ (path s') can_write = (Ok tt, s2)
         /\ get id s2 = Some (upserted now id drive volume status)
         /\ upserted now id drive volume status ∈ list_states s2.
Proof.
  intros Hw Hstatus.
  destruct (upsert_writable s now id drive volume status Hw)
    as (s' & Hrun & Hcache & Hw' & Hpersist).
  exists s'. split; [exact Hrun|].
  assert (Hget : get id s' = Some (upserted now id drive volume status)).
  { unfold get. rewrite Hcache. apply lookup_insert_eq. }
  split; [exact Hget|].
  destruct (restart_after_persist (set_cache (_cache s') s) can_write Hw)
    as (file & Hp & Hinit).
  rewrite Hpersist in Hp. injection Hp as ->. cbn [path set_path].
  eexists. split; [exact Hinit|].
  assert (Hrel : reloaded (upserted now id drive volume status)
                 = upserted now id drive volume status).
  { unfold reloaded, upserted. cbn. destruct status; [done|reflexivity]. }
  assert (Hget2 : (reloaded <$> _cache s') !! id
                  = Some (upserted now id drive volume status)).
  { rewrite lookup_fmap. unfold get in Hget. cbn [set_cache _cache].
    rewrite Hget. cbn. by rewrite Hrel. }
  split; [exact Hget2|].
  unfold list_states. cbn [_cache]. apply list_elem_of_fmap.
  exists (id, upserted now id drive volume status).
  split; [reflexivity|]. apply elem_of_map_to_list. exact Hget2.
Qed.

(** C7. After [upsert], [get] gives the record of that call: its id, its
    status, its drive and volume (empty where none was given) and the
    reading of the clock.  Where the write succeeded, a new instance over
    the same file loads without error, and for a status that is not empty
    its [get] and its [list_states] give that same record. *)
Theorem upsert_get_round_trip s now id drive volume status can_write :
  writable s = true ->
  status <> "" ->
  exists s',
    upsert now id drive volume status s = (Ok tt, s')
    /\ get id s'
       = Some {| instance_id := id; drive := PyStr.or_else drive "";
                 volume := PyStr.or_else volume ""; status := status;
                 updated_at := now |}
    /\ exists s2,
         __init__ (path s') can_write = (Ok tt, s2)
         /\ get id s2 = get id s'
         /\ DeviceStateStore.status <$> get id s2 = Some status
         /\ (exists record,
               record ∈ list_states s2
               /\ DeviceStateStore.instance_id record = id
               /\ DeviceStateStore.status record = status).
Proof.
  intros Hw Hstatus.
  destruct (upsert_persisted s now id drive volume status can_write Hw Hstatus)
    as (s' & Hrun & Hget & s2 & Hinit & Hget2 & Hlist).
  exists s'. split; [exact Hrun|]. split; [exact Hget|].
  exists s2. split; [exact Hinit|]. split; [by rewrite Hget, Hget2|].
  split; [by rewrite Hget2|].
  exists (upserted now id drive volume status). by repeat split.
Qed.

End LedgerFacts.

(** * Properties of the toggle adapter *)

Section LockerFacts.
Import DeviceLocker.

Lemma truthy_true s : PyStr.truthy s = true <-> s <> "".
Proof. destruct s; cbn; split; congruence. Qed.

(** A toggle always returns a result; it runs one or two subprocesses for
    an id that is not empty, each with the verb and the id of the call. *)
Lemma toggle_returns verb id os :
  exists r os',
    toggle verb id os = (Ok r, os')
    /\ answers os' = answers os
    /\ exists new, calls os' = (new ++ calls os)%list
         /\ (id <> "" -> new <> [])
         /\ Forall (fun c => call_verb c = verb /\ call_instance c = id) new.
Proof.
  unfold toggle. destruct (PyStr.truthy id) eqn:Hid; cbn [negb].
  - unfold bind at 1. unfold _run_command, bind at 1, subprocess_run.
    destruct (answers os (length (calls os))) as [c|err]; cbn [ret].
    + destruct ((returncode c =? 0) && PyStr.contains "Success" (stdout c)); cbn.
      * eexists _, _. split; [reflexivity|]. split; [reflexivity|].
        eexists [_]. split; [reflexivity|]. split; [done|]. by repeat constructor.
      * unfold _pnputil_action, bind, subprocess_run. cbn.
        destruct (answers os _); cbn;
          (eexists _, _; split; [reflexivity|]; split; [reflexivity|];
           eexists [_; _]; split; [reflexivity|]; split; [done|]; by repeat constructor).
    + cbn. unfold _pnputil_action, bind, subprocess_run. cbn.
      destruct (answers os _); cbn;
        (eexists _, _; split; [reflexivity|]; split; [reflexivity|];
         eexists [_; _]; split; [reflexivity|]; split; [done|]; by repeat constructor).
  - eexists _, _. split; [reflexivity|]. split; [reflexivity|].
    exists []. split; [reflexivity|]. split; [|constructor].
    intros Hne. apply truthy_true in Hne. congruence.
Qed.

End LockerFacts.

(** * Properties of the service orchestrator *)

Section ServiceFacts.
Import UsbMonitor Service.

Lemma record_device_state_spec id drive volume status s :
  exists s',
    _record_device_state id drive volume status s = (Ok tt, s')
    /\ device_locker s' = device_locker s
    /\ _active_devices s' = _active_devices s
    /\ clock s' = clock s
    /\ _device_state_store s'
       = snd (DeviceStateStore.upsert (clock s) id drive volume status (_device_state_store s))
    /\ (forall r, In r (logger s) -> In r (logger s')).
Proof.
  unfold _record_device_state, try_except, bind, time_time, gets, on_store, zoom.
  destruct (DeviceStateStore.upsert (clock s) id drive volume status (_device_state_store s))
    as [[[]|e] st] eqn:E.
  - eexists. split; [reflexivity|]. cbn. auto.
  - destruct (is_oserror e) eqn:He.
    + eexists. split; [reflexivity|]. cbn. repeat split; auto.
    + exfalso. revert E. unfold DeviceStateStore.upsert, bind, modify, DeviceStateStore._persist.
      cbn. destruct (DeviceStateStore.writable _); intros [= <- <-]. discriminate.
Qed.

Lemma process_usb_event_spec event s :
  exists r s',
    DeviceLocker.disable (instance_id event) (device_locker s) = (Ok r, device_locker s')
    /\ _process_usb_event event s = (Ok tt, s')
    /\ _active_devices s' = _active_devices s
    /\ clock s' = clock s
    /\ _device_state_store s'
       = snd (DeviceStateStore.upsert (clock s) (instance_id event) (drive_letter event)
                (volume_name event) "locked" (_device_state_store s))
    /\ (DeviceLocker.success r = false ->
        In (ErrorFailedToDisable (instance_id event) (DeviceLocker.message r)) (logger s')).
Proof.
  destruct (toggle_returns DeviceLocker.DisableDevice (instance_id event) (device_locker s))
    as (r & os' & Hrun & _).
  unfold _process_usb_event, bind at 1, log, modify. unfold bind at 1, on_locker, zoom.
  cbn [device_locker]. unfold DeviceLocker.disable. rewrite Hrun. unfold bind at 1.
  match goal with |- context [_record_device_state ?a ?b ?c ?d ?v] =>
    destruct (record_device_state_spec a b c d v) as (s1 & -> & H1 & H2 & H3 & H4 & H5) end.
  cbn [device_locker _active_devices clock _device_state_store set_device_locker]
    in H1, H2, H3, H4.
  destruct (DeviceLocker.success r) eqn:Hs; cbn [negb].
  - exists r, s1. rewrite H1. repeat split; auto. congruence.
  - eexists r, _. unfold log, modify. split; [|split; [reflexivity|]].
    + cbn [device_locker]. rewrite H1. reflexivity.
    + cbn [device_locker _active_devices clock _device_state_store logger In].
      repeat split; auto.
Qed.

Lemma lock_removed_port_spec event s :
  exists r s',
    DeviceLocker.disable (instance_id event) (device_locker s) = (Ok r, device_locker s')
    /\ lock_removed_port event s = (Ok tt, s')
    /\ _active_devices s' = _active_devices s
    /\ clock s' = clock s
    /\ _device_state_store s'
       = snd (DeviceStateStore.upsert (clock s) (instance_id event) (drive_letter event)
                (volume_name event) "removed" (_device_state_store s))
    /\ (DeviceLocker.success r = false ->
        In (WarnFailedToDisableRemoved (instance_id event) (DeviceLocker.message r))
          (logger s')).
Proof.
  destruct (toggle_returns DeviceLocker.DisableDevice (instance_id event) (device_locker s))
    as (r & os' & Hrun & _).
  unfold lock_removed_port, bind at 1, log, modify. unfold bind at 1, on_locker, zoom.
  cbn [device_locker]. unfold DeviceLocker.disable. rewrite Hrun. unfold bind at 1.
  destruct (DeviceLocker.success r) eqn:Hs; cbn [negb]; unfold ret, log, modify;
    match goal with |- context [_record_device_state ?a ?b ?c ?d ?v] =>
      destruct (record_device_state_spec a b c d v) as (s1 & -> & H1 & H2 & H3 & H4 & H5) end;
    cbn [device_locker _active_devices clock _device_state_store set_device_locker
         logger In] in H1, H2, H3, H4, H5;
    exists r, s1; rewrite H1; repeat split; auto; congruence.
Qed.

Lemma handle_usb_removal_spec event s :
  exists r s',
    DeviceLocker.disable (instance_id event) (device_locker s) = (Ok r, device_locker s')
    /\ _handle_usb_removal event s = (Ok tt, s')
    /\ _active_devices s' = _active_devices s ∖ {[instance_id event]}
    /\ clock s' = clock s
    /\ _device_state_store s'
       = snd (DeviceStateStore.upsert (clock s) (instance_id event) (drive_letter event)
                (volume_name event) "removed" (_device_state_store s))
    /\ (DeviceLocker.success r = false ->
        In (WarnFailedToDisableRemoved (instance_id event) (DeviceLocker.message r))
          (logger s')).
Proof.
  unfold _handle_usb_removal, bind, discard_active, modify.
  match goal with |- context [lock_removed_port event ?v] =>
    destruct (lock_removed_port_spec event v) as (r & s' & H1 & -> & H2 & H3 & H4 & H5) end.
  exists r, s'. cbn in *. repeat split; auto.
Qed.

Lemma recently_unlocked_spec event s :
  exists s',
    recently_unlocked event s = (Ok (returns_early event s), s')
    /\ same_devices s s'.
Proof.
  unfold recently_unlocked, returns_early, bind at 1, gets.
  destruct (DeviceStateStore.get _ _) as [state|]; [|by eexists].
  destruct (String.eqb _ _); [|by eexists]. cbn [andb].
  unfold bind at 1, time_time, gets.
  destruct (_ <? _); cbn [orb]; [by eexists|].
  destruct (synthetic event); by eexists.
Qed.

Lemma recently_unlocked_false event s :
  returns_early event s = false ->
  recently_unlocked event s = (Ok false, s).
Proof.
  unfold recently_unlocked, returns_early, bind at 1, gets.
  destruct (DeviceStateStore.get _ _) as [state|]; [|done].
  destruct (String.eqb _ _); [|done]. cbn [andb].
  unfold bind at 1, time_time, gets.
  destruct (_ <? _); cbn [orb]; [discriminate|].
  destruct (synthetic event); [discriminate|done].
Qed.

Lemma enter_active_spec event s :
  (instance_id event ∈ _active_devices s ->
     exists s', enter_active event s = (Ok false, s') /\ same_devices s s')
  /\ (instance_id event ∉ _active_devices s ->
        enter_active event s
        = (Ok true, set_active_devices (_active_devices s ∪ {[instance_id event]}) s)).
Proof.
  split; intros H; unfold enter_active; unfold bind at 1; unfold gets; cbv beta iota.
  - eexists. split; [case_bool_decide; [reflexivity|contradiction]|]. done.
  - case_bool_decide; [done|]. reflexivity.
Qed.

Lemma process_event_skipped event s :
  instance_id event <> "" ->
  event_type event <> "removal" ->
  returns_early event s = true ->
  exists s', _process_event event s = (Ok tt, s') /\ same_devices s s'.
Proof.
  intros Hid Htype Hearly. unfold _process_event.
  apply truthy_true in Hid. rewrite Hid. cbn [negb].
  apply String.eqb_neq in Htype. rewrite Htype. unfold bind at 1.
  destruct (recently_unlocked_spec event s) as (s' & -> & Hsame).
  rewrite Hearly. by exists s'.
Qed.

Lemma process_event_dropped event s :
  instance_id event <> "" ->
  event_type event <> "removal" ->
  instance_id event ∈ _active_devices s ->
  exists s', _process_event event s = (Ok tt, s') /\ same_devices s s'.
Proof.
  intros Hid Htype Hactive. unfold _process_event.
  apply truthy_true in Hid. rewrite Hid. cbn [negb].
  apply String.eqb_neq in Htype. rewrite Htype. unfold bind at 1.
  destruct (recently_unlocked_spec event s) as (s1 & -> & H1 & H2 & H3 & H4).
  destruct (returns_early event s); [by exists s1|].
  destruct (enter_active_spec event s1) as [Hin _].
  destruct Hin as (s2 & Hrun & H1' & H2' & H3' & H4'); [by rewrite H3|].
  unfold bind at 1. rewrite Hrun. exists s2. split; [reflexivity|].
  unfold same_devices. by rewrite H1', H2', H3', H4'.
Qed.

Lemma process_event_locks event s :
  instance_id event <> "" ->
  event_type event <> "removal" ->
  returns_early event s = false ->
  instance_id event ∉ _active_devices s ->
  exists r s',
    DeviceLocker.disable (instance_id event) (device_locker s) = (Ok r, device_locker s')
    /\ _process_event event s = (Ok tt, s')
    /\ _active_devices s' = _active_devices s
    /\ clock s' = clock s
    /\ _device_state_store s'
       = snd (DeviceStateStore.upsert (clock s) (instance_id event) (drive_letter event)
                (volume_name event) "locked" (_device_state_store s))
    /\ (DeviceLocker.success r = false ->
        In (ErrorFailedToDisable (instance_id event) (DeviceLocker.message r)) (logger s')).
Proof.
  intros Hid Htype Hearly Hactive. unfold _process_event.
  apply truthy_true in Hid. rewrite Hid. cbn [negb].
  apply String.eqb_neq in Htype. rewrite Htype. unfold bind at 1.
  destruct (recently_unlocked_spec event s) as (s1 & -> & H1 & H2 & H3 & H4).
  rewrite Hearly.
  destruct (enter_active_spec event s1) as [_ Hout].
  unfold bind at 1. rewrite Hout by (by rewrite H3).
  unfold try_finally.
  match goal with |- context [_process_usb_event event ?v] =>
    destruct (process_usb_event_spec event v) as (r & s2 & G1 & -> & G2 & G3 & G4 & G5) end.
  cbn [device_locker _active_devices clock _device_state_store set_active_devices]
    in G1, G2, G3, G4.
  unfold discard_active, modify.
  eexists r, _. split; [|split; [reflexivity|]].
  - cbn [device_locker set_active_devices]. rewrite <- H1. exact G1.
  - cbn [device_locker _active_devices clock _device_state_store set_active_devices logger].
    rewrite G2, G3, G4, H2, H3, H4. repeat split; auto.
    apply set_eq. intros x. set_unfold. intuition congruence.
Qed.

Lemma process_event_removal event s :
  instance_id event <> "" ->
  event_type event = "removal" ->
  exists r s',
    DeviceLocker.disable (instance_id event) (device_locker s) = (Ok r, device_locker s')
    /\ _process_event event s = (Ok tt, s')
    /\ _active_devices s' = _active_devices s ∖ {[instance_id event]}
    /\ clock s' = clock s
    /\ _device_state_store s'
       = snd (DeviceStateStore.upsert (clock s) (instance_id event) (drive_letter event)
                (volume_name event) "removed" (_device_state_store s))
    /\ (DeviceLocker.success r = false ->
        In (WarnFailedToDisableRemoved (instance_id event) (DeviceLocker.message r))
          (logger s')).
Proof.
  intros Hid Htype. unfold _process_event.
  apply truthy_true in Hid. rewrite Hid. cbn [negb]. rewrite Htype. cbn [String.eqb].
  change ("removal" =? "removal")%string with true. cbv iota.
  apply handle_usb_removal_spec.
Qed.

(** The state that [upsert] leaves holds the record of the call. *)
Lemma get_after_upsert now id drive volume status st :
  DeviceStateStore.get id (snd (DeviceStateStore.upsert now id drive volume status st))
  = Some (DeviceStateStore.upserted now id drive volume status).
Proof.
  unfold DeviceStateStore.get. rewrite upsert_cache. apply lookup_insert_eq.
Qed.

End ServiceFacts.

(** * Properties of the device window *)

Section WindowFacts.
Import UsbMonitor DeviceWindow.

Lemma handle_arrival_busy event u :
  instance_id event ∈ processing_devices u ->
  _handle_arrival event u = (Ok tt, u).
Proof.
  intros H. unfold _handle_arrival. unfold bind at 1. unfold gets. cbv beta iota.
  case_bool_decide; [reflexivity|done].
Qed.

Lemma handle_arrival_echo event u :
  echo_of_unlock event u = true ->
  exists u', _handle_arrival event u = (Ok tt, u') /\ same_devices u u'.
Proof.
  intros Hecho. unfold _handle_arrival. unfold bind at 1. unfold gets. cbv beta iota.
  case_bool_decide; [by exists u|].
  unfold bind at 1, modify. unfold bind at 1, gets. cbn [store set_processing_devices].
  unfold echo_of_unlock in Hecho.
  destruct (DeviceStateStore.get (instance_id event) (store u)) as [existing|]; [|done].
  apply andb_prop in Hecho as [Hs He].
  unfold bind at 1. rewrite Hs. unfold bind at 1, time_time, gets.
  cbn [pin_manager set_processing_devices]. rewrite He.
  eexists. split; [reflexivity|]. done.
Qed.

Lemma handle_arrival_synthetic event u :
  synthetic event = true ->
  exists u',
    _handle_arrival event u = (Ok tt, u')
    /\ same_devices u u'
    /\ (instance_id event ∉ processing_devices u ->
        echo_of_unlock event u = false ->
        status_var u'
        = ExistingDeviceDetected (device_label event) (current_status event u)).
Proof.
  intros Hsyn.
  destruct (decide (instance_id event ∈ processing_devices u)) as [Hbusy|Hfree].
  { rewrite (handle_arrival_busy event u Hbusy). exists u.
    split; [reflexivity|]. split; [done|]. intros Hn. by destruct Hn. }
  destruct (echo_of_unlock event u) eqn:Hecho.
  { destruct (handle_arrival_echo event u Hecho) as (u' & -> & Hsame).
    exists u'. split; [reflexivity|]. split; [done|]. discriminate. }
  unfold _handle_arrival. unfold bind at 1. unfold gets. cbv beta iota.
  case_bool_decide; [done|].
  unfold bind at 1, modify. unfold bind at 1, gets. cbn [store set_processing_devices].
  unfold echo_of_unlock, current_status in *.
  destruct (DeviceStateStore.get (instance_id event) (store u)) as [existing|].
  - unfold bind at 1. destruct (String.eqb _ _) eqn:Hs.
    + cbn [andb] in Hecho. unfold bind at 1, time_time, gets.
      cbn [pin_manager set_processing_devices]. rewrite Hecho. unfold ret at 1.
      cbv beta iota. rewrite Hsyn. eexists. split; [reflexivity|]. by repeat split.
    + unfold ret at 1. cbv beta iota. rewrite Hsyn.
      eexists. split; [reflexivity|]. by repeat split.
  - unfold bind at 1. unfold ret at 1. cbv beta iota. rewrite Hsyn.
    eexists. split; [reflexivity|]. by repeat split.
Qed.

Lemma handle_arrival_locks event u :
  synthetic event = false ->
  instance_id event ∉ processing_devices u ->
  echo_of_unlock event u = false ->
  exists r res u',
    DeviceLocker.disable (instance_id event) (locker u) = (Ok r, locker u')
    /\ _handle_arrival event u = (res, u')
    /\ store u'
       = snd (DeviceStateStore.upsert (PinStore.clock (pin_manager u)) (instance_id event)
                (drive_letter event) (volume_name event) "locked" (store u))
    /\ (DeviceStateStore.writable (store u) = true -> res = Ok tt).
Proof.
  intros Hsyn Hfree Hecho.
  destruct (toggle_returns DeviceLocker.DisableDevice (instance_id event) (locker u))
    as (r & os' & Hrun & _).
  assert (Hprefix : exists u1,
    _handle_arrival event u
       = (let* lock_result := on_locker (DeviceLocker.disable (instance_id event)) in
          let* now := time_time in
          on_store (DeviceStateStore.upsert now (instance_id event) (drive_letter event)
                      (volume_name event) "locked") ;;
          refresh_now ;;
          if negb (DeviceLocker.success lock_result) then
            status_set (FailedToLockArrival (device_label event)
                          (DeviceLocker.message lock_result)) ;;
            append_log (FailedToLockArrival (device_label event)
                          (DeviceLocker.message lock_result)) ;;
            discard_processing (instance_id event)
          else
            status_set (LockedEnterPin (device_label event)) ;;
            append_log (AwaitingPinEntry (device_label event)) ;;
            discard_processing (instance_id event)) u1
    /\ store u1 = store u /\ locker u1 = locker u /\ pin_manager u1 = pin_manager u).
  { unfold _handle_arrival. unfold bind at 1. unfold gets. cbv beta iota.
    case_bool_decide; [done|].
    unfold bind at 1, modify. unfold bind at 1, gets. cbn [store set_processing_devices].
    unfold echo_of_unlock in Hecho.
    destruct (DeviceStateStore.get (instance_id event) (store u)) as [existing|].
    - unfold bind at 1. destruct (String.eqb _ _) eqn:Hs.
      + cbn [andb] in Hecho. unfold bind at 1, time_time, gets.
        cbn [pin_manager set_processing_devices]. rewrite Hecho. unfold ret at 1.
        cbv beta iota. rewrite Hsyn. unfold bind at 1, status_set, modify.
        unfold bind at 1, append_log, modify. eexists. split; [reflexivity|]. done.
      + unfold ret at 1. cbv beta iota. rewrite Hsyn. unfold bind at 1, status_set, modify.
        unfold bind at 1, append_log, modify. eexists. split; [reflexivity|]. done.
    - unfold bind at 1. unfold ret at 1. cbv beta iota. rewrite Hsyn.
      unfold bind at 1, status_set, modify.
      unfold bind at 1, append_log, modify. eexists. split; [reflexivity|]. done. }
  destruct Hprefix as (u1 & -> & Hstore & Hlocker & Hpins).
  unfold bind at 1, on_locker, zoom. rewrite Hlocker. unfold DeviceLocker.disable in *.
  rewrite Hrun. unfold bind at 1, time_time, gets. cbn [pin_manager set_locker].
  rewrite Hpins.
  unfold bind at 1, on_store, zoom. cbn [store set_locker]. rewrite Hstore.
  destruct (DeviceStateStore.upsert _ _ _ _ _ (store u)) as [[[]|e] st] eqn:Hup.
  - destruct (DeviceLocker.success r); cbn [negb];
      (eexists r, _, _; split; [|split; [reflexivity|]]; [reflexivity|];
       split; [reflexivity|]; done).
  - eexists r, _, _. split; [|split; [reflexivity|]]; [reflexivity|].
    split; [reflexivity|]. intros Hw. exfalso. revert Hup.
    unfold DeviceStateStore.upsert, bind, modify, DeviceStateStore._persist. cbn.
    rewrite Hw. discriminate.
Qed.

Lemma update_state_spec id status u :
  exists res u',
    _update_state id status u = (res, u')
    /\ store u'
       = snd (DeviceStateStore.upsert (PinStore.clock (pin_manager u)) id
                (DeviceStateStore.drive <$> latest_states u !! id)
                (DeviceStateStore.volume <$> latest_states u !! id) status (store u))
    /\ locker u' = locker u
    /\ pin_manager u' = pin_manager u
    /\ (DeviceStateStore.writable (store u) = true -> res = Ok tt).
Proof.
  unfold _update_state. unfold bind at 1, gets. unfold bind at 1, time_time, gets.
  unfold bind at 1, on_store, zoom.
  destruct (DeviceStateStore.upsert _ _ _ _ _ (store u)) as [[[]|e] st] eqn:Hup.
  - eexists _, _. split; [reflexivity|]. by repeat split.
  - eexists _, _. split; [reflexivity|]. repeat split; try done.
    intros Hw. exfalso. revert Hup.
    unfold DeviceStateStore.upsert, bind, modify, DeviceStateStore._persist. cbn.
    rewrite Hw. discriminate.
Qed.

Context {platform : Platform}.
Variable config : LockPortConfig.

Lemma unlock_selected_spec state u :
  let id := DeviceStateStore.instance_id state in
  exists r res u',
    DeviceLocker.enable id (locker u) = (Ok r, locker u')
    /\ unlock_selected state u = (res, u')
    /\ (DeviceLocker.success r = true ->
        store u' = snd (DeviceStateStore.upsert (PinStore.clock (pin_manager u)) id
                          (DeviceStateStore.drive <$> latest_states u !! id)
                          (DeviceStateStore.volume <$> latest_states u !! id)
                          "unlocked" (store u)))
    /\ (DeviceLocker.success r = false ->
        DeviceLocker.is_device_missing r = true ->
        store u' = snd (DeviceStateStore.upsert (PinStore.clock (pin_manager u)) id
                          (DeviceStateStore.drive <$> latest_states u !! id)
                          (DeviceStateStore.volume <$> latest_states u !! id)
                          "removed" (store u)))
    /\ (DeviceLocker.success r = false ->
        DeviceLocker.is_device_missing r = false ->
        store u' = store u)
    /\ (DeviceStateStore.writable (store u) = true -> res = Ok tt).
Proof.
  intros id.
  destruct (toggle_returns DeviceLocker.EnableDevice id (locker u)) as (r & os' & Hrun & _).
  unfold unlock_selected. fold id. unfold bind at 1, on_locker, zoom.
  unfold DeviceLocker.enable. rewrite Hrun.
  destruct (DeviceLocker.success r) eqn:Hs; [|destruct (DeviceLocker.is_device_missing r) eqn:Hm].
  - unfold bind at 1.
    destruct (update_state_spec id "unlocked" (set_locker os' u))
      as (res & u1 & -> & H1 & H2 & H3 & H4).
    cbn [store locker pin_manager latest_states set_locker] in H1, H2, H3, H4.
    destruct res as [[]|e].
    + eexists r, _, _. split; [|split; [reflexivity|]].
      * cbn. rewrite H2. reflexivity.
      * repeat split; intros; cbn; try done; try congruence; auto.
    + eexists r, _, _. split; [|split; [reflexivity|]].
      * rewrite H2. reflexivity.
      * repeat split; intros; cbn; try done; try congruence; auto.
  - unfold bind at 1.
    destruct (update_state_spec id "removed" (set_locker os' u))
      as (res & u1 & -> & H1 & H2 & H3 & H4).
    cbn [store locker pin_manager latest_states set_locker] in H1, H2, H3, H4.
    destruct res as [[]|e].
    + eexists r, _, _. split; [|split; [reflexivity|]].
      * cbn. rewrite H2. reflexivity.
      * repeat split; intros; cbn; try done; try congruence; auto.
    + eexists r, _, _. split; [|split; [reflexivity|]].
      * rewrite H2. reflexivity.
      * repeat split; intros; cbn; try done; try congruence; auto.
  - eexists r, _, _. split; [|split; [reflexivity|]].
    + reflexivity.
    + repeat split; intros; cbn; try done; try congruence; auto.
Qed.

Lemma require_selection_frame u r u0 :
  _require_selection u = (r, u0) ->
  store u0 = store u /\ locker u0 = locker u /\ pin_manager u0 = pin_manager u
  /\ latest_states u0 = latest_states u.
Proof.
  unfold _require_selection. unfold bind at 1, gets.
  destruct (PyStr.truthy (tree_focus u)); cbn [negb].
  - unfold bind at 1, gets. destruct (latest_states u !! tree_focus u).
    + intros [= <- <-]. done.
    + intros [= <- <-]. done.
  - intros [= <- <-]. done.
Qed.

Lemma entered_pin_frame u r u1 :
  entered_pin u = (r, u1) ->
  store u1 = store u /\ locker u1 = locker u /\ latest_states u1 = latest_states u
  /\ PinStore.clock (pin_manager u1) = PinStore.clock (pin_manager u).
Proof.
  unfold entered_pin. unfold bind at 1, gets.
  destruct (PyStr.truthy (PyStr.strip (pin_var u))); cbn [negb].
  - intros [= <- <-]. done.
  - unfold bind at 1, on_pins, zoom, PinStore.get_cached_pin.
    destruct win32crypt as [api|].
    + unfold try_except, bind at 1, PinStore.cache_read_text.
      destruct (PinStore.cache_file (pin_manager u)) as [entry|].
      * unfold bind at 1, PinStore.time_time, gets. cbn [PinStore.clock PinStore.log_io].
        destruct (_ >? _).
        -- intros [= <- <-]. done.
        -- cbn [ret]. destruct (_ ≫= _) as [cached|].
           ++ destruct (PyStr.truthy cached); intros [= <- <-]; done.
           ++ intros [= <- <-]. done.
      * cbn. intros [= <- <-]. done.
    + intros [= <- <-]. done.
Qed.

Lemma check_pin_accepts pin u1 u2 :
  check_pin config pin u1 = (Ok true, u2) ->
  PinStore.verify_pin config pin (pin_manager u1) = (Ok true, pin_manager u2)
  /\ store u2 = store u1 /\ locker u2 = locker u1
  /\ latest_states u2 = latest_states u1.
Proof.
  unfold check_pin, try_except, bind at 1, on_pins, zoom.
  destruct (PinStore.verify_pin config pin (pin_manager u1)) as [[b|e] w] eqn:Hv.
  - intros [= <-]. cbn. split; [|done].
    by rewrite (verify_pin_returns_true config _ _ _ _ Hv).
  - destruct (PinStore.is_pin_error e); [|discriminate].
    unfold bind at 1. destruct e; cbn; discriminate.
Qed.

End WindowFacts.

(** * Properties of the worker pool *)

Section PoolFacts.
Import UsbMonitor Workers.

Lemma lookup_replaced (workers : list Worker) k w w' k' x :
  workers !! k = Some w ->
  <[k := w']> workers !! k' = Some x ->
  (k' = k /\ x = w') \/ (k' <> k /\ workers !! k' = Some x).
Proof.
  intros Hk Hk'. destruct (decide (k' = k)) as [->|Hne].
  - left. split; [reflexivity|].
    rewrite list_lookup_insert_eq in Hk' by (eapply lookup_lt_Some; exact Hk).
    congruence.
  - right. split; [exact Hne|]. by rewrite list_lookup_insert_ne in Hk'.
Qed.

(** Replacing a worker that keeps, takes or gives up its hold on [id]. *)
Lemma exclusive_kept id workers active active' k w w' :
  workers !! k = Some w ->
  holder id w = holder id w' ->
  (id ∈ active' <-> id ∈ active) ->
  exclusive id workers active ->
  exclusive id (<[k := w']> workers) active'.
Proof.
  intros Hk Hsame Hactive [Huniq Hiff]. split.
  - intros k1 k2 w1 w2 H1 H2 Hh1 Hh2.
    destruct (lookup_replaced _ _ _ _ _ _ Hk H1) as [[-> ->]|[Hn1 G1]];
      destruct (lookup_replaced _ _ _ _ _ _ Hk H2) as [[-> ->]|[Hn2 G2]]; try done.
    + rewrite <- Hsame in Hh1. exact (Huniq _ _ _ _ Hk G2 Hh1 Hh2).
    + rewrite <- Hsame in Hh2. exact (Huniq _ _ _ _ G1 Hk Hh1 Hh2).
    + exact (Huniq _ _ _ _ G1 G2 Hh1 Hh2).
  - rewrite Hactive, Hiff. split.
    + intros (k' & x & Hx & Hh). destruct (decide (k' = k)) as [->|Hne].
      * exists k, w'. split.
        -- apply list_lookup_insert_eq. eapply lookup_lt_Some; exact Hk.
        -- assert (x = w) by congruence. subst x. by rewrite <- Hsame.
      * exists k', x. split; [|exact Hh]. by rewrite list_lookup_insert_ne.
    + intros (k' & x & Hx & Hh).
      destruct (lookup_replaced _ _ _ _ _ _ Hk Hx) as [[-> ->]|[Hn G]].
      * exists k, w. split; [exact Hk|]. by rewrite Hsame.
      * exists k', x. done.
Qed.

Lemma exclusive_acquired id workers active active' k w w' :
  workers !! k = Some w ->
  holder id w = false ->
  holder id w' = true ->
  id ∉ active ->
  id ∈ active' ->
  exclusive id workers active ->
  exclusive id (<[k := w']> workers) active'.
Proof.
  intros Hk Hw Hw' Hout Hin [Huniq Hiff].
  assert (Hnone : forall k' x, workers !! k' = Some x -> holder id x = false).
  { intros k' x Hx. destruct (holder id x) eqn:E; [|reflexivity].
    exfalso. apply Hout, Hiff. by exists k', x. }
  split.
  - intros k1 k2 w1 w2 H1 H2 Hh1 Hh2.
    destruct (lookup_replaced _ _ _ _ _ _ Hk H1) as [[-> ->]|[Hn1 G1]];
      destruct (lookup_replaced _ _ _ _ _ _ Hk H2) as [[-> ->]|[Hn2 G2]]; try done.
    + rewrite (Hnone _ _ G2) in Hh2. discriminate.
    + rewrite (Hnone _ _ G1) in Hh1. discriminate.
    + rewrite (Hnone _ _ G1) in Hh1. discriminate.
  - split; [|done]. intros _. exists k, w'. split; [|exact Hw'].
    apply list_lookup_insert_eq. eapply lookup_lt_Some; exact Hk.
Qed.

Lemma exclusive_released id workers active active' k w w' :
  workers !! k = Some w ->
  holder id w = true ->
  holder id w' = false ->
  id ∉ active' ->
  exclusive id workers active ->
  exclusive id (<[k := w']> workers) active'.
Proof.
  intros Hk Hw Hw' Hout [Huniq Hiff].
  assert (Hnone : forall k' x, <[k := w']> workers !! k' = Some x -> holder id x = false).
  { intros k' x Hx. destruct (lookup_replaced _ _ _ _ _ _ Hk Hx) as [[-> ->]|[Hn G]];
      [exact Hw'|].
    destruct (holder id x) eqn:E; [|reflexivity].
    exfalso. apply Hn. exact (Huniq _ _ _ _ G Hk E Hw). }
  split.
  - intros k1 k2 w1 w2 H1 H2 Hh1 Hh2. rewrite (Hnone _ _ H1) in Hh1. discriminate.
  - split; [done|]. intros (k' & x & Hx & Hh). rewrite (Hnone _ _ Hx) in Hh. discriminate.
Qed.

Lemma exec_run {A} (m : M Service.t A) p r s' :
  m (service p) = (r, s') -> exec m p = (r, set_service s' p).
Proof. intros H. unfold exec. by rewrite H. Qed.

Lemma not_removal_of id event :
  is_removal_of id event = false ->
  event_type event = "removal" ->
  instance_id event <> id.
Proof.
  unfold is_removal_of. intros H Ht. rewrite Ht in H. cbn in H.
  change ("removal" =? "removal")%string with true in H. cbn in H.
  by apply String.eqb_neq.
Qed.

Lemma holder_of id event :
  holder id (Toggling event) = String.eqb (instance_id event) id
  /\ holder id (Finishing event) = String.eqb (instance_id event) id.
Proof. done. Qed.

Ltac pool_side :=
  first [ done
        | rewrite ?(proj1 (holder_of _ _)), ?(proj2 (holder_of _ _));
          first [ apply String.eqb_refl | congruence ]
        | set_unfold; intuition congruence ].

(** A segment of a worker keeps the exclusion for device [id], unless it
    takes up a removal of the device while the id is in the active set. *)
Lemma advance_exclusive id k p p' :
  advance k p = Some p' ->
  overtakes id (Advance k) p = false ->
  exclusive id (_workers p) (Service._active_devices (service p)) ->
  exclusive id (_workers p') (Service._active_devices (service p')).
Proof.
  unfold advance, overtakes. intros Hadv Hcalm Hex.
  destruct (_workers p !! k) as [w|] eqn:Hk; [|discriminate].
  destruct w as [|event|event|event|event|].
  - (* Idle *)
    destruct (_event_queue p) as [|event rest] eqn:Hqueue; [discriminate|].
    destruct (String.eqb (event_type event) "__stop__").
    { injection Hadv as <-. cbn.
      apply (exclusive_kept id _ (Service._active_devices (service p)) _ k Idle Stopped);
        pool_side. }
    destruct (negb (PyStr.truthy (instance_id event))) eqn:Htruthy.
    { injection Hadv as <-. cbn. exact Hex. }
    destruct (String.eqb (event_type event) "removal") eqn:Hrem.
    { injection Hadv as <-. cbn.
      assert (Hout : instance_id event = id -> id ∉ Service._active_devices (service p)).
      { intros <-. unfold is_removal_of in Hcalm.
        rewrite Hrem, String.eqb_refl in Hcalm. apply negb_false_iff in Htruthy.
        rewrite Htruthy in Hcalm. cbn in Hcalm. by apply bool_decide_eq_false in Hcalm. }
      apply (exclusive_kept id _ (Service._active_devices (service p)) _ k
               Idle (RemovalToggling event)); [done|done| |done].
      destruct (decide (instance_id event = id)) as [Heq|Hne].
      - specialize (Hout Heq). set_unfold. tauto.
      - set_unfold. intuition congruence. }
    destruct (recently_unlocked_spec event (service (set_event_queue rest p)))
      as (s' & Hrun & H1 & H2 & H3 & H4).
    rewrite (exec_run _ _ _ _ Hrun) in Hadv. cbn [service set_event_queue] in H3.
    destruct (Service.returns_early event _); injection Hadv as <-; cbn.
    + by rewrite H3.
    + apply (exclusive_kept id _ (Service._active_devices (service p)) _ k
               Idle (Checked event)); try pool_side; try (by rewrite H3).
  - (* Checked *)
    destruct (enter_active_spec event (service p)) as [Hin Hout].
    destruct (decide (instance_id event ∈ Service._active_devices (service p)))
      as [Hbusy|Hfree].
    + destruct (Hin Hbusy) as (s' & Hrun & H1 & H2 & H3 & H4).
      rewrite (exec_run _ _ _ _ Hrun) in Hadv. injection Hadv as <-. cbn.
      apply (exclusive_kept id _ (Service._active_devices (service p)) _ k
               (Checked event) Idle); try pool_side; try (by rewrite H3).
    + rewrite (exec_run _ _ _ _ (Hout Hfree)) in Hadv. injection Hadv as <-. cbn.
      destruct (String.eqb (instance_id event) id) eqn:Hid.
      * apply String.eqb_eq in Hid. subst id.
        apply (exclusive_acquired _ _ (Service._active_devices (service p)) _
                 k (Checked event) (Toggling event)); pool_side.
      * pose proof (proj1 (String.eqb_neq _ _) Hid).
        apply (exclusive_kept id _ (Service._active_devices (service p)) _ k
                 (Checked event) (Toggling event)); pool_side.
  - (* Toggling *)
    destruct (process_usb_event_spec event (service p))
      as (r & s' & _ & Hrun & H1 & _).
    rewrite (exec_run _ _ _ _ Hrun) in Hadv. injection Hadv as <-. cbn.
    apply (exclusive_kept id _ (Service._active_devices (service p)) _ k
             (Toggling event) (Finishing event)); try pool_side; try (by rewrite H1).
  - (* Finishing *)
    injection Hadv as <-. cbn.
    destruct (String.eqb (instance_id event) id) eqn:Hid.
    + apply String.eqb_eq in Hid. subst id.
      apply (exclusive_released _ _ (Service._active_devices (service p)) _
               k (Finishing event) Idle); pool_side.
    + pose proof (proj1 (String.eqb_neq _ _) Hid).
      apply (exclusive_kept id _ (Service._active_devices (service p)) _ k
               (Finishing event) Idle); pool_side.
  - (* RemovalToggling *)
    destruct (lock_removed_port_spec event (service p))
      as (r & s' & _ & Hrun & H1 & _).
    rewrite (exec_run _ _ _ _ Hrun) in Hadv. injection Hadv as <-. cbn.
    apply (exclusive_kept id _ (Service._active_devices (service p)) _ k
             (RemovalToggling event) Idle); try pool_side; try (by rewrite H1).
  - discriminate.
Qed.

Lemma step_exclusive id l p p' :
  step l p = Some p' ->
  overtakes id l p = false ->
  exclusive id (_workers p) (Service._active_devices (service p)) ->
  exclusive id (_workers p') (Service._active_devices (service p')).
Proof.
  destruct l as [event|now|k]; cbn [step].
  - intros [= <-] _ Hex. unfold _handle_usb_event. by case_bool_decide.
  - by intros [= <-] _ Hex.
  - apply advance_exclusive.
Qed.

(** Taking up a removal of device [id] while the id is in the active set
    ends the exclusion: the id leaves the set while a worker is in a
    [_process_usb_event] call for it. *)
Lemma overtaking_breaks_exclusion id l p p' :
  step l p = Some p' ->
  overtakes id l p = true ->
  exclusive id (_workers p) (Service._active_devices (service p)) ->
  ~ exclusive id (_workers p') (Service._active_devices (service p')).
Proof.
  destruct l as [event|now|k]; cbn [step overtakes]; try discriminate.
  unfold advance. intros Hadv Hover [Huniq Hiff] [_ Hiff'].
  destruct (_workers p !! k) as [w|] eqn:Hk; [|discriminate].
  destruct w; try discriminate.
  destruct (_event_queue p) as [|event rest] eqn:Hqueue; [discriminate|].
  apply andb_true_iff in Hover as [Hover Hin]. apply andb_true_iff in Hover as [Hrem Hid].
  apply bool_decide_eq_true in Hin.
  unfold is_removal_of in Hrem. apply andb_true_iff in Hrem as [Htype Heq].
  apply String.eqb_eq in Htype, Heq. subst id.
  rewrite Htype, Hid in Hadv. cbn in Hadv. injection Hadv as <-. cbn in Hiff'.
  destruct (proj1 Hiff Hin) as (k' & w & Hw & Hh).
  assert (Hne : k' <> k) by (intros ->; rewrite Hk in Hw; by injection Hw as <-).
  assert (Hgone : instance_id event ∈ Service._active_devices (service p)
                                    ∖ {[instance_id event]}).
  { apply Hiff'. exists k', w. split; [|exact Hh]. by rewrite list_lookup_insert_ne. }
  set_unfold. tauto.
Qed.

Lemma run_exclusive id trace : forall p p',
  run trace p = Some p' ->
  never_overtaken id trace p ->
  exclusive id (_workers p) (Service._active_devices (service p)) ->
  exclusive id (_workers p') (Service._active_devices (service p')).
Proof.
  induction trace as [|l rest IH]; intros p p' Hrun Hcalm Hex;
    cbn [run never_overtaken] in Hrun, Hcalm.
  - by injection Hrun as <-.
  - destruct Hcalm as [Hl Hrest].
    destruct (step l p) as [p1|] eqn:Hstep; [|discriminate].
    exact (IH p1 p' Hrun Hrest (step_exclusive id l p p1 Hstep Hl Hex)).
Qed.

Lemma started_exclusive id s worker_count :
  exclusive id (_workers (started s worker_count))
    (Service._active_devices (service (started s worker_count))).
Proof.
  unfold started. cbn. split.
  - intros k1 k2 w1 w2 H1 _ Hh _. apply lookup_replicate in H1 as [-> _]. discriminate.
  - split; [by intros ?%not_elem_of_empty|]. intros (k & w & Hk & Hh).
    apply lookup_replicate in Hk as [-> _]. discriminate.
Qed.

(** No segment of a worker puts an event on the queue. *)
Lemma advance_queue k p p' :
  advance k p = Some p' ->
  _event_queue p' = _event_queue p
  \/ exists event, _event_queue p = event :: _event_queue p'.
Proof.
  unfold advance. intros Hadv.
  destruct (_workers p !! k) as [w|] eqn:Hk; [|discriminate].
  destruct w as [|event|event|event|event|].
  - destruct (_event_queue p) as [|event rest] eqn:Hqueue; [discriminate|].
    right. exists event. f_equal.
    destruct (String.eqb (event_type event) "__stop__"); [by injection Hadv as <-|].
    destruct (negb (PyStr.truthy (instance_id event))); [by injection Hadv as <-|].
    destruct (String.eqb (event_type event) "removal"); [by injection Hadv as <-|].
    destruct (exec _ _) as [[[|]|e] p1] eqn:E; injection Hadv as <-;
      unfold exec in E; destruct (Service.recently_unlocked _ _) in E;
      by injection E as _ <-.
  - left. destruct (exec _ _) as [[[|]|e] p1] eqn:E; injection Hadv as <-;
      unfold exec in E; destruct (Service.enter_active _ _) in E;
      by injection E as _ <-.
  - left. injection Hadv as <-. unfold exec.
    by destruct (Service._process_usb_event _ _).
  - left. by injection Hadv as <-.
  - left. injection Hadv as <-. unfold exec.
    by destruct (Service.lock_removed_port _ _).
  - discriminate.
Qed.

(** While no removal of device [id] waits in the queue, none is taken
    up: a run in which the monitor delivers no removal of the device is one
    in which the device is never overtaken. *)
Lemma guarded_calm id l p : guarded id p -> overtakes id l p = false.
Proof.
  intros [_ Hq]. destruct l as [event|now|k]; try reflexivity. unfold overtakes.
  destruct (_workers p !! k) as [[| | | | |]|]; try reflexivity.
  destruct (_event_queue p) as [|event rest]; [reflexivity|].
  apply Forall_cons in Hq as [-> _]. reflexivity.
Qed.

Lemma step_guarded id l p p' :
  step l p = Some p' ->
  match l with Notify event => is_removal_of id event = false | _ => True end ->
  guarded id p -> guarded id p'.
Proof.
  intros Hstep Hl Hg. split.
  - exact (step_exclusive id l p p' Hstep (guarded_calm id l p Hg) (proj1 Hg)).
  - destruct Hg as [_ Hq]. destruct l as [event|now|k]; cbn [step] in Hstep.
    + injection Hstep as <-. unfold _handle_usb_event. case_bool_decide; cbn.
      * apply Forall_app. split; [exact Hq|]. by constructor.
      * exact Hq.
    + by injection Hstep as <-.
    + destruct (advance_queue k p p' Hstep) as [->|[event Hqueue]]; [exact Hq|].
      rewrite Hqueue in Hq. by apply Forall_cons in Hq as [_ Hq].
Qed.

Lemma quiet_monitor_never_overtaken id trace : forall p,
  no_removal_of id trace -> guarded id p -> never_overtaken id trace p.
Proof.
  induction trace as [|l rest IH]; intros p Hno Hg; cbn [never_overtaken]; [done|].
  apply Forall_cons in Hno as [Hl Hrest]. split; [by apply guarded_calm|].
  destruct (step l p) as [p1|] eqn:Hstep; [|done].
  exact (IH p1 Hrest (step_guarded id l p p1 Hstep Hl Hg)).
Qed.

Lemma started_guarded id s worker_count : guarded id (started s worker_count).
Proof. split; [apply started_exclusive|constructor]. Qed.

Lemma lookup_set_worker k w p :
  (k < length (_workers p))%nat -> _workers (set_worker k w p) !! k = Some w.
Proof. intros H. cbn. by apply list_lookup_insert_eq. Qed.

Lemma restore_worker k w p :
  _workers p !! k = Some Idle ->
  <[k := Idle]> (<[k := w]> (_workers p)) = _workers p.
Proof.
  intros H. rewrite list_insert_insert_eq. by apply list_insert_id.
Qed.

Lemma exec_service {A} (m : M Service.t A) p :
  service (snd (exec m p)) = snd (m (service p)).
Proof. unfold exec. by destruct (m (service p)). Qed.

Lemma exec_queue {A} (m : M Service.t A) p :
  _event_queue (snd (exec m p)) = _event_queue p.
Proof. unfold exec. by destruct (m (service p)). Qed.

Lemma exec_workers {A} (m : M Service.t A) p :
  _workers (snd (exec m p)) = _workers p.
Proof. unfold exec. by destruct (m (service p)). Qed.

Ltac pool_simpl :=
  repeat (cbn [service _event_queue _workers set_worker set_service set_event_queue];
          rewrite ?exec_service, ?exec_queue, ?exec_workers).

(** A worker that runs alone from the queue head through to [Idle] has
    done to the service what [_process_event] does. *)
Lemma worker_alone k p event rest :
  _workers p !! k = Some Idle ->
  _event_queue p = event :: rest ->
  event_type event <> "__stop__" ->
  exists n p',
    run (replicate n (Advance k)) p = Some p'
    /\ service p' = snd (Service._process_event event (service p))
    /\ _event_queue p' = rest
    /\ _workers p' = _workers p.
Proof.
  intros Hk Hqueue Hstop. apply String.eqb_neq in Hstop.
  pose proof (lookup_lt_Some _ _ _ Hk) as Hlt.
  assert (Hfirst : advance k p
    = if negb (PyStr.truthy (instance_id event))
      then Some (snd (exec (Service.log (Service.WarnSkippingNoInstanceId event))
                        (set_event_queue rest p)))
      else if String.eqb (event_type event) "removal"
      then Some (set_worker k (RemovalToggling event)
                   (snd (exec (Service.discard_active event) (set_event_queue rest p))))
      else match exec (Service.recently_unlocked event) (set_event_queue rest p) with
           | (Ok false, p') => Some (set_worker k (Checked event) p')
           | (_, p') => Some p'
           end).
  { unfold advance. rewrite Hk, Hqueue, Hstop. reflexivity. }
  unfold Service._process_event.
  destruct (negb (PyStr.truthy (instance_id event))).
  { exists 1%nat. eexists. cbn [run replicate step]. rewrite Hfirst.
    split; [reflexivity|]. done. }
  destruct (String.eqb (event_type event) "removal").
  { exists 2%nat. eexists. cbn [run replicate step]. rewrite Hfirst.
    unfold advance at 1. rewrite lookup_set_worker by (by rewrite exec_workers).
    split; [reflexivity|]. pool_simpl.
    split; [|split; [reflexivity|by apply restore_worker]].
    unfold Service._handle_usb_removal, bind, Service.discard_active, modify.
    by destruct (Service.lock_removed_port _ _). }
  unfold bind at 1.
  unfold exec in Hfirst. cbn [service set_event_queue] in Hfirst.
  destruct (Service.recently_unlocked event (service p)) as [[[|]|e] s1] eqn:E1.
  - exists 1%nat. eexists. cbn [run replicate step]. rewrite Hfirst.
    split; [reflexivity|]. done.
  - unfold bind at 1.
    destruct (Service.enter_active event s1) as [[[|]|e] s2] eqn:E2.
    + exists 4%nat. eexists. cbn [run replicate step]. rewrite Hfirst.
      unfold advance at 1. rewrite lookup_set_worker by exact Hlt.
      unfold exec at 1. cbn [service set_worker set_service]. rewrite E2.
      unfold advance at 1. rewrite lookup_set_worker by (cbn; by rewrite length_insert).
      unfold advance at 1.
      rewrite lookup_set_worker by (pool_simpl; by rewrite !length_insert).
      split; [reflexivity|]. pool_simpl.
      split; [|split; [reflexivity|]].
      * unfold try_finally, Service.discard_active, modify.
        by destruct (Service._process_usb_event event s2).
      * rewrite !list_insert_insert_eq. by apply list_insert_id.
    + exists 2%nat. eexists. cbn [run replicate step]. rewrite Hfirst.
      unfold advance at 1. rewrite lookup_set_worker by exact Hlt.
      unfold exec at 1. cbn [service set_worker set_service]. rewrite E2.
      split; [reflexivity|]. pool_simpl. split; [reflexivity|].
      split; [reflexivity|by apply restore_worker].
    + exists 2%nat. eexists. cbn [run replicate step]. rewrite Hfirst.
      unfold advance at 1. rewrite lookup_set_worker by exact Hlt.
      unfold exec at 1. cbn [service set_worker set_service]. rewrite E2.
      split; [reflexivity|]. pool_simpl. split; [reflexivity|].
      split; [reflexivity|by apply restore_worker].
  - exists 1%nat. eexists. cbn [run replicate step]. rewrite Hfirst.
    split; [reflexivity|]. done.
Qed.

End PoolFacts.

(** * The policy of the orchestrator *)

Section PolicyFacts.
Import UsbMonitor.
Context {conversions : Conversions}.

(** A [disable] on an id that is not empty runs at least one subprocess,
    each a disable of that id. *)
Lemma disable_calls id os r os' :
  id <> "" ->
  DeviceLocker.disable id os = (Ok r, os') ->
  exists new,
    DeviceLocker.calls os' = (new ++ DeviceLocker.calls os)%list
    /\ new <> []
    /\ Forall (fun c => DeviceLocker.call_verb c = DeviceLocker.DisableDevice
                        /\ DeviceLocker.call_instance c = id) new.
Proof.
  intros Hid Hrun.
  destruct (toggle_returns DeviceLocker.DisableDevice id os)
    as (r0 & os0 & Hrun0 & _ & new & Hcalls & Hne & Hall).
  unfold DeviceLocker.disable in Hrun. rewrite Hrun0 in Hrun. injection Hrun as <- <-.
  exists new. auto.
Qed.

Lemma enable_calls id os r os' :
  id <> "" ->
  DeviceLocker.enable id os = (Ok r, os') ->
  exists new,
    DeviceLocker.calls os' = (new ++ DeviceLocker.calls os)%list
    /\ new <> []
    /\ Forall (fun c => DeviceLocker.call_verb c = DeviceLocker.EnableDevice
                        /\ DeviceLocker.call_instance c = id) new.
Proof.
  intros Hid Hrun.
  destruct (toggle_returns DeviceLocker.EnableDevice id os)
    as (r0 & os0 & Hrun0 & _ & new & Hcalls & Hne & Hall).
  unfold DeviceLocker.enable in Hrun. rewrite Hrun0 in Hrun. injection Hrun as <- <-.
  exists new. auto.
Qed.

Lemma returns_early_unlocked event s state :
  DeviceStateStore.get (instance_id event) (Service._device_state_store s) = Some state ->
  DeviceStateStore.status state = "unlocked" ->
  Service.returns_early event s
  = (Service.clock s - DeviceStateStore.updated_at state <? 10) || synthetic event.
Proof.
  intros Hget Hstatus. unfold Service.returns_early. rewrite Hget, Hstatus. reflexivity.
Qed.

Lemma returns_early_other event s :
  (forall state,
      DeviceStateStore.get (instance_id event) (Service._device_state_store s) = Some state ->
      DeviceStateStore.status state <> "unlocked") ->
  Service.returns_early event s = false.
Proof.
  intros H. unfold Service.returns_early.
  destruct (DeviceStateStore.get _ _) as [state|]; [|reflexivity].
  pose proof (H state eq_refl) as Hne. apply String.eqb_neq in Hne. by rewrite Hne.
Qed.

(** No event makes [_process_event] raise. *)
Lemma process_event_returns event s : fst (Service._process_event event s) = Ok tt.
Proof.
  destruct (decide (instance_id event = "")) as [Hid|Hid].
  { unfold Service._process_event. rewrite Hid. reflexivity. }
  destruct (decide (event_type event = "removal")) as [Hrem|Hrem].
  { destruct (process_event_removal event s Hid Hrem) as (r & s' & _ & -> & _). done. }
  destruct (Service.returns_early event s) eqn:Hearly.
  { destruct (process_event_skipped event s Hid Hrem Hearly) as (s' & -> & _). done. }
  destruct (decide (instance_id event ∈ Service._active_devices s)) as [Hbusy|Hfree].
  { destruct (process_event_dropped event s Hid Hrem Hbusy) as (s' & -> & _). done. }
  destruct (process_event_locks event s Hid Hrem Hearly Hfree) as (r & s' & _ & -> & _).
  done.
Qed.

(** C5. An arrival for a device recorded as unlocked less than ten seconds
    ago is dropped by the service and by the device window: no subprocess
    is run and locker, ledger and active set stay as they were.  Ten
    seconds or more after the update, an arrival that is not synthetic,
    for a device that no other handler is busy with, runs [disable] on the
    device and records it as locked. *)
Theorem recent_unlock_is_not_relocked event s state :
  instance_id event <> "" ->
  event_type event = "arrival" ->
  DeviceStateStore.get (instance_id event) (Service._device_state_store s) = Some state ->
  DeviceStateStore.status state = "unlocked" ->
  (Service.clock s - DeviceStateStore.updated_at state < 10 ->
     exists s', Service._process_event event s = (Ok tt, s')
                /\ Service.same_devices s s')
  /\ (synthetic event = false ->
      10 <= Service.clock s - DeviceStateStore.updated_at state ->
      instance_id event ∉ Service._active_devices s ->
      exists r s' new,
        Service._process_event event s = (Ok tt, s')
        /\ DeviceLocker.disable (instance_id event) (Service.device_locker s)
           = (Ok r, Service.device_locker s')
        /\ DeviceLocker.calls (Service.device_locker s')
           = (new ++ DeviceLocker.calls (Service.device_locker s))%list
        /\ new <> []
        /\ DeviceStateStore.get (instance_id event) (Service._device_state_store s')
           = Some (DeviceStateStore.upserted (Service.clock s) (instance_id event)
                     (drive_letter event) (volume_name event) "locked"))
  /\ (forall u,
        DeviceStateStore.get (instance_id event) (DeviceWindow.store u) = Some state ->
        (PinStore.clock (DeviceWindow.pin_manager u) - DeviceStateStore.updated_at state < 10 ->
           exists u', DeviceWindow._handle_usb_event event u = (Ok tt, u')
                      /\ DeviceWindow.same_devices u u')
        /\ (synthetic event = false ->
            10 <= PinStore.clock (DeviceWindow.pin_manager u)
                  - DeviceStateStore.updated_at state ->
            instance_id event ∉ DeviceWindow.processing_devices u ->
            exists r res u' new,
              DeviceWindow._handle_usb_event event u = (res, u')
              /\ DeviceLocker.disable (instance_id event) (DeviceWindow.locker u)
                 = (Ok r, DeviceWindow.locker u')
              /\ DeviceLocker.calls (DeviceWindow.locker u')
                 = (new ++ DeviceLocker.calls (DeviceWindow.locker u))%list
              /\ new <> []
              /\ DeviceStateStore.get (instance_id event) (DeviceWindow.store u')
                 = Some (DeviceStateStore.upserted (PinStore.clock (DeviceWindow.pin_manager u))
                           (instance_id event) (drive_letter event) (volume_name event)
                           "locked"))).
Proof.
  intros Hid Htype Hget Hstatus.
  assert (Hrem : event_type event <> "removal") by (rewrite Htype; discriminate).
  pose proof (returns_early_unlocked event s state Hget Hstatus) as Hearly.
  split; [|split].
  - intros Hrecent. apply process_event_skipped; try done.
    rewrite Hearly. destruct (Z.ltb_spec (Service.clock s - DeviceStateStore.updated_at state) 10);
      [reflexivity|lia].
  - intros Hsyn Hlate Hfree.
    destruct (process_event_locks event s Hid Hrem) as (r & s' & H1 & H2 & H3 & H4 & H5 & H6);
      try done.
    { rewrite Hearly, Hsyn.
      destruct (Z.ltb_spec (Service.clock s - DeviceStateStore.updated_at state) 10);
        [lia|reflexivity]. }
    destruct (disable_calls _ _ _ _ Hid H1) as (new & Hcalls & Hne & _).
    exists r, s', new. repeat split; try done.
    rewrite H5. apply get_after_upsert.
  - intros u Hgetu.
    assert (Hdispatch : DeviceWindow._handle_usb_event event u
                        = DeviceWindow._handle_arrival event u).
    { unfold DeviceWindow._handle_usb_event.
      apply truthy_true in Hid. rewrite Hid, Htype. reflexivity. }
    rewrite Hdispatch. split.
    + intros Hrecent. apply handle_arrival_echo.
      unfold DeviceWindow.echo_of_unlock. rewrite Hgetu, Hstatus.
      unfold DeviceWindow.RECENT_UNLOCK_SECONDS.
      destruct (Z.ltb_spec (PinStore.clock (DeviceWindow.pin_manager u)
                            - DeviceStateStore.updated_at state) 10); [reflexivity|lia].
    + intros Hsyn Hlate Hfree.
      destruct (handle_arrival_locks event u Hsyn Hfree) as (r & res & u' & H1 & H2 & H3 & H4).
      { unfold DeviceWindow.echo_of_unlock. rewrite Hgetu, Hstatus.
        unfold DeviceWindow.RECENT_UNLOCK_SECONDS.
        destruct (Z.ltb_spec (PinStore.clock (DeviceWindow.pin_manager u)
                              - DeviceStateStore.updated_at state) 10); [lia|reflexivity]. }
      destruct (disable_calls _ _ _ _ Hid H1) as (new & Hcalls & Hne & _).
      exists r, res, u', new. repeat split; try done.
      rewrite H3. apply get_after_upsert.
Qed.

(** The ledger file after a successful write gives the record back to a
    new instance. *)
Lemma recorded_on_disk now id drive volume status st :
  DeviceStateStore.writable st = true ->
  status <> "" ->
  exists s2,
    DeviceStateStore.__init__
      (DeviceStateStore.path (snd (DeviceStateStore.upsert now id drive volume status st)))
      true = (Ok tt, s2)
    /\ DeviceStateStore.get id s2
       = Some (DeviceStateStore.upserted now id drive volume status).
Proof.
  intros Hw Hstatus.
  destruct (upsert_persisted st now id drive volume status true Hw Hstatus)
    as (s' & -> & _ & s2 & Hinit & Hget & _).
  exists s2. done.
Qed.

(** Where the output of every subprocess decodes, handling an event
    never raises, whatever the toggle answers.  An
    arrival that is neither an echo of an unlock nor a duplicate in flight
    runs [disable] once and is recorded as locked, and a removal runs
    [disable] once and is recorded as removed, in memory and, where the
    ledger can be written, in its file, whether [disable] succeeded or not;
    a failure leaves an error or warning record in the log; and no segment
    of a worker puts an event on the queue, so nothing is tried again. *)
Theorem toggle_failure_is_absorbed event s :
  instance_id event <> "" ->
  fst (Service._process_event event s) = Ok tt
  /\ (event_type event <> "removal" ->
      Service.returns_early event s = false ->
      instance_id event ∉ Service._active_devices s ->
      exists r s',
        Service._process_event event s = (Ok tt, s')
        /\ DeviceLocker.disable (instance_id event) (Service.device_locker s)
           = (Ok r, Service.device_locker s')
        /\ DeviceStateStore.get (instance_id event) (Service._device_state_store s')
           = Some (DeviceStateStore.upserted (Service.clock s) (instance_id event)
                     (drive_letter event) (volume_name event) "locked")
        /\ (DeviceLocker.success r = false ->
            In (Service.ErrorFailedToDisable (instance_id event) (DeviceLocker.message r))
              (Service.logger s'))
        /\ (DeviceStateStore.writable (Service._device_state_store s) = true ->
            exists s2,
              DeviceStateStore.__init__
                (DeviceStateStore.path (Service._device_state_store s')) true = (Ok tt, s2)
              /\ DeviceStateStore.get (instance_id event) s2
                 = Some (DeviceStateStore.upserted (Service.clock s) (instance_id event)
                           (drive_letter event) (volume_name event) "locked")))
  /\ (event_type event = "removal" ->
      exists r s',
        Service._process_event event s = (Ok tt, s')
        /\ DeviceLocker.disable (instance_id event) (Service.device_locker s)
           = (Ok r, Service.device_locker s')
        /\ DeviceStateStore.get (instance_id event) (Service._device_state_store s')
           = Some (DeviceStateStore.upserted (Service.clock s) (instance_id event)
                     (drive_letter event) (volume_name event) "removed")
        /\ (DeviceLocker.success r = false ->
            In (Service.WarnFailedToDisableRemoved (instance_id event)
                  (DeviceLocker.message r))
              (Service.logger s'))
        /\ (DeviceStateStore.writable (Service._device_state_store s) = true ->
            exists s2,
              DeviceStateStore.__init__
                (DeviceStateStore.path (Service._device_state_store s')) true = (Ok tt, s2)
              /\ DeviceStateStore.get (instance_id event) s2
                 = Some (DeviceStateStore.upserted (Service.clock s) (instance_id event)
                           (drive_letter event) (volume_name event) "removed")))
  /\ (forall k p p',
        Workers.advance k p = Some p' ->
        Workers._event_queue p' = Workers._event_queue p
        \/ exists waiting, Workers._event_queue p = waiting :: Workers._event_queue p').
Proof.
  intros Hid. split; [apply process_event_returns|]. split; [|split].
  - intros Hrem Hearly Hfree.
    destruct (process_event_locks event s Hid Hrem Hearly Hfree)
      as (r & s' & H1 & H2 & H3 & H4 & H5 & H6).
    exists r, s'. split; [exact H2|]. split; [exact H1|].
    split; [rewrite H5; apply get_after_upsert|]. split; [exact H6|].
    intros Hw. rewrite H5. by apply recorded_on_disk.
  - intros Hrem.
    destruct (process_event_removal event s Hid Hrem)
      as (r & s' & H1 & H2 & H3 & H4 & H5 & H6).
    exists r, s'. split; [exact H2|]. split; [exact H1|].
    split; [rewrite H5; apply get_after_upsert|]. split; [exact H6|].
    intros Hw. rewrite H5. by apply recorded_on_disk.
  - apply advance_queue.
Qed.

(** C1, as the code has it.  For a synthetic arrival the service runs no
    toggle and writes nothing where the device is recorded as unlocked;
    where it is recorded otherwise, or not at all, and no other handler is
    busy with it, the service runs [disable] and records the device as
    locked, as for a physical arrival.  The device window runs no toggle
    and writes nothing for any synthetic arrival; it reports the recorded
    status, "unknown" for a device without record. *)
Theorem synthetic_arrival_policy event :
  synthetic event = true ->
  instance_id event <> "" ->
  event_type event = "arrival" ->
  (forall s state,
      DeviceStateStore.get (instance_id event) (Service._device_state_store s) = Some state ->
      DeviceStateStore.status state = "unlocked" ->
      exists s', Service._process_event event s = (Ok tt, s')
                 /\ Service.same_devices s s')
  /\ (forall s,
        (forall state,
            DeviceStateStore.get (instance_id event) (Service._device_state_store s)
            = Some state ->
            DeviceStateStore.status state <> "unlocked") ->
        instance_id event ∉ Service._active_devices s ->
        exists r s' new,
          Service._process_event event s = (Ok tt, s')
          /\ DeviceLocker.disable (instance_id event) (Service.device_locker s)
             = (Ok r, Service.device_locker s')
          /\ DeviceLocker.calls (Service.device_locker s')
             = (new ++ DeviceLocker.calls (Service.device_locker s))%list
          /\ new <> []
          /\ DeviceStateStore.get (instance_id event) (Service._device_state_store s')
             = Some (DeviceStateStore.upserted (Service.clock s) (instance_id event)
                       (drive_letter event) (volume_name event) "locked"))
  /\ (forall u,
        exists u',
          DeviceWindow._handle_usb_event event u = (Ok tt, u')
          /\ DeviceWindow.same_devices u u'
          /\ (instance_id event ∉ DeviceWindow.processing_devices u ->
              DeviceWindow.echo_of_unlock event u = false ->
              DeviceWindow.status_var u'
              = DeviceWindow.ExistingDeviceDetected (DeviceWindow.device_label event)
                  (DeviceWindow.current_status event u))).
Proof.
  intros Hsyn Hid Htype.
  assert (Hrem : event_type event <> "removal") by (rewrite Htype; discriminate).
  split; [|split].
  - intros s state Hget Hstatus. apply process_event_skipped; try done.
    rewrite (returns_early_unlocked event s state Hget Hstatus), Hsyn.
    apply orb_true_r.
  - intros s Hother Hfree.
    destruct (process_event_locks event s Hid Hrem) as (r & s' & H1 & H2 & H3 & H4 & H5 & H6);
      try done.
    { by apply returns_early_other. }
    destruct (disable_calls _ _ _ _ Hid H1) as (new & Hcalls & Hne & _).
    exists r, s', new. repeat split; try done.
    rewrite H5. apply get_after_upsert.
  - intros u.
    assert (Hdispatch : DeviceWindow._handle_usb_event event u
                        = DeviceWindow._handle_arrival event u).
    { unfold DeviceWindow._handle_usb_event.
      apply truthy_true in Hid. rewrite Hid, Htype. reflexivity. }
    rewrite Hdispatch. by apply handle_arrival_synthetic.
Qed.

(** C4, as the code has it.  As long as no worker takes up a removal of
    device [id] while the id is in the active set, the id is in the set
    exactly while one worker is in a [_process_usb_event] call for it (or
    in the [finally] clause after it), and no two workers are; a removal
    that is taken up while the id is not in the set leaves this as it is.
    From whatever state of the pool in which it holds, it goes on holding
    along every such run, and a step keeps it unless the step is such a
    taking up, which ends it.
    In one handling of an event that is not a removal, the id is tested and
    inserted in one step, an event whose id is in the set is dropped
    without a toggle or a write, and the set is the same before and after;
    a removal takes the id out of the set and runs [disable] without
    looking at the set. *)
Theorem active_set_discipline id s worker_count trace p :
  Workers.run trace (Workers.started s worker_count) = Some p ->
  Workers.never_overtaken id trace (Workers.started s worker_count) ->
  Workers.exclusive id (Workers._workers p)
    (Service._active_devices (Workers.service p))
  /\ (forall p1 trace1 p2,
        Workers.exclusive id (Workers._workers p1)
          (Service._active_devices (Workers.service p1)) ->
        Workers.run trace1 p1 = Some p2 ->
        Workers.never_overtaken id trace1 p1 ->
        Workers.exclusive id (Workers._workers p2)
          (Service._active_devices (Workers.service p2)))
  /\ (forall p1 l p2,
        Workers.exclusive id (Workers._workers p1)
          (Service._active_devices (Workers.service p1)) ->
        Workers.step l p1 = Some p2 ->
        if Workers.overtakes id l p1
        then ~ Workers.exclusive id (Workers._workers p2)
                 (Service._active_devices (Workers.service p2))
        else Workers.exclusive id (Workers._workers p2)
               (Service._active_devices (Workers.service p2)))
  /\ (forall event s0,
        (instance_id event ∈ Service._active_devices s0 ->
           exists s1, Service.enter_active event s0 = (Ok false, s1)
                      /\ Service.same_devices s0 s1)
        /\ (instance_id event ∉ Service._active_devices s0 ->
              Service.enter_active event s0
              = (Ok true,
                 Service.set_active_devices
                   (Service._active_devices s0 ∪ {[instance_id event]}) s0)))
  /\ (forall event s0,
        instance_id event <> "" ->
        event_type event <> "removal" ->
        (instance_id event ∈ Service._active_devices s0 ->
           exists s1, Service._process_event event s0 = (Ok tt, s1)
                      /\ Service.same_devices s0 s1)
        /\ Service._active_devices (snd (Service._process_event event s0))
           = Service._active_devices s0)
  /\ (forall event s0,
        instance_id event <> "" ->
        event_type event = "removal" ->
        exists r s1,
          Service._process_event event s0 = (Ok tt, s1)
          /\ Service._active_devices s1
             = Service._active_devices s0 ∖ {[instance_id event]}
          /\ DeviceLocker.disable (instance_id event) (Service.device_locker s0)
             = (Ok r, Service.device_locker s1)).
Proof.
  intros Hrun Hcalm.
  pose proof (run_exclusive id trace _ p Hrun Hcalm (started_exclusive id s worker_count))
    as Hex.
  split; [exact Hex|]. split; [|split; [|split; [|split]]].
  - intros p1 trace1 p2 Hex1 Hrun1 Hcalm1.
    exact (run_exclusive id trace1 p1 p2 Hrun1 Hcalm1 Hex1).
  - intros p1 l p2 Hex1 Hstep. destruct (Workers.overtakes id l p1) eqn:Hover.
    + exact (overtaking_breaks_exclusion id l p1 p2 Hstep Hover Hex1).
    + exact (step_exclusive id l p1 p2 Hstep Hover Hex1).
  - intros event s0. apply enter_active_spec.
  - intros event s0 Hid Hrem. split.
    + intros Hbusy. by apply process_event_dropped.
    + destruct (Service.returns_early event s0) eqn:Hearly.
      { destruct (process_event_skipped event s0 Hid Hrem Hearly)
          as (s1 & -> & _ & _ & H3 & _). exact H3. }
      destruct (decide (instance_id event ∈ Service._active_devices s0)) as [Hbusy|Hfree].
      { destruct (process_event_dropped event s0 Hid Hrem Hbusy)
          as (s1 & -> & _ & _ & H3 & _). exact H3. }
      destruct (process_event_locks event s0 Hid Hrem Hearly Hfree)
        as (r & s1 & _ & -> & H3 & _). exact H3.
  - intros event s0 Hid Hrem.
    destruct (process_event_removal event s0 Hid Hrem) as (r & s1 & H1 & H2 & H3 & _).
    exists r, s1. done.
Qed.

Context {platform : Platform}.
Variable config : LockPortConfig.

(** C10. Once a device is selected and the entered PIN was accepted by
    [verify_pin], [handle_unlock] runs [enable] on the selected device.  If
    [enable] succeeds the device is recorded as unlocked; if it fails with
    a message that reports the device missing, the device is recorded as
    removed; on any other failure the ledger is left alone.  Where the
    ledger can be written the handler returns and the record is in the
    file. *)
Theorem manual_unlock_records_outcome u state pin u0 u1 u2 :
  DeviceWindow._require_selection u = (Ok (Some state), u0) ->
  DeviceWindow.entered_pin u0 = (Ok pin, u1) ->
  pin <> "" ->
  DeviceWindow.check_pin config pin u1 = (Ok true, u2) ->
  let id := DeviceStateStore.instance_id state in
  PinStore.verify_pin config pin (DeviceWindow.pin_manager u1)
  = (Ok true, DeviceWindow.pin_manager u2)
  /\ exists r res u',
       DeviceWindow.handle_unlock config u = (res, u')
       /\ DeviceLocker.enable id (DeviceWindow.locker u) = (Ok r, DeviceWindow.locker u')
       /\ (DeviceLocker.success r = true ->
           DeviceStateStore.get id (DeviceWindow.store u')
           = Some (DeviceWindow.updated id "unlocked" u2))
       /\ (DeviceLocker.success r = false ->
           DeviceLocker.is_device_missing r = true ->
           DeviceStateStore.get id (DeviceWindow.store u')
           = Some (DeviceWindow.updated id "removed" u2))
       /\ (DeviceLocker.success r = false ->
           DeviceLocker.is_device_missing r = false ->
           DeviceWindow.store u' = DeviceWindow.store u)
       /\ (DeviceStateStore.writable (DeviceWindow.store u) = true ->
           res = Ok tt
           /\ (DeviceLocker.success r = true ->
               exists s2,
                 DeviceStateStore.__init__
                   (DeviceStateStore.path (DeviceWindow.store u')) true = (Ok tt, s2)
                 /\ DeviceStateStore.get id s2
                    = Some (DeviceWindow.updated id "unlocked" u2))
           /\ (DeviceLocker.success r = false ->
               DeviceLocker.is_device_missing r = true ->
               exists s2,
                 DeviceStateStore.__init__
                   (DeviceStateStore.path (DeviceWindow.store u')) true = (Ok tt, s2)
                 /\ DeviceStateStore.get id s2
                    = Some (DeviceWindow.updated id "removed" u2))).
Proof.
  intros Hsel Hpin Hne Hcheck id.
  destruct (require_selection_frame u _ u0 Hsel) as (S0 & L0 & P0 & V0).
  destruct (entered_pin_frame u0 _ u1 Hpin) as (S1 & L1 & V1 & C1).
  destruct (check_pin_accepts config pin u1 u2 Hcheck) as (Hverify & S2 & L2 & V2).
  split; [exact Hverify|].
  assert (Hrun : DeviceWindow.handle_unlock config u
                 = DeviceWindow.unlock_selected state u2).
  { unfold DeviceWindow.handle_unlock. unfold bind at 1. rewrite Hsel.
    unfold bind at 1. rewrite Hpin.
    apply truthy_true in Hne. rewrite Hne. cbn [negb].
    unfold bind at 1. rewrite Hcheck. reflexivity. }
  rewrite Hrun.
  destruct (unlock_selected_spec state u2) as (r & res & u' & H1 & H2 & H3 & H4 & H5 & H6).
  fold id in H1, H3, H4, H5.
  assert (Hstore : DeviceWindow.store u2 = DeviceWindow.store u) by congruence.
  assert (Hlocker : DeviceWindow.locker u2 = DeviceWindow.locker u) by congruence.
  exists r, res, u'. split; [exact H2|]. split; [by rewrite <- Hlocker|].
  split; [|split; [|split; [|]]].
  - intros Hs. rewrite (H3 Hs). apply get_after_upsert.
  - intros Hs Hm. rewrite (H4 Hs Hm). apply get_after_upsert.
  - intros Hs Hm. rewrite (H5 Hs Hm). exact Hstore.
  - intros Hw. rewrite <- Hstore in Hw. split; [exact (H6 Hw)|]. split.
    + intros Hs. rewrite (H3 Hs). by apply recorded_on_disk.
    + intros Hs Hm. rewrite (H4 Hs Hm). by apply recorded_on_disk.
Qed.

End PolicyFacts.

(** * Further properties of the credential store *)

Section CredentialFacts.
Import PinStore.
Context {platform : Platform}.
Variable config : LockPortConfig.

(** A read of a store that has its file changes nothing but the log of
    file operations. *)
Lemma read_keeps w p :
  store_file w = Some p ->
  exists w', _read config w = (Ok p, w')
    /\ store_file w' = Some p /\ cache_file w' = cache_file w
    /\ clock w' = clock w /\ draws w' = draws w /\ entropy w' = entropy w.
Proof.
  intros H. rewrite (read_present config w p H). eexists. split; [reflexivity|].
  cbn. auto.
Qed.

(** The four ways in which [verify_pin] ends on a store that has its
    file, with what each leaves in the file. *)
Lemma verify_pin_cases w p candidate :
  store_file w = Some p ->
  exists r w',
    verify_pin config candidate w = (r, w')
    /\ clock w' = clock w /\ draws w' = draws w
    /\ ((r = Raise (PinLockedError "PIN entry temporarily locked")
         /\ clock w < default 0 (lock_until p)
         /\ store_file w' = Some p /\ cache_file w' = cache_file w)
        \/ (r = Raise BinasciiError
            /\ default 0 (lock_until p) <= clock w
            /\ verify (pin p) candidate = None
            /\ store_file w' = Some p /\ cache_file w' = cache_file w)
        \/ (r = Ok true
            /\ default 0 (lock_until p) <= clock w
            /\ verify (pin p) candidate = Some true
            /\ store_file w' = Some (with_counters (Some 0) (Some 0) (Some (clock w)) p))
        \/ (r = Raise (PinValidationError "Invalid PIN")
            /\ default 0 (lock_until p) <= clock w
            /\ verify (pin p) candidate = Some false
            /\ store_file w' = Some (after_mismatch config (clock w) p)
            /\ cache_file w' = cache_file w)).
Proof.
  intros Hp. unfold verify_pin, bind at 1. rewrite (read_present config w p Hp).
  unfold bind at 1, time_time, gets. cbn [clock log_io].
  destruct (Z.gtb_spec (default 0 (lock_until p)) (clock w)).
  - eexists _, _. split; [reflexivity|]. cbn. split; [reflexivity|]. split; [reflexivity|].
    left. auto.
  - destruct (verify (pin p) candidate) as [[|]|] eqn:Hv.
    + unfold _cache_last_pin.
      destruct win32crypt as [api|]; [destruct (CryptProtectData api _ ≫= second_item)|];
        (eexists _, _; split; [reflexivity|]; cbn; split; [reflexivity|];
         split; [reflexivity|]; right; right; left; auto).
    + eexists _, _. split; [reflexivity|]. cbn. split; [reflexivity|].
      split; [reflexivity|]. right. right. right. unfold after_mismatch. auto.
    + eexists _, _. split; [reflexivity|]. cbn. split; [reflexivity|].
      split; [reflexivity|]. right. left. auto.
Qed.

Lemma after_mismatch_pin now p : pin (after_mismatch config now p) = pin p.
Proof. unfold after_mismatch. by destruct (_ >=? _). Qed.

Lemma reset_lockout_spec w p :
  store_file w = Some p ->
  exists w',
    reset_lockout config w = (Ok tt, w')
    /\ store_file w' = Some (with_counters (Some 0) (Some 0) (updated_at p) p)
    /\ cache_file w' = cache_file w /\ clock w' = clock w.
Proof.
  intros Hp. unfold reset_lockout, bind. rewrite (read_present config w p Hp).
  eexists. split; [reflexivity|]. cbn. auto.
Qed.

(** X1. [reset_lockout] zeroes the failure counter and the lockout
    deadline and keeps the PIN record, the time of the last update and
    the PIN cache; the right PIN is accepted at once afterwards, whatever
    lockout was in force. *)
Theorem reset_lockout_lifts_lockout w p candidate :
  store_file w = Some p ->
  0 <= clock w ->
  verify (pin p) candidate = Some true ->
  exists w1 p1,
    reset_lockout config w = (Ok tt, w1)
    /\ store_file w1 = Some p1
    /\ pin p1 = pin p
    /\ failed_attempts p1 = Some 0
    /\ lock_until p1 = Some 0
    /\ updated_at p1 = updated_at p
    /\ cache_file w1 = cache_file w
    /\ exists w2, verify_pin config candidate w1 = (Ok true, w2).
Proof.
  intros Hp Hclock Hgood.
  destruct (reset_lockout_spec w p Hp) as (w1 & Hrun & Hfile & Hcache & Hclock1).
  eexists w1, _. split; [exact Hrun|]. split; [exact Hfile|].
  do 5 (split; [first [reflexivity | exact Hcache]|]).
  destruct (verify_pin_accepts config w1 _ candidate Hfile) as (w2 & Hv & _).
  - cbn. lia.
  - exact Hgood.
  - by exists w2.
Qed.

Lemma well_formed_passes new_pin :
  PyStr.isdigit new_pin = true ->
  4 <= PyStr.len new_pin <= 8 ->
  negb (PyStr.isdigit new_pin)
  || negb ((4 <=? PyStr.len new_pin) && (PyStr.len new_pin <=? 8)) = false.
Proof.
  intros -> [Hlo Hhi].
  destruct (Z.leb_spec 4 (PyStr.len new_pin)); [|lia].
  destruct (Z.leb_spec (PyStr.len new_pin) 8); [|lia]. reflexivity.
Qed.

Lemma set_pin_wrong_current w p new_pin current :
  store_file w = Some p ->
  PyStr.isdigit new_pin = true ->
  4 <= PyStr.len new_pin <= 8 ->
  clock w < default 0 (lock_until p) \/ verify (pin p) current = Some false ->
  exists w' p',
    set_pin config new_pin (Some current) w
    = (Raise (PinValidationError "Current PIN validation failed"), w')
    /\ store_file w' = Some p'
    /\ p' = (if clock w <? default 0 (lock_until p) then p
             else after_mismatch config (clock w) p)
    /\ pin p' = pin p
    /\ draws w' = draws w
    /\ cache_file w' = cache_file w.
Proof.
  intros Hp Hdigit Hlen Hbad. unfold set_pin.
  rewrite (well_formed_passes new_pin Hdigit Hlen).
  unfold bind at 1, try_except. unfold bind at 1.
  destruct (verify_pin_cases w p current Hp) as (r & w' & -> & Hclock & Hdraws & Hcases).
  destruct Hcases as [(-> & Hlock & Hfile & Hcache)
                     |[(-> & Hlock & Hnone & _)
                      |[(-> & Hlock & Hgood & _)
                       |(-> & Hlock & Hv & Hfile & Hcache)]]].
  - eexists w', p. split; [reflexivity|]. split; [exact Hfile|].
    destruct (Z.ltb_spec (clock w) (default 0 (lock_until p))); [|lia]. auto.
  - destruct Hbad as [Hbad|Hbad]; [lia|congruence].
  - destruct Hbad as [Hbad|Hbad]; [lia|congruence].
  - eexists w', _. split; [reflexivity|]. split; [exact Hfile|].
    destruct (Z.ltb_spec (clock w) (default 0 (lock_until p))); [lia|].
    split; [reflexivity|]. split; [apply after_mismatch_pin|]. auto.
Qed.

(** X2. A PIN change under a current PIN that is refused, or during a
    lockout, raises [PinValidationError] "Current PIN validation failed":
    no salt is drawn, the PIN record and the cache stay, and a refused
    current PIN is counted as a failed attempt like any other. *)
Theorem set_pin_refuses_wrong_current w p new_pin current :
  store_file w = Some p ->
  PyStr.isdigit new_pin = true ->
  4 <= PyStr.len new_pin <= 8 ->
  clock w < default 0 (lock_until p) \/ verify (pin p) current = Some false ->
  exists w' p',
    set_pin config new_pin (Some current) w
    = (Raise (PinValidationError "Current PIN validation failed"), w')
    /\ store_file w' = Some p'
    /\ p' = (if clock w <? default 0 (lock_until p) then p
             else after_mismatch config (clock w) p)
    /\ pin p' = pin p
    /\ draws w' = draws w
    /\ cache_file w' = cache_file w.
Proof. exact (set_pin_wrong_current w p new_pin current). Qed.

Lemma verify_each_app tries1 : forall tries2 w,
  verify_each config (tries1 ++ tries2) w
  = let '(rs1, w1) := verify_each config tries1 w in
    let '(rs2, w2) := verify_each config tries2 w1 in
    ((rs1 ++ rs2)%list, w2).
Proof.
  induction tries1 as [|[now candidate] rest IH]; intros tries2 w; cbn [verify_each app].
  - by destruct (verify_each config tries2 w).
  - destruct (verify_pin config candidate (set_clock now w)) as [r w1].
    rewrite IH. destruct (verify_each config rest w1) as [rs1 w2].
    by destruct (verify_each config tries2 w2).
Qed.

(** X3. Whatever candidates are tried and whenever, [verify_pin] keeps
    the PIN record, and keeps the failure counter from 0 to below the
    attempt limit. *)
Theorem failed_attempts_stay_below_limit tries : forall w p,
  store_file w = Some p ->
  0 <= default 0 (failed_attempts p) < pin_attempt_limit config ->
  exists p',
    store_file (snd (verify_each config tries w)) = Some p'
    /\ pin p' = pin p
    /\ 0 <= default 0 (failed_attempts p') < pin_attempt_limit config.
Proof.
  induction tries as [|[now candidate] rest IH]; intros w p Hp Hfa; cbn [verify_each].
  - by exists p.
  - destruct (verify_pin_cases (set_clock now w) p candidate Hp)
      as (r & w1 & -> & _ & _ & Hcases).
    assert (Hstep : exists p1, store_file w1 = Some p1 /\ pin p1 = pin p
              /\ 0 <= default 0 (failed_attempts p1) < pin_attempt_limit config).
    { destruct Hcases as [(_ & _ & Hfile & _)|[(_ & _ & _ & Hfile & _)
                         |[(_ & _ & _ & Hfile)|(_ & _ & _ & Hfile & _)]]].
      - by exists p.
      - by exists p.
      - eexists. split; [exact Hfile|]. cbn. split; [reflexivity|lia].
      - eexists. split; [exact Hfile|]. split; [apply after_mismatch_pin|].
        unfold after_mismatch.
        destruct (Z.geb_spec (default 0 (failed_attempts p) + 1) (pin_attempt_limit config));
          cbn; lia. }
    destruct Hstep as (p1 & Hfile1 & Hpin1 & Hfa1).
    destruct (IH w1 p1 Hfile1 Hfa1) as (p' & Hfile' & Hpin' & Hfa').
    destruct (verify_each config rest w1) as [rs w2]. cbn [snd] in *.
    exists p'. split; [exact Hfile'|]. split; [congruence|exact Hfa'].
Qed.

Lemma mismatch_run tries : forall w p,
  store_file w = Some p ->
  0 <= default 0 (failed_attempts p) ->
  Z.of_nat (length tries) + default 0 (failed_attempts p) < pin_attempt_limit config ->
  Forall (fun try => default 0 (lock_until p) <= fst try
                     /\ verify (pin p) (snd try) = Some false) tries ->
  exists w' p',
    verify_each config tries w
    = (replicate (length tries) (Raise (PinValidationError "Invalid PIN")), w')
    /\ store_file w' = Some p'
    /\ pin p' = pin p
    /\ default 0 (failed_attempts p')
       = default 0 (failed_attempts p) + Z.of_nat (length tries)
    /\ default 0 (lock_until p') = default 0 (lock_until p)
    /\ updated_at p' = updated_at p
    /\ cache_file w' = cache_file w.
Proof.
  induction tries as [|[now candidate] rest IH]; intros w p Hp Hfa Hlen Hall.
  - exists w, p. cbn. repeat split; auto. lia.
  - apply Forall_cons in Hall as [[Hnow Hbad] Hrest]. cbn [fst snd] in Hnow, Hbad.
    cbn [length] in Hlen.
    destruct (verify_pin_cases (set_clock now w) p candidate Hp)
      as (r & w1 & Hrun & _ & _ & Hcases). cbn [clock set_clock] in Hcases.
    destruct Hcases as [(_ & Hlock & _)|[(_ & _ & Hnone & _)
                       |[(_ & _ & Hgood & _)|(-> & _ & _ & Hfile & Hcache)]]];
      [lia|congruence|congruence|].
    assert (Hstep : after_mismatch config now p
                    = with_counters (Some (default 0 (failed_attempts p) + 1))
                        (lock_until p) (updated_at p) p).
    { unfold after_mismatch.
      destruct (Z.geb_spec (default 0 (failed_attempts p) + 1) (pin_attempt_limit config));
        [lia|reflexivity]. }
    rewrite Hstep in Hfile.
    destruct (IH w1 _ Hfile) as (w2 & p2 & Hrun2 & Hfile2 & Hpin2 & Hfa2 & Hlock2 & Hup2 & Hc2).
    + cbn. lia.
    + cbn. lia.
    + exact Hrest.
    + cbn [verify_each]. rewrite Hrun, Hrun2. exists w2, p2.
      split; [reflexivity|]. split; [exact Hfile2|]. split; [exact Hpin2|].
      cbn in Hfa2, Hlock2, Hup2. cbn [length].
      split; [lia|]. split; [exact Hlock2|]. split; [exact Hup2|].
      rewrite Hc2. exact Hcache.
Qed.

(** X4. Refused attempts that stay below the attempt limit are counted
    one by one and lock nothing; the right PIN is then accepted and
    the counter is back at 0. *)
Theorem accepted_pin_clears_failures w p tries now good :
  store_file w = Some p ->
  0 <= default 0 (failed_attempts p) ->
  Z.of_nat (length tries) + default 0 (failed_attempts p) < pin_attempt_limit config ->
  Forall (fun try => default 0 (lock_until p) <= fst try
                     /\ verify (pin p) (snd try) = Some false) tries ->
  default 0 (lock_until p) <= now ->
  verify (pin p) good = Some true ->
  exists w1 p1 w2,
    verify_each config tries w
    = (replicate (length tries) (Raise (PinValidationError "Invalid PIN")), w1)
    /\ store_file w1 = Some p1
    /\ default 0 (failed_attempts p1)
       = default 0 (failed_attempts p) + Z.of_nat (length tries)
    /\ default 0 (lock_until p1) = default 0 (lock_until p)
    /\ verify_each config (tries ++ [(now, good)]) w
       = ((replicate (length tries) (Raise (PinValidationError "Invalid PIN"))
           ++ [Ok true])%list, w2)
    /\ store_file w2 = Some (with_counters (Some 0) (Some 0) (Some now) p).
Proof.
  intros Hp Hfa Hlen Hall Hnow Hgood.
  destruct (mismatch_run tries w p Hp Hfa Hlen Hall)
    as (w1 & p1 & Hrun & Hfile & Hpin & Hfa1 & Hlock1 & Hup1 & _).
  destruct (verify_pin_accepts config (set_clock now w1) p1 good Hfile)
    as (w2 & Hacc & Hfile2 & _).
  { cbn. lia. }
  { by rewrite Hpin. }
  exists w1, p1, w2. split; [exact Hrun|]. split; [exact Hfile|].
  split; [exact Hfa1|]. split; [exact Hlock1|].
  rewrite verify_each_app, Hrun. cbn [verify_each]. rewrite Hacc.
  split; [reflexivity|]. rewrite Hfile2. cbn [clock set_clock].
  unfold with_counters. by rewrite Hpin.
Qed.

(** X5. [get_status] changes neither the store nor the cache, reports the
    stored counter, and reports a lockout exactly when [verify_pin] would
    refuse every candidate with [PinLockedError]. *)
Theorem status_agrees_with_verify_pin w p candidate :
  store_file w = Some p ->
  exists status w1,
    get_status config w = (Ok status, w1)
    /\ store_file w1 = Some p
    /\ cache_file w1 = cache_file w
    /\ st_failed_attempts status = default 0 (failed_attempts p)
    /\ st_lock_until status = default 0 (lock_until p)
    /\ (st_locked status = true
        <-> fst (verify_pin config candidate w)
            = Raise (PinLockedError "PIN entry temporarily locked")).
Proof.
  intros Hp. unfold get_status, bind at 1. rewrite (read_present config w p Hp).
  unfold bind, time_time, gets, ret. cbn [clock log_io].
  eexists _, _. split; [reflexivity|]. cbn [st_failed_attempts st_lock_until st_locked].
  split; [exact Hp|]. split; [reflexivity|]. split; [reflexivity|]. split; [reflexivity|].
  destruct (verify_pin_cases w p candidate Hp) as (r & w' & -> & _ & _ & Hcases).
  cbn [fst].
  destruct (Z.gtb_spec (default 0 (lock_until p)) (clock w)) as [Hlt|Hge].
  - split; [|reflexivity]. intros _.
    destruct Hcases as [(-> & _)|[(_ & Hlock & _)|[(_ & Hlock & _)|(_ & Hlock & _)]]];
      [reflexivity|lia..].
  - split; [discriminate|]. intros ->.
    destruct Hcases as [(_ & Hlock & _)|[(Hr & _)|[(Hr & _)|(Hr & _)]]];
      [lia|discriminate..].
Qed.

Lemma clear_cached_pin_clears w :
  exists w', _clear_cached_pin w = (Ok tt, w')
    /\ cache_file w' = None /\ store_file w' = store_file w.
Proof.
  unfold _clear_cached_pin, bind, cache_exists.
  case_bool_decide as Hc.
  - eexists. split; [reflexivity|]. cbn. auto.
  - eexists. split; [reflexivity|]. cbn. split; [|reflexivity].
    destruct (cache_file w); [|reflexivity]. exfalso. apply Hc. by eexists.
Qed.

Lemma get_cached_pin_missing max_age w :
  cache_file w = None ->
  fst (get_cached_pin max_age w) = Ok None.
Proof.
  intros Hc. unfold get_cached_pin. destruct win32crypt as [api|]; [|reflexivity].
  unfold try_except, bind at 1, cache_read_text. rewrite Hc. reflexivity.
Qed.

(** X6. Once [set_pin] has returned, the cache file is gone: no reading
    of the cache gives a PIN, at whatever time and for whatever age
    limit. *)
Theorem set_pin_forgets_cached_pin w new_pin current_pin w1 :
  set_pin config new_pin current_pin w = (Ok tt, w1) ->
  cache_file w1 = None
  /\ forall now max_age,
       fst (get_cached_pin max_age (set_clock now w1)) = Ok None.
Proof.
  intros Hset.
  assert (Hgone : cache_file w1 = None).
  { revert Hset. unfold set_pin.
    destruct (negb _ || negb _); [discriminate|].
    unfold bind at 1.
    match goal with |- context [match ?m w with _ => _ end] =>
      destruct (m w) as [[[]|e] w0]; [|discriminate] end.
    unfold bind at 1. destruct (from_pin _ _ w0) as [[record|e] w2]; [|discriminate].
    unfold bind at 1. destruct (_read config w2) as [[payload|e] w3]; [|discriminate].
    unfold bind at 1, time_time, gets. unfold bind at 1, _write, store_write_text, modify.
    match goal with |- context [_clear_cached_pin ?v] =>
      destruct (clear_cached_pin_clears v) as (w4 & -> & Hc & _) end.
    by intros [= <-]. }
  split; [exact Hgone|]. intros now max_age. by apply get_cached_pin_missing.
Qed.

(** X7. An accepted PIN is written to the cache only where
    [CryptProtectData] returns a pair, whose second component is then what
    is stored.  Where it returns the encrypted bytes alone, as pywin32
    does, or raises, the cache file is left as it was: if there was none,
    no later reading of the cache gives a PIN.  In the case of the pair,
    if [CryptUnprotectData] decrypts the stored bytes and the codec
    decodes what it encoded, the PIN can be read back until it is older
    than the age limit, and not afterwards. *)
Theorem accepted_pin_is_cached_from_a_pair_only api w p candidate :
  win32crypt = Some api ->
  store_file w = Some p ->
  default 0 (lock_until p) <= clock w ->
  verify (pin p) candidate = Some true ->
  exists w1,
    verify_pin config candidate w = (Ok true, w1)
    /\ cache_file w1
       = match CryptProtectData api (PyStr.encode candidate) with
         | Some (ProtectedPair _ encrypted) =>
             Some {| ts := clock w; blob := b64encode encrypted |}
         | _ => cache_file w
         end
    /\ (forall data,
          CryptProtectData api (PyStr.encode candidate) = Some (ProtectedBytes data) ->
          cache_file w = None ->
          forall later max_age,
            fst (get_cached_pin max_age (set_clock later w1)) = Ok None)
    /\ (forall description encrypted,
          CryptProtectData api (PyStr.encode candidate)
          = Some (ProtectedPair description encrypted) ->
          CryptUnprotectData api encrypted = Some (PyStr.encode candidate) ->
          codec_sound ->
          forall later max_age,
            fst (get_cached_pin max_age (set_clock later w1))
            = Ok (if later - clock w >? max_age then None else Some candidate)).
Proof.
  intros Hapi Hp Hlock Hgood.
  unfold verify_pin, bind at 1. rewrite (read_present config w p Hp).
  unfold bind at 1, time_time, gets. cbn [clock log_io].
  destruct (Z.gtb_spec (default 0 (lock_until p)) (clock w)); [lia|].
  rewrite Hgood. unfold _cache_last_pin. rewrite Hapi.
  destruct (CryptProtectData api (PyStr.encode candidate)) as [[data|description data]|]
    eqn:He; cbn [mbind option_bind second_item].
  - eexists. split; [reflexivity|]. split; [reflexivity|]. split; [|discriminate].
    intros _ _ Hnone later max_age. by apply get_cached_pin_missing.
  - eexists. split; [reflexivity|]. split; [reflexivity|]. split; [discriminate|].
    intros ? ? [= <- <-] Hback Hcodec later max_age.
    unfold get_cached_pin. rewrite Hapi.
    unfold try_except, bind, cache_read_text, time_time, gets. cbn.
    destruct (later - clock w >? max_age); [reflexivity|]. cbn.
    rewrite Hcodec. cbn. rewrite Hback. cbn. by rewrite decode_encode.
  - eexists. split; [reflexivity|]. split; [reflexivity|]. split; discriminate.
Qed.

End CredentialFacts.

(** * Further properties of the device state ledger *)

Section LedgerRestartFacts.
Import DeviceStateStore.
Context {conversions : Conversions}.

Lemma reloaded_id state : status state <> "" -> reloaded state = state.
Proof.
  intros H. destruct state as [i d v s t]. unfold reloaded. cbn in *.
  destruct s; [done|reflexivity].
Qed.

(** X8. After an [upsert] that reached the disk, a new instance over the
    file holds the whole ledger, not only the record of the call: the
    same ids, each record with the fields it had, but for an empty
    status, which comes back as "unknown". *)
Theorem restart_keeps_every_record s now id drive volume status can_write :
  writable s = true ->
  exists s' s2,
    upsert now id drive volume status s = (Ok tt, s')
    /\ __init__ (path s') can_write = (Ok tt, s2)
    /\ _cache s2 = reloaded <$> _cache s'
    /\ (forall key state,
          get key s' = Some state -> DeviceStateStore.status state <> "" ->
          get key s2 = Some state)
    /\ (forall key, get key s' = None -> get key s2 = None)
    /\ length (list_states s2) = length (list_states s').
Proof.
  intros Hw.
  destruct (upsert_writable s now id drive volume status Hw)
    as (s' & Hrun & Hcache & Hw' & Hpersist).
  destruct (restart_after_persist (set_cache (_cache s') s) can_write Hw)
    as (file & Hp & Hinit).
  rewrite Hpersist in Hp. injection Hp as Hs'.
  assert (Hpath : path s' = file) by (by rewrite Hs').
  cbn [set_cache _cache] in Hinit.
  eexists s', _. split; [exact Hrun|]. split; [rewrite Hpath; exact Hinit|].
  unfold get, list_states. cbn [_cache]. split; [reflexivity|]. split; [|split].
  - intros key state Hkey Hstatus. rewrite lookup_fmap, Hkey. cbn.
    by rewrite reloaded_id.
  - intros key Hkey. by rewrite lookup_fmap, Hkey.
  - rewrite !length_fmap, !length_map_to_list. apply map_size_fmap.
Qed.

(** X9. Where the file cannot be opened for writing, [upsert] raises
    [OSError] with the record in memory and the file as it was; [reload]
    then gives what it would have given before the call, so the record is
    lost.  Whatever a failed write has left in the file, [reload] rebuilds
    the ledger from the file alone: nothing of the memory before it is
    kept, and from a file that is no JSON text the ledger comes back
    empty. *)
Theorem unwritten_record_is_lost_on_reload s now id drive volume status :
  writable s = false ->
  exists s',
    upsert now id drive volume status s = (Raise OSError, s')
    /\ get id s' = Some (upserted now id drive volume status)
    /\ path s' = path s
    /\ reload s' = reload s
    /\ get id (snd (reload s')) = get id (snd (__init__ (path s) false))
    /\ (forall left,
          fst (reload (set_path left s')) = fst (__init__ left false)
          /\ _cache (snd (reload (set_path left s')))
             = _cache (snd (__init__ left false)))
    /\ _cache (snd (reload (set_path Unreadable s'))) = ∅.
Proof.
  intros Hw. unfold upsert, bind at 1, modify, _persist. cbn [set_cache writable].
  rewrite Hw. eexists. split; [reflexivity|]. split; [apply lookup_insert_eq|].
  split; [reflexivity|].
  assert (Hsame : forall c, reload (set_cache c s) = reload s).
  { intros c. unfold reload, bind, modify. reflexivity. }
  split; [apply Hsame|]. rewrite Hsame.
  split; [unfold reload, bind, modify, __init__, set_cache; cbn; by rewrite Hw|].
  split; [|reflexivity].
  intros left. unfold reload, bind, modify, __init__, _load, on_cache. cbn.
  destruct left as [| | |[| | | | |members]]; cbn; try done.
  by destruct (load_entries members ∅).
Qed.

Lemma load_entries_app before : forall rest c,
  load_entries (before ++ rest) c
  = match load_entries before c with
    | (Ok _, c') => load_entries rest c'
    | (Raise e, c') => (Raise e, c')
    end.
Proof.
  induction before as [|[k v] before IH]; intros rest c; [reflexivity|].
  cbn [app load_entries]. unfold bind.
  destruct (load_entry k v c) as [[[]|e] c1]; [apply IH|reflexivity].
Qed.

(** X10. What [_load] does with a damaged file: a file that is missing,
    that cannot be read or holds no JSON text, or whose document is not an
    object, gives an empty ledger; a file whose bytes are no text ends the
    constructor with [UnicodeDecodeError], which is not caught; an entry
    whose [updated_at] is a string that [float] rejects is skipped,
    wherever it stands, and the others are loaded as without it; a member
    that is not an object ends the constructor with [AttributeError],
    after the members before it. *)
Theorem load_of_damaged_file can_write :
  (forall file,
      match file with Document (JObj _) | Undecodable => False | _ => True end ->
      __init__ file can_write
      = (Ok tt, {| _cache := ∅; path := file; writable := can_write |}))
  /\ __init__ Undecodable can_write
     = (Raise UnicodeDecodeError,
        {| _cache := ∅; path := Undecodable; writable := can_write |})
  /\ (forall before key members text rest,
        Json.get "updated_at" members (JNum 0) = JStr text ->
        py_float text = None ->
        (forall c, load_entries (before ++ (key, JObj members) :: rest) c
                   = load_entries (before ++ rest) c)
        /\ fst (__init__ (Document (JObj (before ++ (key, JObj members) :: rest)))
                  can_write)
           = fst (__init__ (Document (JObj (before ++ rest))) can_write)
        /\ _cache (snd (__init__ (Document (JObj (before ++ (key, JObj members) :: rest)))
                          can_write))
           = _cache (snd (__init__ (Document (JObj (before ++ rest))) can_write)))
  /\ (forall before key value rest cache,
        match value with JObj _ => False | _ => True end ->
        load_entries before ∅ = (Ok tt, cache) ->
        __init__ (Document (JObj (before ++ (key, value) :: rest))) can_write
        = (Raise AttributeError,
           {| _cache := cache;
              path := Document (JObj (before ++ (key, value) :: rest));
              writable := can_write |})).
Proof.
  split; [|split; [|split]].
  - intros file Hfile. unfold __init__, _load. cbn [path].
    destruct file as [| | |[]]; done.
  - reflexivity.
  - intros before key members text rest Hget Hfloat.
    assert (Hskip : forall c, load_entries (before ++ (key, JObj members) :: rest) c
                              = load_entries (before ++ rest) c).
    { intros c. rewrite !load_entries_app.
      destruct (load_entries before c) as [[[]|e] c1]; [|reflexivity].
      cbn [load_entries]. unfold bind, load_entry. rewrite Hget.
      cbn [parse_updated_at]. by rewrite Hfloat. }
    split; [exact Hskip|].
    unfold __init__, _load, on_cache. cbn [path _cache]. rewrite Hskip.
    by destruct (load_entries (before ++ rest) ∅) as [r c].
  - intros before key value rest cache Hvalue Hbefore.
    unfold __init__, _load, on_cache. cbn [path _cache].
    rewrite load_entries_app, Hbefore. cbn [load_entries]. unfold bind, load_entry.
    destruct value; done.
Qed.

End LedgerRestartFacts.

(** * Further properties of the device window *)

Section ViewFacts.
Import UsbMonitor DeviceWindow.

Lemma foldl_snoc {A B} (f : A -> B -> A) l : forall a x,
  foldl f a (l ++ [x]) = f (foldl f a l) x.
Proof. induction l as [|y l IH]; intros a x; cbn; [reflexivity|apply IH]. Qed.

Lemma index_by_id (l : list DeviceStateStore.DeviceState) :
  foldl (fun m state => <[DeviceStateStore.instance_id state := state]> m)
    (∅ : gmap string DeviceStateStore.DeviceState) l
  = list_to_map ((fun state => (DeviceStateStore.instance_id state, state)) <$> reverse l).
Proof.
  induction l as [|x l IH] using rev_ind; [reflexivity|].
  rewrite foldl_snoc, IH, reverse_app. reflexivity.
Qed.

(** What [refresh] leaves in [latest_states] for a ledger that files
    every record under its own id. *)
Lemma refresh_view u :
  keyed (DeviceStateStore._cache (store u)) ->
  exists u',
    refresh u = (Ok tt, u')
    /\ latest_states u' = DeviceStateStore._cache (store u)
    /\ store u' = store u /\ locker u' = locker u /\ pin_manager u' = pin_manager u
    /\ processing_devices u' = processing_devices u
    /\ status_var u' = status_var u /\ pin_var u' = pin_var u.
Proof.
  intros Hkeyed. unfold refresh, modify. eexists. split; [reflexivity|].
  cbn [latest_states store locker pin_manager processing_devices status_var pin_var set_view].
  split; [|done].
  rewrite index_by_id. symmetry. apply list_to_map_flip.
  rewrite reverse_Permutation, merge_sort_Permutation.
  unfold DeviceStateStore.list_states. rewrite <- list_fmap_compose.
  erewrite (list_fmap_ext _ id); [by rewrite list_fmap_id|].
  intros i [key state] Hi. cbn.
  assert ((key, state) ∈ map_to_list (DeviceStateStore._cache (store u))) as Hin
    by (eapply list_elem_of_lookup_2; exact Hi).
  apply elem_of_map_to_list in Hin. by rewrite (Hkeyed key state Hin).
Qed.

Lemma keyed_insert cache state :
  keyed cache ->
  keyed (<[DeviceStateStore.instance_id state := state]> cache).
Proof.
  intros H key st Hkey.
  destruct (decide (key = DeviceStateStore.instance_id state)) as [->|Hne].
  - rewrite lookup_insert_eq in Hkey. by injection Hkey as <-.
  - rewrite lookup_insert_ne in Hkey by done. by apply H.
Qed.

(** X11. In a window whose ledger files every record under its own id,
    [_update_state] leaves the table in step with the ledger: both hold
    the new record under the id, with the drive and the volume that the
    table showed for it, and the ledger is still keyed by id. *)
Theorem update_state_keeps_view_in_step id status u :
  keyed (DeviceStateStore._cache (store u)) ->
  DeviceStateStore.writable (store u) = true ->
  exists u',
    _update_state id status u = (Ok tt, u')
    /\ latest_states u' = DeviceStateStore._cache (store u')
    /\ latest_states u' !! id = Some (updated id status u)
    /\ (forall other, other <> id ->
          latest_states u' !! other = DeviceStateStore.get other (store u))
    /\ keyed (DeviceStateStore._cache (store u')).
Proof.
  intros Hkeyed Hw. unfold _update_state. unfold bind at 1, gets.
  unfold bind at 1, time_time, gets. unfold bind at 1, on_store, zoom.
  destruct (upsert_writable (store u) (PinStore.clock (pin_manager u)) id
              (DeviceStateStore.drive <$> latest_states u !! id)
              (DeviceStateStore.volume <$> latest_states u !! id) status Hw)
    as (st & -> & Hcache & _).
  assert (Hk : keyed (DeviceStateStore._cache st)).
  { rewrite Hcache.
    exact (keyed_insert _ (DeviceStateStore.upserted _ id _ _ status) Hkeyed). }
  destruct (refresh_view (set_store st u)) as (u' & Hrun & Hview & Hstore & _);
    [exact Hk|].
  unfold refresh_now. rewrite Hrun. exists u'. split; [reflexivity|].
  cbn [store set_store] in Hview, Hstore. rewrite Hview, Hstore.
  split; [reflexivity|]. rewrite Hcache. split; [apply lookup_insert_eq|].
  split; [|by rewrite <- Hcache].
  intros other Hne. by rewrite lookup_insert_ne.
Qed.

Context {conversions : Conversions}.

Lemma keyed_reloaded cache :
  keyed cache -> keyed (DeviceStateStore.reloaded <$> cache).
Proof.
  intros H key state Hkey. rewrite lookup_fmap in Hkey.
  destruct (cache !! key) as [st|] eqn:E; [|discriminate].
  injection Hkey as <-. cbn. by apply H.
Qed.

(** X12. [sync_external_store] shows what another process persisted: when
    the file of the window's ledger is the one that a ledger keyed by id
    has written, the window's ledger and its table hold every record of
    that ledger afterwards (an empty status shown as "unknown"). *)
Theorem sync_shows_foreign_writes other u :
  keyed (DeviceStateStore._cache other) ->
  DeviceStateStore.writable other = true ->
  DeviceStateStore.path (store u)
  = DeviceStateStore.path (snd (DeviceStateStore._persist other)) ->
  exists u',
    sync_external_store u = (Ok tt, u')
    /\ DeviceStateStore._cache (store u')
       = DeviceStateStore.reloaded <$> DeviceStateStore._cache other
    /\ latest_states u' = DeviceStateStore.reloaded <$> DeviceStateStore._cache other
    /\ locker u' = locker u /\ pin_manager u' = pin_manager u.
Proof.
  intros Hkeyed Hw Hpath.
  destruct (restart_after_persist other (DeviceStateStore.writable (store u)) Hw)
    as (file & Hp & Hinit).
  rewrite Hp in Hpath. cbn [snd DeviceStateStore.path DeviceStateStore.set_path] in Hpath.
  unfold sync_external_store, bind at 1, on_store, zoom.
  assert (Hreload : DeviceStateStore.reload (store u)
                    = (Ok tt, {| DeviceStateStore._cache :=
                                   DeviceStateStore.reloaded <$> DeviceStateStore._cache other;
                                 DeviceStateStore.path := file;
                                 DeviceStateStore.writable :=
                                   DeviceStateStore.writable (store u) |})).
  { rewrite <- Hinit. unfold DeviceStateStore.reload, bind, modify,
      DeviceStateStore.__init__, DeviceStateStore.set_cache. by rewrite Hpath. }
  rewrite Hreload.
  match goal with |- context [refresh_now ?v] =>
    destruct (refresh_view v) as (u' & Hrun & Hview & Hstore & Hlocker & Hpins & _) end.
  { cbn. by apply keyed_reloaded. }
  unfold refresh_now. rewrite Hrun. exists u'. split; [reflexivity|].
  rewrite Hview, Hstore, Hlocker, Hpins. done.
Qed.

(** X13. A manual lock reaches the ledger only if the toggle succeeded:
    then the device is recorded "locked"; after a failed toggle the
    ledger, the table and the credential store are as before and the
    failure is shown with the message of the toggle. *)
Theorem manual_lock_records_success_only u state :
  tree_focus u <> "" ->
  latest_states u !! tree_focus u = Some state ->
  exists r res u',
    DeviceLocker.disable (DeviceStateStore.instance_id state) (locker u) = (Ok r, locker u')
    /\ handle_lock u = (res, u')
    /\ pin_manager u' = pin_manager u
    /\ (DeviceLocker.success r = true ->
        store u'
        = snd (DeviceStateStore.upsert (PinStore.clock (pin_manager u))
                 (DeviceStateStore.instance_id state)
                 (DeviceStateStore.drive
                    <$> latest_states u !! DeviceStateStore.instance_id state)
                 (DeviceStateStore.volume
                    <$> latest_states u !! DeviceStateStore.instance_id state)
                 "locked" (store u))
        /\ DeviceStateStore.get (DeviceStateStore.instance_id state) (store u')
           = Some (updated (DeviceStateStore.instance_id state) "locked" u)
        /\ (DeviceStateStore.writable (store u) = true ->
            res = Ok tt
            /\ status_var u' = DeviceLocked (short_id (DeviceStateStore.instance_id state))))
    /\ (DeviceLocker.success r = false ->
        res = Ok tt
        /\ store u' = store u
        /\ latest_states u' = latest_states u
        /\ status_var u' = FailedToLock (DeviceLocker.message r)).
Proof.
  intros Hfocus Hstate.
  destruct (toggle_returns DeviceLocker.DisableDevice (DeviceStateStore.instance_id state)
              (locker u)) as (r & os' & Hrun & _).
  unfold handle_lock. unfold bind at 1, _require_selection. unfold bind at 1, gets.
  apply truthy_true in Hfocus. rewrite Hfocus. cbn [negb].
  unfold bind at 1, gets. rewrite Hstate. unfold ret at 1.
  unfold bind at 1, on_locker, zoom. unfold DeviceLocker.disable in *. rewrite Hrun.
  destruct (DeviceLocker.success r) eqn:Hs.
  - unfold bind at 1.
    destruct (update_state_spec (DeviceStateStore.instance_id state) "locked"
                (set_locker os' u)) as (res & u1 & -> & H1 & H2 & H3 & H4).
    cbn [store locker pin_manager latest_states set_locker] in H1, H2, H3, H4.
    destruct res as [[]|e].
    + eexists r, _, _. split; [|split; [reflexivity|]].
      * cbn. rewrite H2. reflexivity.
      * cbn. split; [exact H3|]. split; [|intros; congruence]. intros _.
        split; [exact H1|]. split; [rewrite H1; apply get_after_upsert|]. done.
    + eexists r, _, _. split; [|split; [reflexivity|]].
      * rewrite H2. reflexivity.
      * split; [exact H3|]. split; [|intros; congruence]. intros _.
        split; [exact H1|]. split; [rewrite H1; apply get_after_upsert|].
        intros Hw. by specialize (H4 Hw).
  - eexists r, _, _. split; [|split; [reflexivity|]].
    + reflexivity.
    + cbn. split; [reflexivity|]. split; [intros; congruence|]. done.
Qed.

(** X14. Where the ledger file cannot be written, the arrival of a
    device is still answered with a disable call, but [_handle_arrival]
    ends with [OSError] before it takes the id out of
    [processing_devices]: later arrivals of that device are returned
    from at once, with nothing done. *)
Theorem arrival_write_failure_leaves_device_busy event u :
  synthetic event = false ->
  instance_id event ∉ processing_devices u ->
  echo_of_unlock event u = false ->
  DeviceStateStore.writable (store u) = false ->
  exists r u',
    DeviceLocker.disable (instance_id event) (locker u) = (Ok r, locker u')
    /\ _handle_arrival event u = (Raise OSError, u')
    /\ instance_id event ∈ processing_devices u'
    /\ DeviceStateStore.path (store u') = DeviceStateStore.path (store u)
    /\ forall later,
         instance_id later = instance_id event ->
         _handle_arrival later u' = (Ok tt, u').
Proof.
  intros Hsyn Hfree Hecho Hw.
  destruct (toggle_returns DeviceLocker.DisableDevice (instance_id event) (locker u))
    as (r & os' & Hrun & _).
  assert (Hprefix : exists u1,
    _handle_arrival event u
       = (let* lock_result := on_locker (DeviceLocker.disable (instance_id event)) in
          let* now := time_time in
          on_store (DeviceStateStore.upsert now (instance_id event) (drive_letter event)
                      (volume_name event) "locked") ;;
          refresh_now ;;
          if negb (DeviceLocker.success lock_result) then
            status_set (FailedToLockArrival (device_label event)
                          (DeviceLocker.message lock_result)) ;;
            append_log (FailedToLockArrival (device_label event)
                          (DeviceLocker.message lock_result)) ;;
            discard_processing (instance_id event)
          else
            status_set (LockedEnterPin (device_label event)) ;;
            append_log (AwaitingPinEntry (device_label event)) ;;
            discard_processing (instance_id event)) u1
    /\ store u1 = store u /\ locker u1 = locker u /\ pin_manager u1 = pin_manager u
    /\ processing_devices u1 = processing_devices u ∪ {[instance_id event]}).
  { unfold _handle_arrival. unfold bind at 1. unfold gets. cbv beta iota.
    case_bool_decide; [done|].
    unfold bind at 1, modify. unfold bind at 1, gets. cbn [store set_processing_devices].
    unfold echo_of_unlock in Hecho.
    destruct (DeviceStateStore.get (instance_id event) (store u)) as [existing|].
    - unfold bind at 1. destruct (String.eqb _ _) eqn:Hs.
      + cbn [andb] in Hecho. unfold bind at 1, time_time, gets.
        cbn [pin_manager set_processing_devices]. rewrite Hecho. unfold ret at 1.
        cbv beta iota. rewrite Hsyn. unfold bind at 1, status_set, modify.
        unfold bind at 1, append_log, modify. eexists. split; [reflexivity|]. done.
      + unfold ret at 1. cbv beta iota. rewrite Hsyn. unfold bind at 1, status_set, modify.
        unfold bind at 1, append_log, modify. eexists. split; [reflexivity|]. done.
    - unfold bind at 1. unfold ret at 1. cbv beta iota. rewrite Hsyn.
      unfold bind at 1, status_set, modify.
      unfold bind at 1, append_log, modify. eexists. split; [reflexivity|]. done. }
  destruct Hprefix as (u1 & -> & Hstore & Hlocker & Hpins & Hproc).
  unfold bind at 1, on_locker, zoom. rewrite Hlocker. unfold DeviceLocker.disable in *.
  rewrite Hrun. unfold bind at 1, time_time, gets. cbn [pin_manager set_locker].
  unfold bind at 1, on_store, zoom. cbn [store set_locker]. rewrite Hstore.
  unfold DeviceStateStore.upsert at 1, bind at 1, modify, DeviceStateStore._persist.
  cbn [DeviceStateStore.writable DeviceStateStore.set_cache]. rewrite Hw.
  eexists r, _. split; [|split; [reflexivity|]]; [reflexivity|].
  cbn [processing_devices set_store set_locker store DeviceStateStore.path].
  assert (Hbusy : instance_id event ∈ processing_devices u1).
  { rewrite Hproc. set_unfold. by right. }
  split; [exact Hbusy|]. split; [reflexivity|].
  intros later Hlater. apply handle_arrival_busy. cbn. by rewrite Hlater.
Qed.


End ViewFacts.

(** * Further properties of the toggle adapter *)

Section FallbackFacts.
Import DeviceLocker.

(** X16. For an id that is not empty, [toggle] runs PowerShell first and
    pnputil only if PowerShell did not report success.  The result is then
    the one of pnputil alone: its exit code decides the success and its
    output is the message, whatever PowerShell had reported. *)
Theorem toggle_reports_the_fallback verb id os :
  id <> "" ->
  let shell := {| call_program := PowerShell; call_verb := verb; call_instance := id |} in
  let pnputil := {| call_program := PnpUtil; call_verb := verb; call_instance := id |} in
  let first := answers os (length (calls os)) in
  let second := answers os (S (length (calls os))) in
  exists r os',
    toggle verb id os = (Ok r, os')
    /\ answers os' = answers os
    /\ (shell_succeeded first = true ->
        calls os' = shell :: calls os
        /\ exists completed,
             first = Completed completed
             /\ r = {| instance_id := id; success := true;
                       message := output_message completed |})
    /\ (shell_succeeded first = false ->
        calls os' = pnputil :: shell :: calls os
        /\ r = pnputil_result id second).
Proof.
  intros Hid shell pnputil first second. apply truthy_true in Hid.
  unfold toggle. rewrite Hid. cbn [negb].
  unfold bind at 1, _run_command. unfold bind at 1, subprocess_run. fold first.
  destruct first as [completed|err] eqn:Hfirst; cbn [ret shell_succeeded success].
  - destruct ((returncode completed =? 0) && PyStr.contains "Success" (stdout completed))
      eqn:Hok; cbn [negb].
    + eexists _, _. split; [reflexivity|]. cbn [answers calls].
      split; [reflexivity|]. split; [|discriminate]. intros _.
      split; [reflexivity|]. by exists completed.
    + unfold _pnputil_action, bind, subprocess_run. cbn [answers calls length].
      fold second. unfold pnputil_result.
      destruct second; (eexists _, _; split; [reflexivity|]; cbn [answers calls];
        split; [reflexivity|]; split; [discriminate|]; done).
  - cbn [negb]. unfold _pnputil_action, bind, subprocess_run. cbn [answers calls length].
    fold second. unfold pnputil_result.
    destruct second; (eexists _, _; split; [reflexivity|]; cbn [answers calls];
      split; [reflexivity|]; split; [discriminate|]; done).
Qed.

End FallbackFacts.

(** * Further properties of the service orchestrator *)

Section SequentialFacts.
Import UsbMonitor Service.

Lemma log_quiet r s :
  (forall id, r <> InfoAlreadyProcessing id) ->
  never_busy s -> never_busy (snd (log r s)).
Proof.
  intros Hr Hq id [Heq|Hin]; [by apply (Hr id)|by apply (Hq id)].
Qed.

Lemma record_device_state_quiet id drive volume status s :
  exists s',
    _record_device_state id drive volume status s = (Ok tt, s')
    /\ _active_devices s' = _active_devices s
    /\ (never_busy s -> never_busy s').
Proof.
  unfold _record_device_state, try_except, bind, time_time, gets, on_store, zoom.
  destruct (DeviceStateStore.upsert (clock s) id drive volume status (_device_state_store s))
    as [[[]|e] st] eqn:E.
  - eexists. split; [reflexivity|]. cbn. auto.
  - destruct (is_oserror e) eqn:He.
    + eexists. split; [reflexivity|]. cbn. split; [reflexivity|].
      intros Hq id' [Heq|Hin]; [discriminate|by apply (Hq id')].
    + exfalso. revert E. unfold DeviceStateStore.upsert, bind, modify, DeviceStateStore._persist.
      cbn. destruct (DeviceStateStore.writable _); intros [= <- <-]. discriminate.
Qed.

Lemma recently_unlocked_quiet event s :
  exists b s',
    recently_unlocked event s = (Ok b, s')
    /\ _active_devices s' = _active_devices s
    /\ (never_busy s -> never_busy s').
Proof.
  unfold recently_unlocked, bind at 1, gets.
  destruct (DeviceStateStore.get _ _) as [state|]; [|by eexists _, _].
  destruct (String.eqb _ _); [|by eexists _, _].
  unfold bind at 1, time_time, gets.
  destruct (_ <? _).
  - eexists _, _. split; [reflexivity|]. split; [reflexivity|].
    intros Hq id' [Heq|Hin]; [discriminate|by apply (Hq id')].
  - destruct (synthetic event); [|by eexists _, _].
    eexists _, _. split; [reflexivity|]. split; [reflexivity|].
    intros Hq id' [Heq|Hin]; [discriminate|by apply (Hq id')].
Qed.


End SequentialFacts.

(** * Further properties of the worker pool *)

Section QueueFacts.
Import UsbMonitor Workers.

Lemma handle_usb_event_bounded event p :
  (length (_event_queue p) <= maxsize)%nat ->
  (length (_event_queue (_handle_usb_event event p)) <= maxsize)%nat.
Proof.
  intros H. unfold _handle_usb_event. case_bool_decide as Hroom.
  - cbn. rewrite length_app. cbn. lia.
  - by rewrite exec_queue.
Qed.

(** X19. The queue never holds more than [maxsize] events: an event that
    the monitor delivers while it is full is dropped with a warning and
    no worker sees it, and no step of a worker adds to the queue. *)
Theorem queue_never_exceeds_maxsize trace : forall p p',
  (length (_event_queue p) <= maxsize)%nat ->
  run trace p = Some p' ->
  (length (_event_queue p') <= maxsize)%nat
  /\ forall event,
       length (_event_queue p') = maxsize ->
       _event_queue (_handle_usb_event event p') = _event_queue p'
       /\ _workers (_handle_usb_event event p') = _workers p'
       /\ Service.logger (service (_handle_usb_event event p'))
          = Service.WarnQueueFull event :: Service.logger (service p').
Proof.
  induction trace as [|l rest IH]; intros p p' Hlen Hrun; cbn [run] in Hrun.
  - injection Hrun as <-. split; [exact Hlen|]. intros event Hfull.
    unfold _handle_usb_event. rewrite bool_decide_false by lia.
    rewrite exec_queue, exec_workers, exec_service. done.
  - destruct (step l p) as [p1|] eqn:Hstep; [|discriminate].
    apply (IH p1 p'); [|exact Hrun].
    destruct l as [event|now|k]; cbn [step] in Hstep.
    + injection Hstep as <-. by apply handle_usb_event_bounded.
    + by injection Hstep as <-.
    + destruct (advance_queue k p p1 Hstep) as [->|(event & Hq)]; [exact Hlen|].
      rewrite Hq in Hlen. cbn in Hlen. lia.
Qed.

Lemma accounted_replaced (workers : list Worker) (active active' : gset string)
    (k : nat) w w' :
  workers !! k = Some w ->
  (forall id, id ∈ active' -> id ∈ active \/ holder id w' = true) ->
  (forall id, holder id w = true -> holder id w' = true \/ id ∉ active') ->
  (forall id, id ∈ active ->
     exists k0 w0, workers !! k0 = Some w0 /\ holder id w0 = true) ->
  forall id, id ∈ active' ->
    exists k0 w0, <[k := w']> workers !! k0 = Some w0 /\ holder id w0 = true.
Proof.
  intros Hk Hnew Hold Hacc id Hin.
  assert (Hhere : <[k := w']> workers !! k = Some w').
  { apply list_lookup_insert_eq. eapply lookup_lt_Some; exact Hk. }
  destruct (holder id w') eqn:Hw'; [by exists k, w'|].
  destruct (Hnew id Hin) as [Hwas|Hnow]; [|congruence].
  destruct (Hacc id Hwas) as (k0 & w0 & Hk0 & Hh0).
  destruct (decide (k0 = k)) as [->|Hne].
  - assert (w0 = w) by congruence. subst w0.
    destruct (Hold id Hh0) as [Hyes|Hno]; [congruence|done].
  - exists k0, w0. split; [|exact Hh0]. by rewrite list_lookup_insert_ne.
Qed.

Lemma advance_accounted k p p' :
  advance k p = Some p' -> accounted p -> accounted p'.
Proof.
  unfold advance, accounted. intros Hadv Hacc.
  destruct (_workers p !! k) as [w|] eqn:Hk; [|discriminate].
  destruct w as [|event|event|event|event|].
  - (* Idle *)
    destruct (_event_queue p) as [|event rest] eqn:Hqueue; [discriminate|].
    destruct (String.eqb (event_type event) "__stop__").
    { injection Hadv as <-. cbn.
      apply (accounted_replaced _ (Service._active_devices (service p)) _ k Idle Stopped);
        [exact Hk|by left|discriminate|exact Hacc]. }
    destruct (negb (PyStr.truthy (instance_id event))).
    { injection Hadv as <-. cbn. exact Hacc. }
    destruct (String.eqb (event_type event) "removal").
    { injection Hadv as <-. cbn.
      apply (accounted_replaced _ (Service._active_devices (service p)) _ k
               Idle (RemovalToggling event)); [exact Hk| |discriminate|exact Hacc].
      intros id Hin. left. set_unfold. tauto. }
    destruct (recently_unlocked_spec event (service (set_event_queue rest p)))
      as (s' & Hrun & H1 & H2 & H3 & H4).
    rewrite (exec_run _ _ _ _ Hrun) in Hadv. cbn [service set_event_queue] in H3.
    destruct (Service.returns_early event _); injection Hadv as <-; cbn.
    + by rewrite H3.
    + apply (accounted_replaced _ (Service._active_devices (service p)) _ k
               Idle (Checked event)); [exact Hk| |discriminate|exact Hacc].
      intros id Hin. left. by rewrite <- H3.
  - (* Checked *)
    destruct (enter_active_spec event (service p)) as [Hin Hout].
    destruct (decide (instance_id event ∈ Service._active_devices (service p)))
      as [Hbusy|Hfree].
    + destruct (Hin Hbusy) as (s' & Hrun & H1 & H2 & H3 & H4).
      rewrite (exec_run _ _ _ _ Hrun) in Hadv. injection Hadv as <-. cbn.
      apply (accounted_replaced _ (Service._active_devices (service p)) _ k
               (Checked event) Idle); [exact Hk| |discriminate|exact Hacc].
      intros id Hid. left. by rewrite <- H3.
    + rewrite (exec_run _ _ _ _ (Hout Hfree)) in Hadv. injection Hadv as <-. cbn.
      apply (accounted_replaced _ (Service._active_devices (service p)) _ k
               (Checked event) (Toggling event)); [exact Hk| |discriminate|exact Hacc].
      intros id Hid. apply elem_of_union in Hid as [Hid|Hid]; [by left|].
      right. apply elem_of_singleton in Hid. subst id. cbn. apply String.eqb_refl.
  - (* Toggling *)
    destruct (process_usb_event_spec event (service p))
      as (r & s' & _ & Hrun & H1 & _).
    rewrite (exec_run _ _ _ _ Hrun) in Hadv. injection Hadv as <-. cbn.
    apply (accounted_replaced _ (Service._active_devices (service p)) _ k
             (Toggling event) (Finishing event)); [exact Hk| |by left|exact Hacc].
    intros id Hid. left. by rewrite <- H1.
  - (* Finishing *)
    injection Hadv as <-. cbn.
    apply (accounted_replaced _ (Service._active_devices (service p)) _ k
             (Finishing event) Idle); [exact Hk| | |exact Hacc].
    + intros id Hid. left. set_unfold. tauto.
    + intros id Hid. right. cbn in Hid. apply String.eqb_eq in Hid. subst id.
      set_unfold. tauto.
  - (* RemovalToggling *)
    destruct (lock_removed_port_spec event (service p))
      as (r & s' & _ & Hrun & H1 & _).
    rewrite (exec_run _ _ _ _ Hrun) in Hadv. injection Hadv as <-. cbn.
    apply (accounted_replaced _ (Service._active_devices (service p)) _ k
             (RemovalToggling event) Idle); [exact Hk| |discriminate|exact Hacc].
    intros id Hid. left. by rewrite <- H1.
  - discriminate.
Qed.

(** X20. Whatever the monitor delivers, removals included, and however
    the workers interleave, every id of the active set belongs to a
    worker that is inside [_process_usb_event] for it or about to run the
    [finally] clause: once no worker is, the set is empty, and no
    device stays blocked as "already being processed". *)
Theorem active_set_never_leaks trace s worker_count p :
  run trace (started s worker_count) = Some p ->
  accounted p
  /\ ((forall k w, _workers p !! k = Some w -> holds w = None) ->
      Service._active_devices (service p) = ∅).
Proof.
  intros Hrun.
  assert (Hacc : accounted p).
  { assert (Hstart : accounted (started s worker_count)).
    { intros id Hin. cbn in Hin. by apply not_elem_of_empty in Hin. }
    revert Hrun Hstart. generalize (started s worker_count).
    induction trace as [|l rest IH]; intros p0 Hrun Hp0; cbn [run] in Hrun.
    - by injection Hrun as <-.
    - destruct (step l p0) as [p1|] eqn:Hstep; [|discriminate].
      apply (IH p1 Hrun).
      destruct l as [event|now|k]; cbn [step] in Hstep.
      + injection Hstep as <-. unfold _handle_usb_event, accounted.
        case_bool_decide; [exact Hp0|]. by rewrite exec_service, exec_workers.
      + by injection Hstep as <-.
      + exact (advance_accounted k p0 p1 Hstep Hp0). }
  split; [exact Hacc|]. intros Hidle. apply set_eq. intros id. split; [|by intros ?%not_elem_of_empty].
  intros Hin. destruct (Hacc id Hin) as (k & w & Hk & Hh).
  unfold holder in Hh. by rewrite (Hidle k w Hk) in Hh.
Qed.

End QueueFacts.

(** * The PIN gate of the device window *)

Section GateFacts.
Import UsbMonitor DeviceWindow.
Context {platform : Platform}.
Variable config : LockPortConfig.

Lemma get_cached_pin_returns max_age w :
  exists cached w',
    PinStore.get_cached_pin max_age w = (Ok cached, w')
    /\ PinStore.store_file w' = PinStore.store_file w
    /\ PinStore.clock w' = PinStore.clock w.
Proof.
  unfold PinStore.get_cached_pin. destruct win32crypt as [api|]; [|by eexists _, _].
  unfold try_except, bind at 1, PinStore.cache_read_text.
  destruct (PinStore.cache_file w) as [entry|]; [|by eexists _, _].
  unfold bind at 1, PinStore.time_time, gets. cbn [PinStore.clock PinStore.log_io].
  destruct (_ >? _); by eexists _, _.
Qed.

(** The PIN that [handle_unlock] goes on with is the text of the entry
    field, stripped, or, where that is empty, the cached PIN. *)
Lemma entered_pin_spec u :
  exists pin u1,
    entered_pin u = (Ok pin, u1)
    /\ store u1 = store u /\ locker u1 = locker u
    /\ PinStore.store_file (pin_manager u1) = PinStore.store_file (pin_manager u)
    /\ PinStore.clock (pin_manager u1) = PinStore.clock (pin_manager u)
    /\ (pin = PyStr.strip (pin_var u)
        \/ (PyStr.strip (pin_var u) = ""
            /\ fst (PinStore.get_cached_pin 120 (pin_manager u)) = Ok (Some pin))).
Proof.
  unfold entered_pin. unfold bind at 1, gets.
  destruct (PyStr.truthy (PyStr.strip (pin_var u))) eqn:Htyped; cbn [negb].
  - eexists _, _. split; [reflexivity|]. repeat split; auto.
  - assert (Hempty : PyStr.strip (pin_var u) = "")
      by (by destruct (PyStr.strip (pin_var u))).
    unfold bind at 1, on_pins, zoom.
    destruct (get_cached_pin_returns 120 (pin_manager u))
      as (cached & w' & Hrun & Hf & Hc).
    rewrite Hrun. destruct cached as [cached|].
    + destruct (PyStr.truthy cached).
      * eexists _, _. split; [reflexivity|]. cbn. repeat split; auto.
      * eexists _, _. split; [reflexivity|]. cbn. repeat split; auto.
    + eexists _, _. split; [reflexivity|]. cbn. repeat split; auto.
Qed.

Lemma check_pin_frame pin u1 :
  store (snd (check_pin config pin u1)) = store u1
  /\ locker (snd (check_pin config pin u1)) = locker u1.
Proof.
  unfold check_pin, try_except, bind, on_pins, zoom, ret, status_set, modify.
  destruct (PinStore.verify_pin config pin (pin_manager u1)) as [[b|e] w]; [done|].
  destruct (PinStore.is_pin_error e); [|done].
  destruct e; done.
Qed.

Lemma require_selection_found u state u0 :
  _require_selection u = (Ok (Some state), u0) ->
  u0 = u /\ latest_states u !! tree_focus u = Some state.
Proof.
  unfold _require_selection. unfold bind at 1, gets.
  destruct (PyStr.truthy (tree_focus u)); cbn [negb]; [|discriminate].
  unfold bind at 1, gets. destruct (latest_states u !! tree_focus u); [|discriminate].
  by intros [= <- <-].
Qed.

(** X22. [handle_unlock] reaches the toggle adapter and the ledger only
    behind an accepted PIN.  Either both are left as they were, or: a
    device is selected; the PIN is the text of the entry field, stripped,
    or, where that is empty, the PIN of the cache; it is not empty;
    [verify_pin] was called with this PIN, on the store file and at the
    time of the click, and returned [True]; and what [handle_unlock] did
    to the toggle adapter and the ledger is what the part of it after the
    verification does. *)
Theorem unlock_needs_accepted_pin u :
  exists res u',
    handle_unlock config u = (res, u')
    /\ ((locker u' = locker u /\ store u' = store u)
        \/ exists state pin u1 u2,
             latest_states u !! tree_focus u = Some state
             /\ entered_pin u = (Ok pin, u1)
             /\ pin <> ""
             /\ (pin = PyStr.strip (pin_var u)
                 \/ (PyStr.strip (pin_var u) = ""
                     /\ fst (PinStore.get_cached_pin 120 (pin_manager u))
                        = Ok (Some pin)))
             /\ PinStore.store_file (pin_manager u1) = PinStore.store_file (pin_manager u)
             /\ PinStore.clock (pin_manager u1) = PinStore.clock (pin_manager u)
             /\ PinStore.verify_pin config pin (pin_manager u1)
                = (Ok true, pin_manager u2)
             /\ check_pin config pin u1 = (Ok true, u2)
             /\ locker u2 = locker u
             /\ store u2 = store u
             /\ unlock_selected state u2 = (res, u')).
Proof.
  unfold handle_unlock. unfold bind at 1.
  destruct (_require_selection u) as [[[state|]|e] u0] eqn:Hsel;
    destruct (require_selection_frame u _ u0 Hsel) as (Hs0 & Hl0 & Hp0 & _);
    [|eexists _, _; (split; [reflexivity|]); left; by rewrite Hs0, Hl0..].
  apply require_selection_found in Hsel as [-> Hstate].
  unfold bind at 1.
  destruct (entered_pin_spec u) as (pin & u1 & Hpin & Hs1 & Hl1 & Hf1 & Hc1 & Hfrom).
  rewrite Hpin.
  destruct (PyStr.truthy pin) eqn:Htruthy; cbn [negb].
  2:{ eexists _, _. split; [reflexivity|]. left. cbn. by rewrite Hs1, Hl1. }
  unfold bind at 1.
  destruct (check_pin_frame pin u1) as [Hs2 Hl2].
  destruct (check_pin config pin u1) as [[[|]|e] u2] eqn:Hcheck; cbn [snd negb] in *.
  - destruct (unlock_selected state u2) as [res u3] eqn:Hunlock.
    eexists _, _. split; [reflexivity|]. right.
    destruct (check_pin_accepts config pin u1 u2 Hcheck) as (Hv & _).
    exists state, pin, u1, u2.
    split; [exact Hstate|]. split; [reflexivity|]. split; [by apply truthy_true|].
    split; [exact Hfrom|]. split; [exact Hf1|]. split; [exact Hc1|].
    split; [exact Hv|]. split; [exact Hcheck|].
    split; [by rewrite Hl2, Hl1|]. split; [by rewrite Hs2, Hs1|exact Hunlock].
  - eexists _, _. split; [reflexivity|]. left. by rewrite Hs2, Hl2, Hs1, Hl1.
  - eexists _, _. split; [reflexivity|]. left. by rewrite Hs2, Hl2, Hs1, Hl1.
Qed.

End GateFacts.

(** * Properties of the monitor thread *)

Section MonitorFacts.
Import UsbMonitor USBMonitor.
Context {casing : Casing}.

Lemma or_else_self s : PyStr.or_else (Some s) "" = s.
Proof. by destruct s. Qed.

(** A turn of the loop that is not about a drive leaves the entry of
    that drive in the map as it was. *)
Lemma iteration_keeps_other_drives {S} (callback : USBEvent -> S -> S) key w m :
  ~ about key w ->
  _drive_map (iteration callback m w) !! key = _drive_map m !! key.
Proof.
  intros Hw. destruct w as [| |conn event]; [reflexivity..|].
  cbn [iteration about] in *. unfold on_volume_event.
  destruct (negb _); [reflexivity|].
  destruct (_resolve_instance_id conn (DriveName event)) as [id|]; [|reflexivity].
  destruct (bool_decide (EventType event = Some 2)).
  - change ("arrival" =? "arrival")%string with true. cbv iota.
    destruct (drive_key (DriveName event)) as [k|]; [|reflexivity].
    destruct (PyStr.truthy id); [|reflexivity].
    cbn [emit _drive_map]. apply lookup_insert_ne. congruence.
  - change ("removal" =? "arrival")%string with false. cbv iota.
    destruct (drive_key (DriveName event)) as [k|]; [|reflexivity].
    cbn [emit _drive_map]. apply lookup_delete_ne. congruence.
Qed.

Lemma loop_keeps_other_drives {S} (callback : USBEvent -> S -> S) key feed : forall m,
  Forall (fun w => ~ about key w) feed ->
  _drive_map (foldl (iteration callback) m feed) !! key = _drive_map m !! key.
Proof.
  induction feed as [|w feed IH]; intros m Hall; [reflexivity|].
  apply Forall_cons in Hall as [Hw Hall]. cbn [foldl].
  rewrite (IH _ Hall). by apply iteration_keeps_other_drives.
Qed.

(** X23. The monitor remembers under which id a drive arrived: when the
    drive is removed and its id can no longer be resolved, the removal is
    delivered with the id of the arrival, however the case of the drive
    letter differs and whatever happened to other drives in between; the
    drive is forgotten afterwards. *)
Theorem removal_recovers_arrival_id (m : t (list USBEvent)) conn1 conn2
    letter1 letter2 label1 label2 id between :
  letter1 <> "" ->
  letter2 <> "" ->
  py_upper letter2 = py_upper letter1 ->
  _resolve_instance_id conn1 (Some letter1) = Some id ->
  id <> "" ->
  _resolve_instance_id conn2 (Some letter2) = Some "" ->
  Forall (fun w => ~ about (py_upper letter1) w) between ->
  let arrival :=
    Yielded conn1 {| EventType := Some 2; DriveName := Some letter1; Label := label1 |} in
  let removal :=
    Yielded conn2 {| EventType := Some 3; DriveName := Some letter2; Label := label2 |} in
  let m' := foldl (iteration record) m (arrival :: between ++ [removal]) in
  last (listener m')
  = Some {| instance_id := id; drive_letter := Some letter2; volume_name := label2;
            event_type := "removal"; synthetic := false |}
  /\ _drive_map m' !! py_upper letter1 = None.
Proof.
  intros H1 H2 Hkey Hres1 Hid Hres2 Hbetween arrival removal m'.
  apply truthy_true in H1, H2, Hid.
  subst m'. cbn [foldl]. rewrite foldl_app. cbn [foldl].
  set (m1 := iteration record m arrival).
  set (m2 := foldl (iteration record) m1 between).
  assert (Hm1 : _drive_map m1 !! py_upper letter1 = Some id).
  { subst m1 arrival. cbn [iteration]. unfold on_volume_event.
    cbn [EventType DriveName Label]. rewrite Hres1. unfold drive_key. rewrite H1.
    rewrite bool_decide_true by reflexivity. cbn [orb negb].
    change ("arrival" =? "arrival")%string with true. cbv iota. rewrite Hid.
    cbn [emit _drive_map]. apply lookup_insert_eq. }
  assert (Hm2 : _drive_map m2 !! py_upper letter1 = Some id).
  { subst m2. by rewrite loop_keeps_other_drives. }
  subst removal. cbn [iteration]. unfold on_volume_event.
  cbn [EventType DriveName Label]. rewrite Hres2. unfold drive_key. rewrite H2.
  rewrite (bool_decide_false (Some 3 = Some 2)) by discriminate.
  rewrite bool_decide_true by reflexivity. cbn [orb negb].
  change ("removal" =? "arrival")%string with false. cbv iota.
  cbn [PyStr.truthy negb]. rewrite Hkey, Hm2. cbn [default].
  cbn [emit _drive_map listener]. unfold record. rewrite last_snoc, or_else_self.
  split; [reflexivity|]. apply lookup_delete_eq.
Qed.

Lemma emit_each_keeps_map {S} (callback : USBEvent -> S -> S) conn current : forall m,
  _drive_map (snd (emit_each callback conn current m)) = _drive_map m.
Proof.
  induction current as [|disk rest IH]; intros m; cbn [emit_each]; [reflexivity|].
  destruct (_resolve_instance_id conn (DeviceID disk)) as [id|]; [|reflexivity].
  destruct (negb (PyStr.truthy id)); by rewrite IH.
Qed.

Lemma emit_existing_keeps_map {S} (callback : USBEvent -> S -> S) conn m :
  _drive_map (snd (_emit_existing_devices callback conn m)) = _drive_map m.
Proof.
  unfold _emit_existing_devices. destruct (removable_disks conn); [|reflexivity].
  apply emit_each_keeps_map.
Qed.

(** X24. The devices found at start are announced without an entry in the
    drive map.  So when the first thing that happens to such a drive is a
    removal whose id cannot be resolved any more, the removal is
    delivered with an empty id: the service only writes a warning for it
    and the device window a status line, and neither runs the toggle or
    writes to the ledger. *)
Theorem removal_of_startup_device_has_no_id conn0 conn letter label
    (seen : list USBEvent) :
  _resolve_instance_id conn letter = Some "" ->
  let started := snd (_emit_existing_devices record conn0 (fresh seen)) in
  let removal := {| EventType := Some 3; DriveName := letter; Label := label |} in
  let event := {| instance_id := ""; drive_letter := letter; volume_name := label;
                  event_type := "removal"; synthetic := false |} in
  _drive_map started = ∅
  /\ listener (on_volume_event record conn removal started) = (listener started ++ [event])%list
  /\ (forall s, exists s',
        Service._process_event event s = (Ok tt, s') /\ Service.same_devices s s')
  /\ (forall u, exists u',
        DeviceWindow._handle_usb_event event u = (Ok tt, u')
        /\ DeviceWindow.same_devices u u'
        /\ DeviceWindow.processing_devices u' = DeviceWindow.processing_devices u).
Proof.
  intros Hres started removal event.
  assert (Hmap : _drive_map started = ∅).
  { subst started. by rewrite emit_existing_keeps_map. }
  split; [exact Hmap|]. split; [|split].
  - subst removal. unfold on_volume_event. cbn [EventType DriveName Label].
    rewrite Hres. rewrite (bool_decide_false (Some 3 = Some 2)) by discriminate.
    rewrite bool_decide_true by reflexivity. cbn [orb negb].
    change ("removal" =? "arrival")%string with false. cbv iota.
    cbn [PyStr.truthy negb]. rewrite Hmap.
    destruct (drive_key letter) as [key|]; [rewrite lookup_empty|]; reflexivity.
  - intros s. eexists. split; [reflexivity|]. done.
  - intros u. eexists. split; [reflexivity|]. done.
Qed.

Lemma emit_each_well_formed conn current : forall m : t (list USBEvent),
  Forall well_formed (listener m) ->
  Forall well_formed (listener (snd (emit_each record conn current m))).
Proof.
  induction current as [|disk rest IH]; intros m Hm; cbn [emit_each]; [exact Hm|].
  destruct (_resolve_instance_id conn (DeviceID disk)) as [id|]; [|exact Hm].
  destruct (PyStr.truthy id) eqn:Hid; cbn [negb]; [|by apply IH].
  apply IH. cbn [emit listener]. unfold record. apply Forall_app. split; [exact Hm|].
  constructor; [|constructor]. split; cbn; [by left|]. intros _. split; [reflexivity|].
  by apply truthy_true.
Qed.

Lemma iteration_well_formed w (m : t (list USBEvent)) :
  Forall well_formed (listener m) ->
  Forall well_formed (listener (iteration record m w)).
Proof.
  intros Hm. destruct w as [| |conn event]; [exact Hm..|].
  cbn [iteration]. unfold on_volume_event.
  destruct (negb _); [exact Hm|].
  destruct (_resolve_instance_id conn (DriveName event)) as [id|]; [|exact Hm].
  destruct (bool_decide (EventType event = Some 2)).
  - change ("arrival" =? "arrival")%string with true. cbv iota.
    cbn [emit listener]. unfold record. apply Forall_app. split; [exact Hm|].
    constructor; [|constructor]. split; cbn; [by left|discriminate].
  - change ("removal" =? "arrival")%string with false. cbv iota.
    destruct (drive_key (DriveName event)) as [k|];
      (cbn [emit listener]; unfold record; apply Forall_app; split; [exact Hm|];
       constructor; [|constructor]; split; cbn; [by right|discriminate]).
Qed.

(** X25. Whatever WMI answers and whatever the watcher yields, the monitor
    hands its callback only arrivals and removals; the synthetic ones are
    arrivals with an instance id, made at start.  No event of the
    monitor carries the [__stop__] mark that ends a worker. *)
Theorem monitor_events_are_well_formed conn feed (m : t (list USBEvent)) :
  Forall well_formed (listener m) ->
  Forall well_formed (listener (snd (_run_loop record conn feed m)))
  /\ Forall (fun event => event_type event <> "__stop__")
       (listener (snd (_run_loop record conn feed m))).
Proof.
  intros Hm.
  assert (Hall : Forall well_formed (listener (snd (_run_loop record conn feed m)))).
  { unfold _run_loop.
    assert (Hstart : Forall well_formed
                       (listener (snd (_emit_existing_devices record conn m)))).
    { unfold _emit_existing_devices. destruct (removable_disks conn); [|exact Hm].
      by apply emit_each_well_formed. }
    destruct (_emit_existing_devices record conn m) as [[|] m1]; cbn [snd] in *;
      [|exact Hstart].
    revert m1 Hstart. induction feed as [|w feed IH]; intros m1 Hm1; [exact Hm1|].
    cbn [foldl]. apply IH. by apply iteration_well_formed. }
  split; [exact Hall|]. eapply Forall_impl; [exact Hall|].
  intros event [[Ht|Ht] _]; rewrite Ht; discriminate.
Qed.

End MonitorFacts.

(** * Properties of the administration commands *)

Section CommandFacts.
Import LockportCli.
Context {platform : Platform}.
Variable config : LockPortConfig.

(** [cmd_set_pin] up to the comparison of the two entries. *)
Lemma cmd_set_pin_asks current_pin skip c :
  exists current c1,
    cmd_set_pin config current_pin skip c
    = (if negb (String.eqb (keyboard c1 (length (prompts c1)))
                  (keyboard c1 (S (length (prompts c1)))))
       then print PinEntriesDoNotMatch ;; ret 1
       else
         let* failed :=
           try_except
             (on_pins (PinStore.set_pin config (keyboard c1 (length (prompts c1))) current) ;;
              ret false)
             is_pin_validation_error
             (fun exc => print (FailedToSetPin (exn_text exc)) ;; ret true) in
         if failed then ret 1 else print PinUpdatedSuccessfully ;; ret 0)
        {| pin_manager := pin_manager c1; keyboard := keyboard c1;
           prompts := "Confirm PIN: " :: "New PIN: " :: prompts c1;
           printed := printed c1 |}
    /\ pin_manager c1 = pin_manager c /\ keyboard c1 = keyboard c
    /\ printed c1 = printed c
    /\ current = match current_pin with
                 | Some given => Some given
                 | None => if skip then None else Some (keyboard c (length (prompts c)))
                 end
    /\ length (prompts c1)
       = (length (prompts c)
          + match current_pin with
            | Some _ => 0
            | None => if skip then 0 else 1
            end)%nat.
Proof.
  destruct current_pin as [given|]; [|destruct skip].
  - exists (Some given), c. split; [reflexivity|]. cbn. repeat split; auto; lia.
  - exists (@None string), c. split; [reflexivity|]. cbn. repeat split; auto; lia.
  - exists (Some (keyboard c (length (prompts c)))),
      {| pin_manager := pin_manager c; keyboard := keyboard c;
         prompts := "Current PIN: " :: prompts c; printed := printed c |}.
    split; [reflexivity|]. cbn. repeat split; auto; lia.
Qed.

(** X26. Where the two entries of the new PIN differ, [cmd_set_pin] ends
    with exit code 1 and the credential store is not touched: the current
    PIN, given or typed, is not even verified. *)
Theorem mismatched_entries_change_nothing (current_pin : option string) (skip : bool) c :
  let first := (length (prompts c)
                + match current_pin with
                  | Some _ => 0
                  | None => if skip then 0 else 1
                  end)%nat in
  keyboard c first <> keyboard c (S first) ->
  exists c',
    cmd_set_pin config current_pin skip c = (Ok 1, c')
    /\ pin_manager c' = pin_manager c
    /\ printed c' = PinEntriesDoNotMatch :: printed c.
Proof.
  intros first Hdiff.
  destruct (cmd_set_pin_asks current_pin skip c)
    as (current & c1 & -> & Hpins & Hkeys & Hprinted & _ & Hlen).
  rewrite Hlen, Hkeys. fold first.
  apply String.eqb_neq in Hdiff. rewrite Hdiff. cbn [negb].
  eexists. split; [reflexivity|]. cbn. by rewrite Hpins, Hprinted.
Qed.

(** X27. Exit code 0 of [cmd_set_pin] is sound: the entry at the prompt
    "New PIN: " and the entry at the prompt "Confirm PIN: " were the same
    string of 4 to 8 digits, the store holds the record of that string
    with both counters at 0, and the success line was printed. *)
Theorem cmd_set_pin_success_is_sound (current_pin : option string) (skip : bool) c c' :
  let first := (length (prompts c)
                + match current_pin with
                  | Some _ => 0
                  | None => if skip then 0 else 1
                  end)%nat in
  cmd_set_pin config current_pin skip c = (Ok 0, c') ->
  exists salt_bytes p' asked,
    prompts c' = "Confirm PIN: " :: "New PIN: " :: asked
    /\ length asked = first
    /\ keyboard c (S first) = keyboard c first
    /\ PyStr.isdigit (keyboard c first) = true
    /\ 4 <= PyStr.len (keyboard c first) <= 8
    /\ PinStore.store_file (pin_manager c') = Some p'
    /\ PinStore.pin p'
       = PinStore.record_of (keyboard c first) salt_bytes (pin_hash_iterations config)
    /\ PinStore.failed_attempts p' = Some 0
    /\ PinStore.lock_until p' = Some 0
    /\ printed c' = PinUpdatedSuccessfully :: printed c.
Proof.
  intros first.
  destruct (cmd_set_pin_asks current_pin skip c)
    as (current & c1 & -> & Hpins & Hkeys & Hprinted & _ & Hlen).
  rewrite Hkeys, Hlen. fold first.
  set (new_pin := keyboard c first).
  destruct (String.eqb_spec new_pin (keyboard c (S first))) as [Hsame|]; cbn [negb];
    [|discriminate].
  unfold bind at 1, try_except. unfold bind at 1, on_pins, zoom.
  cbn [pin_manager].
  destruct (PinStore.set_pin config new_pin current (pin_manager c1)) as [[[]|e] w] eqn:Hset.
  - unfold ret at 1. cbv beta iota. intros [= <-]. cbn.
    assert (Hshape : PyStr.isdigit new_pin = true /\ 4 <= PyStr.len new_pin <= 8).
    { destruct (PyStr.isdigit new_pin) eqn:Hd.
      - split; [reflexivity|].
        destruct (Z.leb_spec 4 (PyStr.len new_pin)), (Z.leb_spec (PyStr.len new_pin) 8);
          try lia;
          rewrite (set_pin_malformed config _ new_pin current) in Hset by (right; lia);
          discriminate.
      - rewrite (set_pin_malformed config _ new_pin current) in Hset by (by left).
        discriminate. }
    destruct Hshape as [Hd Hl].
    destruct (set_pin_well_formed config _ new_pin current w Hd Hl Hset)
      as (p' & salt_bytes & H1 & H2 & H3 & H4).
    exists salt_bytes, p', (prompts c1). rewrite Hprinted.
    split; [reflexivity|]. split; [exact Hlen|]. split; [by symmetry|].
    split; [exact Hd|]. split; [exact Hl|]. by repeat split.
  - destruct (is_pin_validation_error e); [|discriminate].
    unfold bind at 1, print, modify. unfold ret at 1. cbv beta iota. discriminate.
Qed.

(** X28. A current PIN that is refused, or any current PIN during a
    lockout, makes [cmd_set_pin] end with exit code 1 and the line
    "Failed to set PIN: Current PIN validation failed"; the PIN record
    is the one from before. *)
Theorem cmd_set_pin_refuses_wrong_current current c p new_pin :
  PinStore.store_file (pin_manager c) = Some p ->
  keyboard c (length (prompts c)) = new_pin ->
  keyboard c (S (length (prompts c))) = new_pin ->
  PyStr.isdigit new_pin = true ->
  4 <= PyStr.len new_pin <= 8 ->
  PinStore.clock (pin_manager c) < default 0 (PinStore.lock_until p)
  \/ PinStore.verify (PinStore.pin p) current = Some false ->
  exists c' p',
    cmd_set_pin config (Some current) false c = (Ok 1, c')
    /\ printed c' = FailedToSetPin "Current PIN validation failed" :: printed c
    /\ PinStore.store_file (pin_manager c') = Some p'
    /\ PinStore.pin p' = PinStore.pin p.
Proof.
  intros Hp Hnew Hconfirm Hd Hl Hbad.
  destruct (cmd_set_pin_asks (Some current) false c)
    as (cur & c1 & -> & Hpins & Hkeys & Hprinted & -> & Hlen).
  rewrite Hlen, Hkeys, Nat.add_0_r, Hnew, Hconfirm, String.eqb_refl. cbn [negb].
  unfold bind at 1, try_except. unfold bind at 1, on_pins, zoom. cbn [pin_manager].
  rewrite Hpins.
  destruct (set_pin_wrong_current config _ p new_pin current Hp Hd Hl Hbad)
    as (w' & p' & -> & Hfile & _ & Hpin & _).
  cbn [is_pin_validation_error exn_text]. unfold bind at 1, print, modify.
  unfold ret at 1. cbv beta iota. eexists _, p'. split; [reflexivity|].
  cbn. by rewrite Hprinted.
Qed.

(** X29. [cmd_set_pin] does not catch the [ValueError] of a PIN that is
    not 4 to 8 digits: typed twice alike, such a PIN ends the command
    with that exception instead of an exit code, with nothing printed and
    the credential store untouched, the current PIN not verified. *)
Theorem cmd_set_pin_lets_value_error_escape (current_pin : option string) (skip : bool)
    c new_pin :
  let first := (length (prompts c)
                + match current_pin with
                  | Some _ => 0
                  | None => if skip then 0 else 1
                  end)%nat in
  keyboard c first = new_pin ->
  keyboard c (S first) = new_pin ->
  PyStr.isdigit new_pin = false \/ ~ (4 <= PyStr.len new_pin <= 8) ->
  exists c',
    cmd_set_pin config current_pin skip c
    = (Raise (ValueError "PIN must be 4-8 numeric digits"), c')
    /\ pin_manager c' = pin_manager c
    /\ printed c' = printed c.
Proof.
  intros first Hnew Hconfirm Hbad.
  destruct (cmd_set_pin_asks current_pin skip c)
    as (current & c1 & -> & Hpins & Hkeys & Hprinted & _ & Hlen).
  rewrite Hlen, Hkeys. fold first. rewrite Hnew, Hconfirm, String.eqb_refl. cbn [negb].
  unfold bind at 1, try_except. unfold bind at 1, on_pins, zoom. cbn [pin_manager].
  rewrite (set_pin_malformed config _ new_pin current Hbad).
  cbn [is_pin_validation_error]. eexists. split; [reflexivity|].
  cbn. by rewrite Hprinted.
Qed.

(** X30. After [cmd_reset_lockout], [cmd_status] reports no failed
    attempt and no lockout, whatever lockout was in force. *)
Theorem reset_then_status_reports_no_lockout c p :
  PinStore.store_file (pin_manager c) = Some p ->
  0 <= PinStore.clock (pin_manager c) ->
  exists c1 c2,
    cmd_reset_lockout config c = (Ok 0, c1)
    /\ cmd_status config c1 = (Ok 0, c2)
    /\ printed c2
       = LockoutInactive :: FailedAttempts 0 :: LockoutCountersCleared :: printed c.
Proof.
  intros Hp Hclock.
  destruct (reset_lockout_spec config (pin_manager c) p Hp)
    as (w1 & Hreset & Hfile & _ & Hclock1).
  unfold cmd_reset_lockout. unfold bind at 1, on_pins, zoom. rewrite Hreset.
  unfold bind at 1, print, modify. unfold ret.
  eexists _, _. split; [reflexivity|].
  unfold cmd_status, PinStore.get_status.
  unfold bind, on_pins, zoom, PinStore.time_time, gets, print, modify, ret.
  cbn [pin_manager set_pin_manager]. rewrite (read_present config w1 _ Hfile).
  cbn [PinStore.clock PinStore.log_io PinStore.lock_until PinStore.failed_attempts
       PinStore.with_counters PinStore.st_failed_attempts PinStore.st_locked
       PinStore.st_lock_until].
  change (default 0 (Some 0)) with 0.
  destruct (Z.gtb_spec 0 (PinStore.clock w1)); [lia|].
  split; reflexivity.
Qed.

End CommandFacts.

(** * Properties of event handling over output that may not decode *)

Section UndecodedFacts.
Import UsbMonitor Undecoded.

Lemma on_service_run {A} (m : M Service.t A) h r s' :
  m (service h) = (r, s') -> on_service m h = (r, set_service s' h).
Proof. intros H. unfold on_service, zoom. by rewrite H. Qed.

(** Where every output decodes, the methods above are those of [Service]
    and [DeviceLocker]. *)
Lemma subprocess_run_decodable c h :
  decodable h ->
  subprocess_run c h
  = on_service (Service.on_locker (DeviceLocker.subprocess_run c)) h.
Proof.
  intros Hd. unfold subprocess_run, bind, gets. rewrite Hd.
  unfold on_service, Service.on_locker, zoom, DeviceLocker.subprocess_run. cbn.
  by destruct (DeviceLocker.answers _ _).
Qed.

Lemma decodable_kept {A} (m : M Service.t A) h :
  decodable h -> decodable (snd (on_service m h)).
Proof.
  intros Hd n. unfold on_service, zoom. destruct (m (service h)). exact (Hd n).
Qed.

Lemma disable_decodable id h :
  decodable h ->
  disable id h = on_service (Service.on_locker (DeviceLocker.disable id)) h.
Proof.
  intros Hd. pose proof (Hd (next_call h)) as H0. pose proof (Hd (S (next_call h))) as H1.
  destruct h as [[os active store now records] noise]. unfold next_call in H0, H1.
  cbn in H0, H1.
  unfold disable, DeviceLocker.disable, DeviceLocker.toggle.
  destruct (negb (PyStr.truthy id)); [reflexivity|].
  unfold _run_command, _pnputil_action, DeviceLocker._run_command,
    DeviceLocker._pnputil_action, subprocess_run, bind, gets, on_service,
    Service.on_locker, zoom, DeviceLocker.subprocess_run, ret.
  cbn. rewrite H0.
  destruct (DeviceLocker.answers os (length (DeviceLocker.calls os))) as [c|err]; cbn.
  - destruct (negb _); [|reflexivity]. cbn. rewrite H1.
    by destruct (DeviceLocker.answers os (S (length (DeviceLocker.calls os)))).
  - rewrite H1.
    by destruct (DeviceLocker.answers os (S (length (DeviceLocker.calls os)))).
Qed.

Lemma bind_on_service {A B} (m : M Service.t A) (k : A -> M t B)
    (k' : A -> M Service.t B) h :
  (forall a s', k a (set_service s' h) = on_service (k' a) (set_service s' h)) ->
  bind (on_service m) k h = on_service (bind m k') h.
Proof.
  intros Hk. unfold bind, on_service, zoom.
  destruct (m (service h)) as [[a|e] s']; [|reflexivity]. exact (Hk a s').
Qed.

Lemma bind_disable {B} id (k : DeviceLocker.DeviceActionResult -> M t B)
    (k' : DeviceLocker.DeviceActionResult -> M Service.t B) h :
  decodable h ->
  (forall a s', k a (set_service s' h) = on_service (k' a) (set_service s' h)) ->
  bind (disable id) k h
  = on_service (bind (Service.on_locker (DeviceLocker.disable id)) k') h.
Proof.
  intros Hd Hk. rewrite <- (bind_on_service _ k k' h Hk).
  unfold bind. by rewrite (disable_decodable id h Hd).
Qed.

Lemma try_finally_on_service {A} (m : M t A) (m' : M Service.t A) fin h :
  m h = on_service m' h ->
  try_finally m (on_service fin) h = on_service (try_finally m' fin) h.
Proof.
  intros H. unfold try_finally. rewrite H. unfold on_service, zoom.
  destruct (m' (service h)) as [r s']. cbn. by destruct (fin s') as [[u|e] s''].
Qed.

Lemma process_usb_event_decodable event h :
  decodable h ->
  _process_usb_event event h = on_service (Service._process_usb_event event) h.
Proof.
  intros Hd. destruct h as [s noise].
  unfold _process_usb_event, Service._process_usb_event.
  apply bind_on_service. intros _ s1.
  apply bind_disable; [exact Hd|]. intros r s2.
  apply bind_on_service. intros _ s3.
  by destruct (negb (DeviceLocker.success r)).
Qed.

Lemma handle_usb_removal_decodable event h :
  decodable h ->
  _handle_usb_removal event h = on_service (Service._handle_usb_removal event) h.
Proof.
  intros Hd. destruct h as [s noise].
  unfold _handle_usb_removal, Service._handle_usb_removal, Service.lock_removed_port.
  apply bind_on_service. intros _ s1.
  apply bind_on_service. intros _ s2.
  apply bind_disable; [exact Hd|]. intros r s3.
  destruct (negb (DeviceLocker.success r)).
  - apply bind_on_service. by intros _ s4.
  - reflexivity.
Qed.

(** Where the output of every subprocess decodes, [_process_event] is the
    one of [Service]. *)
Lemma process_event_decodable event h :
  decodable h ->
  _process_event event h = on_service (Service._process_event event) h.
Proof.
  intros Hd. unfold _process_event, Service._process_event.
  destruct (negb (PyStr.truthy (instance_id event))); [reflexivity|].
  destruct (String.eqb (event_type event) "removal");
    [by apply handle_usb_removal_decodable|].
  destruct h as [s noise].
  apply bind_on_service. intros returned s1. destruct returned; [reflexivity|].
  apply bind_on_service. intros inserted s2. destruct inserted; [|reflexivity].
  apply try_finally_on_service. by apply process_usb_event_decodable.
Qed.

Lemma tick_same h :
  on_service (modify (Service.set_clock (Service.clock (service h)))) h = (Ok tt, h).
Proof. by destruct h as [[]]. Qed.

Lemma disable_garbled id h completed :
  id <> "" ->
  garbled h (next_call h) = true ->
  DeviceLocker.answers (Service.device_locker (service h)) (next_call h)
  = DeviceLocker.Completed completed ->
  disable id h
  = (Raise UnicodeDecodeError,
     set_service
       (Service.set_device_locker (called id (Service.device_locker (service h)))
          (service h)) h).
Proof.
  intros Hid Hg Hc. unfold next_call in Hg, Hc.
  unfold disable. apply truthy_true in Hid. rewrite Hid. cbn [negb].
  unfold _run_command, subprocess_run, bind, gets, on_service, Service.on_locker, zoom,
    DeviceLocker.subprocess_run. cbn. rewrite Hg, Hc. reflexivity.
Qed.

(** C6, at an input on which the code departs from it.  Where the
    PowerShell script that [disable] runs completes with output that does
    not decode, the exception leaves [disable], [_process_usb_event] (or
    [_handle_usb_removal]) and [_process_event]: the device is not
    recorded, neither in memory nor in the file, the service logs no
    failure, and the worker loop ends with the events still waiting
    unhandled.  Where every output decodes, [_process_event] is the one of
    [Service], which absorbs every failure of the toggle. *)
Theorem undecodable_output_is_not_absorbed event h completed :
  instance_id event <> "" ->
  event_type event <> "__stop__" ->
  garbled h (next_call h) = true ->
  DeviceLocker.answers (Service.device_locker (service h)) (next_call h)
  = DeviceLocker.Completed completed ->
  (event_type event <> "removal" ->
   Service.returns_early event (service h) = false ->
   instance_id event ∉ Service._active_devices (service h) ->
   exists h',
     _process_event event h = (Raise UnicodeDecodeError, h')
     /\ Service._device_state_store (service h')
        = Service._device_state_store (service h)
     /\ Service._active_devices (service h') = Service._active_devices (service h)
     /\ Service.logger (service h')
        = Service.InfoLocking (instance_id event) :: Service.logger (service h)
     /\ Service.device_locker (service h')
        = called (instance_id event) (Service.device_locker (service h))
     /\ forall rest,
          _worker_loop ((Service.clock (service h), event) :: rest) h
          = (Raise UnicodeDecodeError, h'))
  /\ (event_type event = "removal" ->
      exists h',
        _process_event event h = (Raise UnicodeDecodeError, h')
        /\ Service._device_state_store (service h')
           = Service._device_state_store (service h)
        /\ Service._active_devices (service h')
           = Service._active_devices (service h) ∖ {[instance_id event]}
        /\ Service.logger (service h')
           = Service.InfoRemoved (instance_id event) :: Service.logger (service h)
        /\ Service.device_locker (service h')
           = called (instance_id event) (Service.device_locker (service h))
        /\ forall rest,
          _worker_loop ((Service.clock (service h), event) :: rest) h
          = (Raise UnicodeDecodeError, h'))
  /\ (forall h0, decodable h0 ->
        _process_event event h0 = on_service (Service._process_event event) h0
        /\ fst (Service._process_event event (service h0)) = Ok tt).
Proof.
  intros Hid Hstop Hg Hc. pose proof (proj2 (truthy_true _) Hid) as Htruthy.
  apply String.eqb_neq in Hstop.
  split; [|split].
  - intros Hrem Hearly Hfree. apply String.eqb_neq in Hrem.
    assert (Hrun : exists h',
               _process_event event h = (Raise UnicodeDecodeError, h')
               /\ Service._device_state_store (service h')
                  = Service._device_state_store (service h)
               /\ Service._active_devices (service h')
                  = Service._active_devices (service h)
               /\ Service.logger (service h')
                  = Service.InfoLocking (instance_id event) :: Service.logger (service h)
               /\ Service.device_locker (service h')
                  = called (instance_id event) (Service.device_locker (service h))).
    { unfold _process_event. rewrite Htruthy, Hrem. cbn [negb].
      unfold bind at 1.
      rewrite (on_service_run _ h _ _ (recently_unlocked_false event _ Hearly)).
      unfold bind at 1.
      rewrite (on_service_run _ (set_service (service h) h) _ _
                 (proj2 (enter_active_spec event _) Hfree)).
      unfold try_finally, _process_usb_event. unfold bind at 1.
      unfold on_service at 1, zoom, Service.log, modify. cbn [service set_service].
      unfold bind at 1.
      erewrite disable_garbled; [|exact Hid|exact Hg|exact Hc].
      unfold on_service, zoom, Service.discard_active, modify. cbn.
      eexists. split; [reflexivity|]. cbn. repeat split; try reflexivity.
      apply set_eq. intros x. set_unfold. split; [tauto|].
      intros Hx. split; [tauto|]. intros ->. contradiction. }
    destruct Hrun as (h' & Hrun & H1 & H2 & H3 & H4).
    exists h'. repeat split; try done.
    intros rest. cbn [_worker_loop]. unfold bind at 1. rewrite tick_same, Hstop.
    unfold bind. by rewrite Hrun.
  - intros Hrem.
    assert (Hrun : exists h',
               _process_event event h = (Raise UnicodeDecodeError, h')
               /\ Service._device_state_store (service h')
                  = Service._device_state_store (service h)
               /\ Service._active_devices (service h')
                  = Service._active_devices (service h) ∖ {[instance_id event]}
               /\ Service.logger (service h')
                  = Service.InfoRemoved (instance_id event) :: Service.logger (service h)
               /\ Service.device_locker (service h')
                  = called (instance_id event) (Service.device_locker (service h))).
    { unfold _process_event. rewrite Htruthy, Hrem. cbn [negb].
      change ("removal" =? "removal")%string with true. cbv beta iota.
      unfold _handle_usb_removal. unfold bind at 1.
      unfold on_service at 1, zoom, Service.discard_active, modify.
      cbn [service set_service]. unfold bind at 1.
      unfold on_service at 1, zoom, Service.log, modify. cbn [service set_service].
      unfold bind at 1.
      erewrite disable_garbled; [|exact Hid|exact Hg|exact Hc].
      eexists. split; [reflexivity|]. cbn. repeat split; reflexivity. }
    destruct Hrun as (h' & Hrun & H1 & H2 & H3 & H4).
    exists h'. repeat split; try done.
    intros rest. cbn [_worker_loop]. unfold bind at 1. rewrite tick_same, Hstop.
    unfold bind. by rewrite Hrun.
  - intros h0 Hd. split; [by apply process_event_decodable|].
    apply process_event_returns.
Qed.

End UndecodedFacts.

(** * A single worker, whatever its subprocesses write *)

Section SingleWorkerFacts.
Import UsbMonitor Undecoded.

Lemma quiet_ret {A} (a : A) : quiet (ret a).
Proof. by intros h. Qed.

Lemma quiet_raise {A} e : quiet (@raise t A e).
Proof. by intros h. Qed.

Lemma quiet_bind {A B} (m : M t A) (k : A -> M t B) :
  quiet m -> (forall a, quiet (k a)) -> quiet (bind m k).
Proof.
  intros Hm Hk h. unfold bind. destruct (Hm h) as [H1 H2].
  destruct (m h) as [[a|e] h1]; cbn [snd] in *; [|by split].
  destruct (Hk a h1) as [G1 G2]. split; [by rewrite G1|auto].
Qed.

Lemma quiet_on_service {A} (m : M Service.t A) :
  (forall s, Service._active_devices (snd (m s)) = Service._active_devices s
             /\ (Service.never_busy s -> Service.never_busy (snd (m s)))) ->
  quiet (on_service m).
Proof.
  intros Hm h. unfold on_service, zoom. specialize (Hm (service h)).
  by destruct (m (service h)).
Qed.

Lemma quiet_log r :
  (forall id, r <> Service.InfoAlreadyProcessing id) ->
  quiet (on_service (Service.log r)).
Proof.
  intros Hr. apply quiet_on_service. intros s. split; [reflexivity|].
  by apply log_quiet.
Qed.

Lemma quiet_record id drive volume status :
  quiet (on_service (Service._record_device_state id drive volume status)).
Proof.
  apply quiet_on_service. intros s.
  by destruct (record_device_state_quiet id drive volume status s) as (s' & -> & H1 & H2).
Qed.

Lemma quiet_subprocess_run c : quiet (subprocess_run c).
Proof.
  intros h. unfold subprocess_run, bind, gets, on_service, Service.on_locker, zoom,
    DeviceLocker.subprocess_run. cbn.
  destruct (DeviceLocker.answers _ _); [destruct (garbled h _)|]; by split.
Qed.

Lemma quiet_disable id : quiet (disable id).
Proof.
  unfold disable. destruct (negb (PyStr.truthy id)); [apply quiet_ret|].
  apply quiet_bind.
  - apply quiet_bind; [apply quiet_subprocess_run|].
    intros [c|err]; apply quiet_ret.
  - intros r. destruct (negb (DeviceLocker.success r)); [|apply quiet_ret].
    apply quiet_bind; [apply quiet_subprocess_run|].
    intros [c|err]; apply quiet_ret.
Qed.

Lemma quiet_process_usb_event event : quiet (_process_usb_event event).
Proof.
  unfold _process_usb_event.
  apply quiet_bind; [by apply quiet_log|]. intros _.
  apply quiet_bind; [apply quiet_disable|]. intros r.
  apply quiet_bind; [apply quiet_record|]. intros _.
  destruct (negb (DeviceLocker.success r)); [by apply quiet_log|apply quiet_ret].
Qed.

(** One event, handled while no other is. *)
Lemma process_event_alone event h :
  Service._active_devices (service h) = ∅ ->
  Service.never_busy (service h) ->
  exists r h',
    _process_event event h = (r, h')
    /\ Service._active_devices (service h') = ∅
    /\ Service.never_busy (service h').
Proof.
  intros Ha Hq. unfold _process_event.
  destruct (negb (PyStr.truthy (instance_id event))).
  { destruct (quiet_log (Service.WarnSkippingNoInstanceId event) ltac:(done) h)
      as [H1 H2].
    destruct (on_service _ h) as [r h']. exists r, h'. cbn [snd] in H1, H2.
    split; [reflexivity|]. split; [by rewrite H1|auto]. }
  destruct (String.eqb (event_type event) "removal").
  { unfold _handle_usb_removal. unfold bind at 1.
    unfold on_service at 1, zoom, Service.discard_active, modify.
    cbn [service set_service].
    match goal with |- context [bind ?m ?k ?v] =>
      assert (Hrest : quiet (bind m k)) end.
    { apply quiet_bind; [by apply quiet_log|]. intros _.
      apply quiet_bind; [apply quiet_disable|]. intros r.
      apply quiet_bind; [|intros _; apply quiet_record].
      destruct (negb (DeviceLocker.success r)); [by apply quiet_log|apply quiet_ret]. }
    match goal with |- context [bind ?m ?k ?v] =>
      destruct (Hrest v) as [H1 H2]; destruct (bind m k v) as [r h'] end.
    cbn [snd service set_service Service._active_devices Service.set_active_devices]
      in H1, H2.
    exists r, h'. split; [reflexivity|].
    split; [rewrite H1, Ha; apply set_eq; intros x; set_unfold; tauto|].
    apply H2. exact Hq. }
  unfold bind at 1. unfold on_service at 1, zoom.
  destruct (recently_unlocked_quiet event (service h)) as (b & s1 & -> & H1 & H2).
  destruct b; [eexists _, _; split; [reflexivity|]; cbn; split; [congruence|auto]|].
  unfold bind at 1. unfold on_service at 1, zoom. cbn [service set_service].
  rewrite (proj2 (enter_active_spec event s1))
    by (rewrite H1, Ha; apply not_elem_of_empty).
  unfold try_finally.
  match goal with |- context [_process_usb_event event ?v] =>
    destruct (quiet_process_usb_event event v) as [G1 G2];
    destruct (_process_usb_event event v) as [r h2] end.
  cbn [snd service set_service Service._active_devices Service.set_active_devices] in G1, G2.
  unfold on_service, zoom, Service.discard_active, modify.
  eexists _, _. split; [reflexivity|]. cbn.
  split; [rewrite G1, H1, Ha; apply set_eq; intros x; set_unfold; tauto|].
  intros id' Hin. cbn in Hin. revert Hin. apply G2. intros id'' Hin. cbn in Hin.
  by apply (H2 Hq id'').
Qed.

Lemma worker_loop_alone queue : forall h,
  Service._active_devices (service h) = ∅ ->
  Service.never_busy (service h) ->
  exists r h',
    _worker_loop queue h = (r, h')
    /\ Service._active_devices (service h') = ∅
    /\ Service.never_busy (service h').
Proof.
  induction queue as [|[now event] rest IH]; intros h Ha Hq; cbn [_worker_loop].
  - by exists (Ok tt), h.
  - unfold bind at 1. unfold on_service at 1, zoom, modify.
    destruct (String.eqb (event_type event) "__stop__").
    { eexists _, _. split; [reflexivity|]. by split. }
    unfold bind at 1.
    match goal with |- context [_process_event event ?v] =>
      destruct (process_event_alone event v Ha Hq) as (r & h1 & -> & Ha1 & Hq1) end.
    destruct r as [[]|e]; [exact (IH h1 Ha1 Hq1)|].
    by exists (Raise e), h1.
Qed.

Lemma worker_loop_decodable queue : forall h,
  decodable h ->
  fst (_worker_loop queue h) = Ok tt.
Proof.
  induction queue as [|[now event] rest IH]; intros h Hd; cbn [_worker_loop];
    [reflexivity|].
  unfold bind at 1. unfold on_service at 1, zoom, modify.
  destruct (String.eqb (event_type event) "__stop__"); [reflexivity|].
  unfold bind at 1.
  match goal with |- context [_process_event event ?v] =>
    rewrite (process_event_decodable event v Hd);
    pose proof (process_event_returns event (service v)) as Hok;
    unfold on_service, zoom;
    destruct (Service._process_event event (service v)) as [r s1] end.
  cbn in Hok. subst r. apply IH. exact Hd.
Qed.

(** X17. A worker that handles the events it is handed one after the
    other, with no other worker at work, leaves the active set empty at
    the end, and drops none of them because its device is being
    processed: the log has no such record.  This is so whatever the
    subprocesses answer and whether or not what they write decodes, that
    is, also where an exception ends the loop.  Where every output
    decodes, the loop returns. *)
Theorem single_worker_is_never_busy queue h :
  Service._active_devices (service h) = ∅ ->
  Service.never_busy (service h) ->
  Service._active_devices (service (snd (_worker_loop queue h))) = ∅
  /\ Service.never_busy (service (snd (_worker_loop queue h)))
  /\ (decodable h -> fst (_worker_loop queue h) = Ok tt).
Proof.
  intros Ha Hq. pose proof (worker_loop_decodable queue h) as Hreturns.
  destruct (worker_loop_alone queue h Ha Hq) as (r & h' & Hrun & Ha' & Hq').
  rewrite Hrun in *. split; [exact Ha'|]. split; [exact Hq'|exact Hreturns].
Qed.

End SingleWorkerFacts.

(** * The unit tests of the repository, on the model

    [tests/test_pin_store.py] and [tests/test_device_state.py], with the
    stand-in platform; [time.sleep(1.1)] moves the clock by two seconds. *)

Section UnitTests.
Import UsbMonitor Samples.

Example test_default_pin :
  fst (PinStore.verify_pin (platform := platform) config "0000" installed) = Ok true.
Proof. reflexivity. Qed.

Example test_set_and_verify_pin :
  fst (PinStore.verify_pin (platform := platform) config "1234"
         (snd (PinStore.set_pin (platform := platform) config "1234" None installed)))
  = Ok true.
Proof. reflexivity. Qed.

Example test_invalid_pin_increments_counter :
  PinStore.st_failed_attempts
  <$> ret_value
        (fst (PinStore.get_status (platform := platform) config
                (snd (PinStore.verify_pin (platform := platform) config "1111" installed))))
  = Some 1.
Proof. reflexivity. Qed.

Example test_lockout :
  let '(outcomes, locked) :=
    PinStore.verify_each (platform := platform) config
      [(1000, "9999"); (1000, "9999")] installed in
  outcomes = [Raise (PinValidationError "Invalid PIN");
              Raise (PinValidationError "Invalid PIN")]
  /\ fst (PinStore.verify_pin (platform := platform) config "0000" locked)
     = Raise (PinLockedError "PIN entry temporarily locked")
  /\ fst (PinStore.verify_pin (platform := platform) config "0000"
            (PinStore.set_clock 1002 locked))
     = Ok true.
Proof. vm_compute. repeat split. Qed.

Example test_store_file_exists :
  is_Some (PinStore.store_file installed).
Proof. by eexists. Qed.

Example test_upsert_records :
  DeviceStateStore.list_states
    (snd (DeviceStateStore.upsert 1000 "USB#001" (Some "E:") (Some "USB") "locked"
            empty_ledger))
  = [{| DeviceStateStore.instance_id := "USB#001";
        DeviceStateStore.drive := "E:";
        DeviceStateStore.volume := "USB";
        DeviceStateStore.status := "locked";
        DeviceStateStore.updated_at := 1000 |}].
Proof. vm_compute. reflexivity. Qed.

Example test_store_persists :
  let store :=
    snd (DeviceStateStore.upsert 1000 "USB#002" None None "unlocked" empty_ledger) in
  DeviceStateStore.list_states
    (snd (DeviceStateStore.__init__ (conversions := conversions)
            (DeviceStateStore.path store) true))
  = [{| DeviceStateStore.instance_id := "USB#002";
        DeviceStateStore.drive := "";
        DeviceStateStore.volume := "";
        DeviceStateStore.status := "unlocked";
        DeviceStateStore.updated_at := 1000 |}].
Proof. vm_compute. reflexivity. Qed.

(** USB#001 arrives and is recorded as locked; it is removed and recorded
    as removed. *)
Example arrival_then_removal :
  let after_arrival :=
    snd (Service.process_all [(1000, arrival false)]
           (idle_service obliging empty_ledger 0)) in
  let after_removal := snd (Service.process_all [(1060, removal)] after_arrival) in
  DeviceStateStore.status
    <$> DeviceStateStore.get "USB#001" (Service._device_state_store after_arrival)
  = Some "locked"
  /\ DeviceStateStore.status
       <$> DeviceStateStore.get "USB#001" (Service._device_state_store after_removal)
     = Some "removed".
Proof. vm_compute. split; reflexivity. Qed.

End UnitTests.

(** * The properties on the worked instances *)

Section Instances.
Import UsbMonitor Samples.

Lemma sample_codec_sound : PinStore.codec_sound (platform := platform).
Proof. intros b. cbn. f_equal. apply list_byte_of_string_of_list_byte. Qed.

Lemma sample_kdf_injective : PinStore.kdf_injective (platform := platform).
Proof. intros a b salt n H. cbn in H. by apply app_inv_tail in H. Qed.

(** Two wrong PINs against the store of the unit tests lock it until
    time 1002. *)
Lemma lockout_after_attempt_limit_witness :
  exists w' p',
    PinStore.verify_each (platform := platform) config
      [(1000, "9999"); (1001, "9999")] installed
    = (replicate 2 (Raise (PinValidationError "Invalid PIN")), w')
    /\ PinStore.store_file w' = Some p'
    /\ PinStore.lock_until p' = Some 1002
    /\ PinStore.failed_attempts p' = Some 0.
Proof.
  destruct (lockout_after_attempt_limit (platform := platform) config installed
              default_payload [(1000, "9999"); (1001, "9999")])
    as (w' & p' & H1 & H2 & _ & H4 & H5 & _).
  - reflexivity.
  - reflexivity.
  - reflexivity.
  - reflexivity.
  - repeat constructor; cbn; discriminate.
  - exists w', p'. repeat split; assumption.
Defined.

(** "1234" is installed; then "1234" is accepted and "4321" refused. *)
Lemma set_pin_then_verify_pin_witness :
  exists w1 w2 w3,
    PinStore.set_pin (platform := platform) config "1234" None installed = (Ok tt, w1)
    /\ PinStore.verify_pin (platform := platform) config "1234" (PinStore.set_clock 1001 w1)
       = (Ok true, w2)
    /\ PinStore.verify_pin (platform := platform) config "4321" (PinStore.set_clock 1001 w1)
       = (Raise (PinValidationError "Invalid PIN"), w3).
Proof.
  destruct (set_pin_then_verify_pin (platform := platform) config installed "1234")
    as [[w1 H1] H2].
  - exact sample_codec_sound.
  - reflexivity.
  - split; discriminate.
  - destruct (H2 None w1 H1 1001) as ([w2 A] & _ & C); [discriminate|].
    destruct (C sample_kdf_injective "4321") as [w3 B]; [discriminate|].
    exists w1, w2, w3. repeat split; assumption.
Defined.

Lemma set_pin_rejects_malformed_witness :
  PinStore.set_pin (platform := platform) config "12a4" (Some "9999") installed
  = (Raise (ValueError "PIN must be 4-8 numeric digits"), installed).
Proof.
  apply (set_pin_rejects_malformed (platform := platform) config installed "12a4"
           (Some "9999")).
  left. reflexivity.
Defined.

Lemma missing_store_is_reinitialized_witness :
  exists w', PinStore.verify_pin (platform := platform) config "0000" blank = (Ok true, w').
Proof.
  destruct (missing_store_is_reinitialized (platform := platform) config blank)
    as (_ & _ & _ & _ & _ & H & _).
  - exact sample_codec_sound.
  - reflexivity.
  - apply H. discriminate.
Defined.

Lemma upsert_get_round_trip_witness :
  exists s' s2,
    DeviceStateStore.upsert 1000 "USB#002" None None "unlocked" empty_ledger = (Ok tt, s')
    /\ DeviceStateStore.__init__ (conversions := conversions) (DeviceStateStore.path s') true
       = (Ok tt, s2)
    /\ DeviceStateStore.status <$> DeviceStateStore.get "USB#002" s2 = Some "unlocked".
Proof.
  destruct (upsert_get_round_trip (conversions := conversions) empty_ledger 1000 "USB#002"
              None None "unlocked" true)
    as (s' & H1 & _ & s2 & H2 & _ & H3 & _).
  - reflexivity.
  - discriminate.
  - exists s', s2. split; [exact H1|]. split; [exact H2|exact H3].
Defined.

(** USB#001 was unlocked at 995: an arrival at 1000 is dropped. *)
Lemma recent_unlock_is_not_relocked_witness :
  exists s',
    Service._process_event (arrival false) (idle_service obliging unlocked_ledger 1000)
    = (Ok tt, s')
    /\ Service.same_devices (idle_service obliging unlocked_ledger 1000) s'.
Proof.
  destruct (recent_unlock_is_not_relocked (arrival false)
              (idle_service obliging unlocked_ledger 1000)
              (DeviceStateStore.upserted 995 "USB#001" (Some "E:") (Some "USB") "unlocked"))
    as (H & _).
  - discriminate.
  - reflexivity.
  - reflexivity.
  - reflexivity.
  - apply H. reflexivity.
Defined.

(** The device is not found, and the arrival is recorded as locked all
    the same, with the failure in the log. *)
Lemma toggle_failure_is_absorbed_witness :
  let s' := snd (Service._process_event (arrival false)
                   (idle_service deaf empty_ledger 1000)) in
  DeviceStateStore.status
    <$> DeviceStateStore.get "USB#001" (Service._device_state_store s')
  = Some "locked"
  /\ In (Service.ErrorFailedToDisable "USB#001" "DeviceNotFound") (Service.logger s').
Proof.
  destruct (toggle_failure_is_absorbed (conversions := conversions) (arrival false)
              (idle_service deaf empty_ledger 1000))
    as (_ & H & _).
  - discriminate.
  - destruct H as (r & s' & H1 & H2 & H3 & H4 & _).
    + discriminate.
    + reflexivity.
    + apply not_elem_of_empty.
    + assert (Hr : r = {| DeviceLocker.instance_id := "USB#001";
                          DeviceLocker.success := false;
                          DeviceLocker.message := "DeviceNotFound" |}).
      { vm_compute in H2. congruence. }
      cbv zeta. rewrite H1. cbn [snd]. split.
      * cbn [instance_id arrival] in H3. by rewrite H3.
      * rewrite Hr in H4. by apply H4.
Defined.

Lemma synthetic_arrival_policy_witness :
  exists s',
    Service._process_event (arrival true) (idle_service obliging unlocked_ledger 2000)
    = (Ok tt, s')
    /\ Service.same_devices (idle_service obliging unlocked_ledger 2000) s'.
Proof.
  destruct (synthetic_arrival_policy (arrival true)) as (H & _).
  - reflexivity.
  - discriminate.
  - reflexivity.
  - apply (H (idle_service obliging unlocked_ledger 2000)
             (DeviceStateStore.upserted 995 "USB#001" (Some "E:") (Some "USB") "unlocked"));
      reflexivity.
Defined.

(** C1, as stated, fails on the service: USB#001 has no record, and its
    synthetic arrival runs the PowerShell disable and records it as
    locked. *)
Lemma synthetic_arrival_of_unseen_device_is_locked :
  let s := idle_service obliging empty_ledger 1000 in
  let s' := snd (Service._process_event (arrival true) s) in
  DeviceStateStore.get "USB#001" (Service._device_state_store s) = None
  /\ DeviceLocker.calls (Service.device_locker s)
     <> DeviceLocker.calls (Service.device_locker s')
  /\ DeviceLocker.calls (Service.device_locker s')
     = [{| DeviceLocker.call_program := DeviceLocker.PowerShell;
           DeviceLocker.call_verb := DeviceLocker.DisableDevice;
           DeviceLocker.call_instance := "USB#001" |}]
  /\ DeviceStateStore.status
       <$> DeviceStateStore.get "USB#001" (Service._device_state_store s')
     = Some "locked".
Proof.
  cbv zeta. split; [reflexivity|]. split; [|split].
  - vm_compute. discriminate.
  - vm_compute. reflexivity.
  - vm_compute. reflexivity.
Qed.

(** A removal that is handled while no worker is busy with the device
    leaves the exclusion in place: the worker that takes the next arrival
    holds the device alone. *)
Lemma active_set_discipline_witness :
  Workers.run replugging (Workers.started (idle_service obliging empty_ledger 1000) 2)
  = Some replugged
  /\ In (Workers.Notify removal) replugging
  /\ Workers.exclusive "USB#001"
       [Workers.Toggling (arrival false); Workers.Idle]
       {["USB#001"]}.
Proof.
  destruct (active_set_discipline "USB#001" (idle_service obliging empty_ledger 1000) 2
              replugging replugged)
    as (H & _).
  - vm_compute. reflexivity.
  - vm_compute. repeat split.
  - split; [vm_compute; reflexivity|]. split; [cbn; tauto|]. exact H.
Defined.

(** C4, as stated, fails: a removal that overtakes an arrival in flight
    lets two workers into [_process_usb_event] for USB#001 at once, and
    then the id is not in the set for the duration of exactly one call. *)
Lemma removal_lets_two_workers_in :
  Workers._workers
    <$> Workers.run overtaking (Workers.started (idle_service obliging empty_ledger 1000) 2)
  = Some [Workers.Toggling (arrival false); Workers.Toggling (arrival false)]
  /\ forall active,
       ~ Workers.exclusive "USB#001"
           [Workers.Toggling (arrival false); Workers.Toggling (arrival false)] active.
Proof.
  split; [vm_compute; reflexivity|].
  intros active [Huniq _].
  specialize (Huniq 0%nat 1%nat _ _ eq_refl eq_refl eq_refl eq_refl). discriminate.
Qed.

(** The PIN "0000" is typed in the window and the device is missing: it is
    recorded as removed. *)
Lemma manual_unlock_records_outcome_witness :
  DeviceStateStore.status
    <$> DeviceStateStore.get "USB#001"
          (DeviceWindow.store
             (snd (DeviceWindow.handle_unlock (platform := platform) config
                     (window deaf " 0000 "))))
  = Some "removed".
Proof.
  pose (u := window deaf " 0000 ").
  pose (u2 := snd (DeviceWindow.check_pin (platform := platform) config "0000" u)).
  destruct (manual_unlock_records_outcome (conversions := conversions)
              (platform := platform) config u
              (DeviceStateStore.upserted 995 "USB#001" (Some "E:") (Some "USB") "unlocked")
              "0000" u u u2)
    as (_ & r & res & u' & H1 & H2 & _ & H4 & _).
  - reflexivity.
  - reflexivity.
  - discriminate.
  - reflexivity.
  - fold u. rewrite H1. cbn [snd].
    assert (Hr : r = {| DeviceLocker.instance_id := "USB#001";
                        DeviceLocker.success := false;
                        DeviceLocker.message := "DeviceNotFound" |}).
    { vm_compute in H2. congruence. }
    cbn [DeviceStateStore.instance_id DeviceStateStore.upserted] in H4.
    rewrite H4; [reflexivity | by rewrite Hr | by rewrite Hr].
Defined.

End Instances.

(** * The further properties on the worked instances *)

Section FurtherInstances.
Import UsbMonitor Samples.

Lemma unlocked_ledger_keyed :
  DeviceWindow.keyed (DeviceStateStore._cache unlocked_ledger).
Proof.
  intros key state Hkey. cbn in Hkey.
  apply lookup_insert_Some in Hkey as [[<- <-]|[_ Hkey]]; [reflexivity|].
  by rewrite lookup_empty in Hkey.
Qed.

(** The store is locked out until 1002; after the reset "0000" is
    accepted at 1001. *)
Lemma reset_lockout_lifts_lockout_witness :
  exists w1 w2,
    PinStore.reset_lockout (platform := platform) config locked_out = (Ok tt, w1)
    /\ PinStore.verify_pin (platform := platform) config "0000" w1 = (Ok true, w2).
Proof.
  destruct (reset_lockout_lifts_lockout (platform := platform) config locked_out
              (PinStore.with_counters (Some 0) (Some 1002)
                 (PinStore.updated_at default_payload) default_payload) "0000")
    as (w1 & p1 & H1 & _ & _ & _ & _ & _ & _ & w2 & H2).
  - reflexivity.
  - discriminate.
  - reflexivity.
  - by exists w1, w2.
Defined.

(** "9999" is not the current PIN: the change to "1234" is refused and
    the attempt is counted. *)
Lemma set_pin_refuses_wrong_current_witness :
  exists w' p',
    PinStore.set_pin (platform := platform) config "1234" (Some "9999") installed
    = (Raise (PinValidationError "Current PIN validation failed"), w')
    /\ PinStore.store_file w' = Some p'
    /\ PinStore.pin p' = PinStore.pin default_payload
    /\ PinStore.failed_attempts p' = Some 1.
Proof.
  destruct (set_pin_refuses_wrong_current (platform := platform) config installed
              default_payload "1234" "9999")
    as (w' & p' & H1 & H2 & H3 & H4 & _).
  - reflexivity.
  - reflexivity.
  - split; discriminate.
  - right. reflexivity.
  - exists w', p'. split; [exact H1|]. split; [exact H2|]. split; [exact H4|].
    rewrite H3. reflexivity.
Defined.

Lemma failed_attempts_stay_below_limit_witness :
  exists p',
    PinStore.store_file
      (snd (PinStore.verify_each (platform := platform) config
              [(1000, "9999"); (1001, "9999"); (1005, "0000")] installed)) = Some p'
    /\ PinStore.pin p' = PinStore.pin default_payload
    /\ 0 <= default 0 (PinStore.failed_attempts p') < 2.
Proof.
  apply (failed_attempts_stay_below_limit (platform := platform) config
           [(1000, "9999"); (1001, "9999"); (1005, "0000")] installed default_payload).
  - reflexivity.
  - cbn. lia.
Defined.

(** One wrong PIN, then the right one: the counter is back at 0. *)
Lemma accepted_pin_clears_failures_witness :
  exists w2 p2,
    PinStore.verify_each (platform := platform) config
      [(1000, "9999"); (1001, "0000")] installed
    = ([Raise (PinValidationError "Invalid PIN"); Ok true], w2)
    /\ PinStore.store_file w2 = Some p2
    /\ PinStore.failed_attempts p2 = Some 0.
Proof.
  destruct (accepted_pin_clears_failures (platform := platform) config installed
              default_payload [(1000, "9999")] 1001 "0000")
    as (w1 & p1 & w2 & _ & _ & _ & _ & H1 & H2).
  - reflexivity.
  - discriminate.
  - cbn. lia.
  - repeat constructor; cbn; discriminate.
  - discriminate.
  - reflexivity.
  - exists w2, (PinStore.with_counters (Some 0) (Some 0) (Some 1001) default_payload).
    split; [exact H1|]. split; [exact H2|reflexivity].
Defined.

Lemma status_agrees_with_verify_pin_witness :
  exists status w1,
    PinStore.get_status (platform := platform) config locked_out = (Ok status, w1)
    /\ PinStore.st_locked status = true.
Proof.
  destruct (status_agrees_with_verify_pin (platform := platform) config locked_out
              (PinStore.with_counters (Some 0) (Some 1002)
                 (PinStore.updated_at default_payload) default_payload) "0000")
    as (status & w1 & H1 & _ & _ & _ & _ & H2).
  - reflexivity.
  - exists status, w1. split; [exact H1|]. apply H2. reflexivity.
Defined.

(** "0000" is accepted and cached; after the PIN is changed the cache
    gives nothing. *)
Lemma set_pin_forgets_cached_pin_witness :
  let w1 := snd (PinStore.verify_pin (platform := protected) config "0000" installed) in
  let w2 := snd (PinStore.set_pin (platform := protected) config "1234" None w1) in
  fst (PinStore.get_cached_pin (platform := protected) 120 w1) = Ok (Some "0000")
  /\ fst (PinStore.get_cached_pin (platform := protected) 120 w2) = Ok None.
Proof.
  intros w1 w2. split; [reflexivity|].
  destruct (set_pin_forgets_cached_pin (platform := protected) config w1 "1234" None w2)
    as [_ H].
  - reflexivity.
  - exact (H 1000 120).
Defined.

(** "0000" is accepted at 1000.  With the facility that returns the bytes
    alone nothing is cached, and the cache gives no PIN at 1001. *)
Lemma accepted_pin_is_cached_from_a_pair_only_witness :
  exists w1,
    PinStore.verify_pin (platform := protected_by_pywin32) config "0000" installed
    = (Ok true, w1)
    /\ PinStore.cache_file w1 = None
    /\ fst (PinStore.get_cached_pin (platform := protected_by_pywin32) 120
              (PinStore.set_clock 1001 w1))
       = Ok None.
Proof.
  destruct (accepted_pin_is_cached_from_a_pair_only (platform := protected_by_pywin32)
              config pywin32 installed default_payload "0000")
    as (w1 & H1 & H2 & H3 & _).
  - reflexivity.
  - reflexivity.
  - discriminate.
  - reflexivity.
  - exists w1. split; [exact H1|]. split; [exact H2|].
    by apply (H3 (rev (PyStr.encode "0000"))).
Defined.

(** USB#002 is recorded; a new instance over the file still has USB#001. *)
Lemma restart_keeps_every_record_witness :
  exists s' s2,
    DeviceStateStore.upsert 1000 "USB#002" None None "locked" unlocked_ledger = (Ok tt, s')
    /\ DeviceStateStore.__init__ (conversions := conversions) (DeviceStateStore.path s') true
       = (Ok tt, s2)
    /\ DeviceStateStore.get "USB#001" s2
       = Some (DeviceStateStore.upserted 995 "USB#001" (Some "E:") (Some "USB") "unlocked").
Proof.
  destruct (restart_keeps_every_record (conversions := conversions) unlocked_ledger 1000
              "USB#002" None None "locked" true)
    as (s' & s2 & H1 & H2 & _ & H3 & _).
  - reflexivity.
  - exists s', s2. split; [exact H1|]. split; [exact H2|]. apply H3.
    + assert (Hs : s' = snd (DeviceStateStore.upsert 1000 "USB#002" None None "locked"
                               unlocked_ledger)) by (by rewrite H1).
      rewrite Hs. reflexivity.
    + discriminate.
Defined.

Lemma unwritten_record_is_lost_on_reload_witness :
  exists s',
    DeviceStateStore.upsert 1000 "USB#001" None None "locked" read_only_ledger
    = (Raise OSError, s')
    /\ DeviceStateStore.status <$> DeviceStateStore.get "USB#001" s' = Some "locked"
    /\ DeviceStateStore.get "USB#001"
         (snd (DeviceStateStore.reload (conversions := conversions) s')) = None
    /\ DeviceStateStore._cache
         (snd (DeviceStateStore.reload (conversions := conversions)
                 (DeviceStateStore.set_path DeviceStateStore.Unreadable s'))) = ∅.
Proof.
  destruct (unwritten_record_is_lost_on_reload (conversions := conversions)
              read_only_ledger 1000 "USB#001" None None "locked")
    as (s' & H1 & H2 & _ & _ & H3 & _ & H4).
  - reflexivity.
  - exists s'. split; [exact H1|]. split; [by rewrite H2|]. split; [|exact H4].
    rewrite H3. reflexivity.
Defined.

(** A file that cannot be read gives an empty ledger; a file that is no
    text and a member that is a number end the constructor. *)
Lemma load_of_damaged_file_witness :
  DeviceStateStore.__init__ (conversions := conversions) DeviceStateStore.Unreadable true
  = (Ok tt, {| DeviceStateStore._cache := ∅;
               DeviceStateStore.path := DeviceStateStore.Unreadable;
               DeviceStateStore.writable := true |})
  /\ fst (DeviceStateStore.__init__ (conversions := conversions)
            DeviceStateStore.Undecodable true)
     = Raise UnicodeDecodeError
  /\ fst (DeviceStateStore.__init__ (conversions := conversions)
            (DeviceStateStore.Document (JObj [("USB#001", JNum 1)])) true)
     = Raise AttributeError.
Proof.
  destruct (load_of_damaged_file (conversions := conversions) true) as (H1 & H2 & _ & H3).
  split; [|split].
  - apply (H1 DeviceStateStore.Unreadable). exact I.
  - by rewrite H2.
  - change [("USB#001", JNum 1)] with ([] ++ [("USB#001", JNum 1)])%list.
    rewrite (H3 [] "USB#001" (JNum 1) [] ∅); [reflexivity|exact I|reflexivity].
Defined.

(** The selected device is recorded as locked, with the drive and the
    volume of its row. *)
Lemma update_state_keeps_view_in_step_witness :
  exists u',
    DeviceWindow._update_state "USB#001" "locked" (window obliging "") = (Ok tt, u')
    /\ DeviceWindow.latest_states u' !! "USB#001"
       = Some (DeviceStateStore.upserted 1000 "USB#001" (Some "E:") (Some "USB") "locked").
Proof.
  destruct (update_state_keeps_view_in_step "USB#001" "locked" (window obliging ""))
    as (u' & H1 & _ & H2 & _).
  - exact unlocked_ledger_keyed.
  - reflexivity.
  - exists u'. split; [exact H1|]. rewrite H2. reflexivity.
Defined.

(** A window that has loaded nothing yet shows USB#001 after the sync. *)
Lemma sync_shows_foreign_writes_witness :
  exists u',
    DeviceWindow.sync_external_store (conversions := conversions)
      (DeviceWindow.set_store (DeviceStateStore.set_cache ∅ unlocked_ledger)
         (window obliging "")) = (Ok tt, u')
    /\ DeviceWindow.latest_states u' !! "USB#001"
       = Some (DeviceStateStore.upserted 995 "USB#001" (Some "E:") (Some "USB") "unlocked").
Proof.
  destruct (sync_shows_foreign_writes (conversions := conversions) unlocked_ledger
              (DeviceWindow.set_store (DeviceStateStore.set_cache ∅ unlocked_ledger)
                 (window obliging "")))
    as (u' & H1 & _ & H2 & _).
  - exact unlocked_ledger_keyed.
  - reflexivity.
  - reflexivity.
  - exists u'. split; [exact H1|]. rewrite H2. reflexivity.
Defined.

(** The device is not found: the manual lock leaves the ledger alone. *)
Lemma manual_lock_records_success_only_witness :
  exists u',
    DeviceWindow.handle_lock (window deaf "") = (Ok tt, u')
    /\ DeviceWindow.store u' = unlocked_ledger
    /\ DeviceWindow.status_var u' = DeviceWindow.FailedToLock "DeviceNotFound".
Proof.
  destruct (manual_lock_records_success_only (window deaf "")
              (DeviceStateStore.upserted 995 "USB#001" (Some "E:") (Some "USB") "unlocked"))
    as (r & res & u' & H1 & H2 & _ & _ & H3).
  - discriminate.
  - reflexivity.
  - assert (Hr : r = {| DeviceLocker.instance_id := "USB#001";
                        DeviceLocker.success := false;
                        DeviceLocker.message := "DeviceNotFound" |}).
    { vm_compute in H1. congruence. }
    destruct H3 as (-> & H4 & _ & H5); [by rewrite Hr|].
    exists u'. split; [exact H2|]. split; [exact H4|]. by rewrite H5, Hr.
Defined.

Lemma arrival_write_failure_leaves_device_busy_witness :
  exists u',
    DeviceWindow._handle_arrival (arrival false)
      (DeviceWindow.set_store read_only_ledger (window obliging "")) = (Raise OSError, u')
    /\ DeviceWindow._handle_arrival (arrival false) u' = (Ok tt, u').
Proof.
  destruct (arrival_write_failure_leaves_device_busy (arrival false)
              (DeviceWindow.set_store read_only_ledger (window obliging "")))
    as (r & u' & _ & H1 & _ & _ & H2).
  - reflexivity.
  - apply not_elem_of_empty.
  - reflexivity.
  - reflexivity.
  - exists u'. split; [exact H1|]. by apply H2.
Defined.

(** PowerShell does not find the device and pnputil ends with code 1. *)
Lemma toggle_reports_the_fallback_witness :
  exists os',
    DeviceLocker.toggle DeviceLocker.DisableDevice "USB#001" deaf
    = (Ok {| DeviceLocker.instance_id := "USB#001"; DeviceLocker.success := false;
             DeviceLocker.message := "DeviceNotFound" |}, os')
    /\ length (DeviceLocker.calls os') = 2%nat.
Proof.
  destruct (toggle_reports_the_fallback DeviceLocker.DisableDevice "USB#001" deaf)
    as (r & os' & H1 & _ & _ & H2).
  - discriminate.
  - destruct H2 as [H2 H3]; [reflexivity|].
    exists os'. rewrite H1, H3, H2. split; reflexivity.
Defined.

(** Nothing that is written decodes: the loop ends at the first arrival,
    with the active set empty. *)
Lemma single_worker_is_never_busy_witness :
  fst (Undecoded._worker_loop [(1000, arrival false); (1001, arrival false)] garbling)
  = Raise UnicodeDecodeError
  /\ Service._active_devices
       (Undecoded.service
          (snd (Undecoded._worker_loop [(1000, arrival false); (1001, arrival false)]
                  garbling))) = ∅.
Proof.
  destruct (single_worker_is_never_busy
              [(1000, arrival false); (1001, arrival false)] garbling)
    as (H1 & _).
  - reflexivity.
  - intros id [].
  - split; [vm_compute; reflexivity|exact H1].
Defined.


Lemma queue_never_exceeds_maxsize_witness :
  (length (Workers._event_queue
             (Workers._handle_usb_event (arrival false)
                (Workers.started (idle_service obliging empty_ledger 1000) 2)))
   <= Workers.maxsize)%nat.
Proof.
  destruct (queue_never_exceeds_maxsize [Workers.Notify (arrival false)]
              (Workers.started (idle_service obliging empty_ledger 1000) 2)
              (Workers._handle_usb_event (arrival false)
                 (Workers.started (idle_service obliging empty_ledger 1000) 2)))
    as [H _].
  - cbn. unfold Workers.maxsize. lia.
  - reflexivity.
  - exact H.
Defined.

(** After the removal has overtaken the arrival, both workers hold
    USB#001 and the set has it. *)
Lemma active_set_never_leaks_witness : Workers.accounted overtaken.
Proof.
  destruct (active_set_never_leaks overtaking (idle_service obliging empty_ledger 1000) 2
              overtaken) as [H _].
  - vm_compute. reflexivity.
  - exact H.
Defined.

(** E: arrives as USB#001; when e: is removed and resolves to nothing,
    the removal is delivered for USB#001. *)
Lemma removal_recovers_arrival_id_witness :
  instance_id
    <$> last (USBMonitor.listener
                (foldl (USBMonitor.iteration (casing := casing) USBMonitor.record)
                   (USBMonitor.fresh [])
                   [USBMonitor.Yielded mounted (volume_event 2 "E:");
                    USBMonitor.TimedOut;
                    USBMonitor.Yielded pulled (volume_event 3 "e:")]))
  = Some "USB#001".
Proof.
  destruct (removal_recovers_arrival_id (casing := casing) (USBMonitor.fresh [])
              mounted pulled "E:" "e:" (Some "USB") (Some "USB") "USB#001"
              [USBMonitor.TimedOut])
    as [H _].
  - discriminate.
  - discriminate.
  - reflexivity.
  - reflexivity.
  - discriminate.
  - reflexivity.
  - constructor; [|constructor]. intros [].
  - exact (f_equal (fmap instance_id) H).
Defined.

(** USB#001 is found at start on E: and then pulled: the removal comes
    without an id and the service leaves the device alone. *)
Lemma removal_of_startup_device_has_no_id_witness :
  exists s',
    Service._process_event
      {| instance_id := ""; drive_letter := Some "E:"; volume_name := Some "USB";
         event_type := "removal"; synthetic := false |}
      (idle_service obliging unlocked_ledger 1000) = (Ok tt, s')
    /\ Service.same_devices (idle_service obliging unlocked_ledger 1000) s'.
Proof.
  destruct (removal_of_startup_device_has_no_id (casing := casing) mounted pulled
              (Some "E:") (Some "USB") [])
    as (_ & _ & H & _).
  - reflexivity.
  - exact (H (idle_service obliging unlocked_ledger 1000)).
Defined.

Lemma monitor_events_are_well_formed_witness :
  Forall USBMonitor.well_formed
    (USBMonitor.listener
       (snd (USBMonitor._run_loop (casing := casing) USBMonitor.record mounted
               [USBMonitor.Yielded pulled (volume_event 3 "E:")] (USBMonitor.fresh [])))).
Proof.
  destruct (monitor_events_are_well_formed (casing := casing) mounted
              [USBMonitor.Yielded pulled (volume_event 3 "E:")] (USBMonitor.fresh []))
    as [H _].
  - constructor.
  - exact H.
Defined.

Lemma mismatched_entries_change_nothing_witness :
  exists c',
    LockportCli.cmd_set_pin (platform := platform) config None true
      (console ["1234"; "4321"]) = (Ok 1, c')
    /\ LockportCli.pin_manager c' = installed.
Proof.
  destruct (mismatched_entries_change_nothing (platform := platform) config None true
              (console ["1234"; "4321"]))
    as (c' & H1 & H2 & _).
  - discriminate.
  - by exists c'.
Defined.

Lemma cmd_set_pin_success_is_sound_witness :
  exists p',
    PinStore.store_file
      (LockportCli.pin_manager
         (snd (LockportCli.cmd_set_pin (platform := platform) config None true
                 (console ["1234"; "1234"])))) = Some p'
    /\ PinStore.failed_attempts p' = Some 0.
Proof.
  destruct (cmd_set_pin_success_is_sound (platform := platform) config None true
              (console ["1234"; "1234"])
              (snd (LockportCli.cmd_set_pin (platform := platform) config None true
                      (console ["1234"; "1234"]))))
    as (salt_bytes & p' & asked & _ & _ & _ & _ & _ & H1 & _ & H2 & _).
  - reflexivity.
  - by exists p'.
Defined.

Lemma cmd_set_pin_refuses_wrong_current_witness :
  exists c',
    LockportCli.cmd_set_pin (platform := platform) config (Some "9999") false
      (console ["1234"; "1234"]) = (Ok 1, c')
    /\ LockportCli.printed c'
       = [LockportCli.FailedToSetPin "Current PIN validation failed"].
Proof.
  destruct (cmd_set_pin_refuses_wrong_current (platform := platform) config "9999"
              (console ["1234"; "1234"]) default_payload "1234")
    as (c' & p' & H1 & H2 & _).
  - reflexivity.
  - reflexivity.
  - reflexivity.
  - reflexivity.
  - split; discriminate.
  - right. reflexivity.
  - by exists c'.
Defined.

Lemma cmd_set_pin_lets_value_error_escape_witness :
  exists c',
    LockportCli.cmd_set_pin (platform := platform) config None true
      (console ["12a4"; "12a4"])
    = (Raise (ValueError "PIN must be 4-8 numeric digits"), c')
    /\ LockportCli.pin_manager c' = installed.
Proof.
  destruct (cmd_set_pin_lets_value_error_escape (platform := platform) config None true
              (console ["12a4"; "12a4"]) "12a4")
    as (c' & H1 & H2 & _).
  - reflexivity.
  - reflexivity.
  - left. reflexivity.
  - by exists c'.
Defined.

Lemma reset_then_status_reports_no_lockout_witness :
  exists c1 c2,
    LockportCli.cmd_reset_lockout (platform := platform) config
      {| LockportCli.pin_manager := locked_out; LockportCli.keyboard := fun _ => "";
         LockportCli.prompts := []; LockportCli.printed := [] |} = (Ok 0, c1)
    /\ LockportCli.cmd_status (platform := platform) config c1 = (Ok 0, c2)
    /\ LockportCli.printed c2
       = [LockportCli.LockoutInactive; LockportCli.FailedAttempts 0;
          LockportCli.LockoutCountersCleared].
Proof.
  destruct (reset_then_status_reports_no_lockout (platform := platform) config
              {| LockportCli.pin_manager := locked_out; LockportCli.keyboard := fun _ => "";
                 LockportCli.prompts := []; LockportCli.printed := [] |}
              (PinStore.with_counters (Some 0) (Some 1002)
                 (PinStore.updated_at default_payload) default_payload))
    as (c1 & c2 & H1 & H2 & H3).
  - reflexivity.
  - discriminate.
  - by exists c1, c2.
Defined.

(** PowerShell does not find the device and what it writes does not
    decode: the exception leaves [_process_event], and the arrival is not
    recorded. *)
Lemma undecodable_output_is_not_absorbed_witness :
  fst (Undecoded._process_event (arrival false) garbling) = Raise UnicodeDecodeError
  /\ DeviceStateStore.get "USB#001"
       (Service._device_state_store
          (Undecoded.service (snd (Undecoded._process_event (arrival false) garbling))))
     = None
  /\ Service.logger
       (Undecoded.service (snd (Undecoded._process_event (arrival false) garbling)))
     = [Service.InfoLocking "USB#001"].
Proof.
  destruct (undecodable_output_is_not_absorbed
              (arrival false) garbling
              {| DeviceLocker.returncode := 1; DeviceLocker.stdout := "DeviceNotFound";
                 DeviceLocker.stderr := "" |})
    as (H & _).
  - discriminate.
  - discriminate.
  - reflexivity.
  - reflexivity.
  - destruct H as (h' & H1 & H2 & _ & H3 & _).
    + discriminate.
    + reflexivity.
    + apply not_elem_of_empty.
    + rewrite H1. cbn [fst snd]. split; [reflexivity|]. by rewrite H2, H3.
Defined.

End FurtherInstances.
